(** * Batch-Cropper: selection geometry, coordinate mapping and session history

    A shallow embedding of [Batch-Cropper.py] and the properties its
    specification states about it.

    Conventions of the embedding.
    - Python [int] is [Z].  The fields of [wx.Rect] and [wx.Point] are C
      [int]s in wxWidgets; pixel coordinates are far below 2^31 and the
      model keeps them in [Z] without wrap-around.
    - Python [float] is IEEE-754 binary64, the primitive [float] of Rocq.
      [math.floor], [math.ceil] and [round] read the exact value
      [m * 2^e] of a finite float and raise on an infinity or a NaN.
    - A Python expression that may raise is a computation in [result];
      an exception that leaves an event handler leaves the object as it
      was, since the methods modelled here assign last.
    - [str] is [string].  [float(s)] and [int(s)] on text are builtins of
      the interpreter and are taken through the class [Builtins].
    - The imaging library, the file system and the widgets are outside the
      repository; the session code sees them through the classes [Pillow]
      and [Host].
    - A method keeps its name; [self] is its first argument and the new
      [self] its result.
    - A handler that assigns before a call that may raise is an [action]:
      it yields the object with the assignments made so far, and the
      exception that ended it, if any.
    - [Image.open] is lazy: the pixel data is read by the first call that
      needs it.  [img.copy()] raises on an image whose file cannot be read
      to the end, which the session meets in [PushHistory]; the handlers
      that can hold such an image ([AddFiles], [OnPasteFromClipboard],
      [OnSnapshot]) test [images_load] and end, when it fails, with the
      state the exception leaves.  The images a batch operation or an
      undo installs are copies that were read already. *)

From Stdlib Require Import ZArith List String Ascii Bool Floats Lia.
From Stdlib Require Import DecimalString DecimalPos DecimalZ.
Import ListNotations.
Open Scope Z_scope.

(** ** Exceptions and fallible computations *)

Inductive exn : Set :=
| ValueError
| OverflowError
| ZeroDivisionError
| TypeError
| IndexError.

Inductive result (A : Type) : Type :=
| Ok (a : A)
| Raise (e : exn).
Arguments Ok {A} a.
Arguments Raise {A} e.

Definition bind {A B : Type} (m : result A) (k : A -> result B) : result B :=
  match m with
  | Ok a => k a
  | Raise e => Raise e
  end.

Notation "x <- m ;; k" := (bind m (fun x => k))
  (at level 61, m at next level, right associativity).

(** ** Python numbers *)

Module Py.

(** [float(n)] for an [int]: correctly rounded, [OverflowError] when the
    integer is too large for a double. *)
Definition Z2F (z : Z) : float :=
  SF2Prim (binary_normalize prec emax z 0 false).

Definition float_of_int (z : Z) : result float :=
  let f := Z2F z in
  match Prim2SF f with
  | S754_infinity _ => Raise OverflowError
  | _ => Ok f
  end.

(** A float that is neither an infinity nor a NaN. *)
Definition finite (f : float) : bool :=
  match Prim2SF f with
  | S754_zero _ | S754_finite _ _ _ => true
  | _ => false
  end.

Definition signed (s : bool) (m : positive) : Z :=
  if s then Z.neg m else Z.pos m.

(** [math.floor(f)] *)
Definition floor (f : float) : result Z :=
  match Prim2SF f with
  | S754_zero _ => Ok 0
  | S754_finite s m e =>
      let v := signed s m in
      Ok (if 0 <=? e then v * 2 ^ e else v / 2 ^ (- e))
  | S754_infinity _ => Raise OverflowError
  | S754_nan => Raise ValueError
  end.

(** [math.ceil(f)] *)
Definition ceil (f : float) : result Z :=
  match Prim2SF f with
  | S754_zero _ => Ok 0
  | S754_finite s m e =>
      let v := signed s m in
      Ok (if 0 <=? e then v * 2 ^ e else - ((- v) / 2 ^ (- e)))
  | S754_infinity _ => Raise OverflowError
  | S754_nan => Raise ValueError
  end.

(** [round(f)] with one argument: nearest integer, ties to even. *)
Definition round (f : float) : result Z :=
  match Prim2SF f with
  | S754_zero _ => Ok 0
  | S754_finite s m e =>
      let v := signed s m in
      if 0 <=? e then Ok (v * 2 ^ e)
      else
        let d := 2 ^ (- e) in
        let q := v / d in
        let r := v mod d in
        Ok (match 2 * r ?= d with
            | Lt => q
            | Gt => q + 1
            | Eq => if Z.even q then q else q + 1
            end)
  | S754_infinity _ => Raise OverflowError
  | S754_nan => Raise ValueError
  end.

(** [a / b] on two ints.  Both operands are converted first, which is
    the correctly rounded quotient for operands below 2^53. *)
Definition int_truediv (a b : Z) : result float :=
  if b =? 0 then Raise ZeroDivisionError
  else fa <- float_of_int a ;; fb <- float_of_int b ;; Ok (fa / fb)%float.

(** [a / f], [a * f], [a + f] with an int on the left. *)
Definition int_div_float (a : Z) (f : float) : result float :=
  fa <- float_of_int a ;;
  if is_zero f then Raise ZeroDivisionError else Ok (fa / f)%float.

Definition int_mul_float (a : Z) (f : float) : result float :=
  fa <- float_of_int a ;; Ok (fa * f)%float.

Definition int_add_float (a : Z) (f : float) : result float :=
  fa <- float_of_int a ;; Ok (fa + f)%float.

(** [f / b] with an int on the right. *)
Definition float_div_int (f : float) (b : Z) : result float :=
  fb <- float_of_int b ;;
  if b =? 0 then Raise ZeroDivisionError else Ok (f / fb)%float.

(** [v * (num / den)] on three ints, the way [GetCropBox] scales a
    display coordinate: the quotient is rounded, then the product. *)
Definition scaled (v num den : Z) : float :=
  (Z2F v * (Z2F num / Z2F den))%float.

(** Truth value of a float: every float but the two zeros. *)
Definition float_bool (f : float) : bool := negb (is_zero f).

(** [int(round(a / f))] and [int(round(a * f))], the two shapes the
    geometry code uses. *)
Definition round_div (a : Z) (f : float) : result Z :=
  q <- int_div_float a f ;; round q.

Definition round_mul (a : Z) (f : float) : result Z :=
  q <- int_mul_float a f ;; round q.

End Py.

(** An int that a double holds exactly: at most 53 bits.  The C ints of
    wxWidgets and the sizes of images are of this kind. *)
Definition exact_int (z : Z) : Prop := Z.abs z < 2 ^ 53.

(** What the rounding of [SpecFloat] yields on an argument in range: a
    zero, or a finite float of sign [s] whose exponent is within the format
    and whose magnitude is below [2 ^ bound]. *)
Inductive rounded_to (s : bool) (bound : Z) : spec_float -> Prop :=
| rounded_zero : rounded_to s bound (S754_zero s)
| rounded_finite (m : positive) (e : Z) :
    e <= 971 -> Zdigits2 (Zpos m) + e <= bound ->
    rounded_to s bound (S754_finite s m e).

(** ** wx.Point and wx.Rect *)

Record Point : Set := mkPoint { pt_x : Z; pt_y : Z }.

Record Rect : Set := mkRect {
  rect_x : Z;
  rect_y : Z;
  rect_width : Z;
  rect_height : Z
}.

(** [wx.Rect()] *)
Definition Rect0 : Rect := mkRect 0 0 0 0.

(** [rect.Right] and [rect.Bottom]: wxWidgets counts the last pixel
    column and row, [x + width - 1] and [y + height - 1]. *)
Definition Right (r : Rect) : Z := rect_x r + rect_width r - 1.
Definition Bottom (r : Rect) : Z := rect_y r + rect_height r - 1.

Definition set_x (r : Rect) (v : Z) : Rect :=
  mkRect v (rect_y r) (rect_width r) (rect_height r).
Definition set_y (r : Rect) (v : Z) : Rect :=
  mkRect (rect_x r) v (rect_width r) (rect_height r).
Definition set_width (r : Rect) (v : Z) : Rect :=
  mkRect (rect_x r) (rect_y r) v (rect_height r).
Definition set_height (r : Rect) (v : Z) : Rect :=
  mkRect (rect_x r) (rect_y r) (rect_width r) v.

(** Truth value of a [wx.Rect]: false for the all-zero rectangle only. *)
Definition Rect_bool (r : Rect) : bool :=
  negb ((rect_x r =? 0) && (rect_y r =? 0)
        && (rect_width r =? 0) && (rect_height r =? 0)).

(** Truth value of an attribute that holds [None] or a rectangle. *)
Definition opt_Rect_bool (o : option Rect) : bool :=
  match o with
  | None => false
  | Some r => Rect_bool r
  end.

(** ** Constants of the program *)

Definition MAX_HISTORY : Z := 10.
Definition MIN_CROP_SIZE : Z := 4.

(** One axis of [_ensure_within_display] in closed form, for an extent
    [len] at the origin [v] on a display of [d] pixels. *)
Definition fit_extent (len d : Z) : Z :=
  Z.max MIN_CROP_SIZE (if len >? d then d else len).

Definition fit_origin (v len d : Z) : Z :=
  let len1 := if len >? d then d else len in
  let v1 := if v <? 0 then 0 else v in
  let v2 := if v1 + len1 - 1 >? d then d - len1 else v1 in
  Z.max 0 (Z.min v2 (d - Z.max MIN_CROP_SIZE len1)).

(** ** Builtins and the imaging library *)

(** [float(s)] and [int(s)] on a [str]; [None] stands for [ValueError]. *)
Class Builtins : Type := {
  float_of_str : string -> option float;
  int_of_str : string -> option Z
}.

(** A PIL image; the geometry reads its [size] only. *)
Class Pillow : Type := {
  Image : Type;
  Image_size : Image -> Z * Z
}.

(** [s.split(sep)] for a one-character separator. *)
Fixpoint split (sep : ascii) (s : string) : list string :=
  match s with
  | EmptyString => [EmptyString]
  | String c s' =>
      if Ascii.eqb c sep then EmptyString :: split sep s'
      else match split sep s' with
           | [] => [String c EmptyString]
           | h :: t => String c h :: t
           end
  end.

(** ** PreviewPanel: the selection rectangle in display space *)

(** The names of the eight handles, and ["inside"], which [OnLeftDown]
    stores in [drag_handle] while the rectangle is moved. *)
Module Handle.
Inductive t : Set :=
| top_left | top | top_right | right
| bottom_right | bottom | bottom_left | left
| inside.

(** ["left" in handle] and its three siblings. *)
Definition has_left (h : t) : bool :=
  match h with top_left | bottom_left | left => true | _ => false end.
Definition has_right (h : t) : bool :=
  match h with top_right | bottom_right | right => true | _ => false end.
Definition has_top (h : t) : bool :=
  match h with top_left | top | top_right => true | _ => false end.
Definition has_bottom (h : t) : bool :=
  match h with bottom_left | bottom | bottom_right => true | _ => false end.
End Handle.

Definition tuple4 : Set := (Z * Z * Z * Z)%type.

Record PreviewPanel {P : Pillow} : Type := mkPreviewPanel {
  current_image : option Image;
  display_w : Z;
  display_h : Z;
  old_display_w : Z;
  old_display_h : Z;
  crop_rect : option tuple4;
  drag_handle : option Handle.t;
  original_rect : option Rect;
  fixed_aspect : bool;
  crop_aspect : string
}.

Definition set_crop_rect {P : Pillow} (self : PreviewPanel) (c : option tuple4)
  : PreviewPanel :=
  mkPreviewPanel P (current_image self) (display_w self) (display_h self)
    (old_display_w self) (old_display_h self) c
    (drag_handle self) (original_rect self)
    (fixed_aspect self) (crop_aspect self).

Definition tuple_of_rect (r : Rect) : tuple4 :=
  (rect_x r, rect_y r, rect_width r, rect_height r).

Section Preview.
Context {B : Builtins} {P : Pillow}.

Definition _clamp_display_point (self : PreviewPanel) (point : Point) : Point :=
  mkPoint (Z.max 0 (Z.min (pt_x point) (display_w self)))
          (Z.max 0 (Z.min (pt_y point) (display_h self))).

Definition _get_aspect_ratio (self : PreviewPanel) : option float :=
  if negb (fixed_aspect self) then None
  else match split ":" (crop_aspect self) with
       | [a; b] =>
           match float_of_str a, float_of_str b with
           | Some wr, Some hr =>
               if is_zero hr then None else Some (wr / hr)%float
           | _, _ => None
           end
       | _ => None
       end.

Definition _ensure_within_display (self : PreviewPanel) (rect : option Rect)
  : Rect :=
  match rect with
  | None => Rect0
  | Some rect =>
      if (display_w self <=? 0) || (display_h self <=? 0) then Rect0
      else
        let rect := if rect_width rect >? display_w self
                    then set_width rect (display_w self) else rect in
        let rect := if rect_height rect >? display_h self
                    then set_height rect (display_h self) else rect in
        let rect := if rect_x rect <? 0 then set_x rect 0 else rect in
        let rect := if rect_y rect <? 0 then set_y rect 0 else rect in
        let rect := if Right rect >? display_w self
                    then set_x rect (display_w self - rect_width rect)
                    else rect in
        let rect := if Bottom rect >? display_h self
                    then set_y rect (display_h self - rect_height rect)
                    else rect in
        let rect := set_width rect (Z.max MIN_CROP_SIZE (rect_width rect)) in
        let rect := set_height rect (Z.max MIN_CROP_SIZE (rect_height rect)) in
        let rect := set_x rect
                      (Z.max 0 (Z.min (rect_x rect)
                                      (display_w self - rect_width rect))) in
        let rect := set_y rect
                      (Z.max 0 (Z.min (rect_y rect)
                                      (display_h self - rect_height rect))) in
        rect
  end.

Definition _ensure_min_size (self : PreviewPanel) (rect : option Rect) : Rect :=
  let rect := _ensure_within_display self rect in
  let rect := if rect_width rect <? MIN_CROP_SIZE
              then set_width rect MIN_CROP_SIZE else rect in
  let rect := if rect_height rect <? MIN_CROP_SIZE
              then set_height rect MIN_CROP_SIZE else rect in
  _ensure_within_display self (Some rect).

(** Lines 277-290 of [_create_rect_with_ratio]: the rectangle of a drag
    that moved, before it is handed to [_ensure_within_display]. *)
Definition ratio_rect (anchor current : Point) (ratio : float) : result Rect :=
  let dx := pt_x current - pt_x anchor in
  let dy := pt_y current - pt_y anchor in
  let abs_dx := Z.abs dx in
  let abs_dy := Z.abs dy in
  abs_dy <- (if abs_dy =? 0 then Py.round_div abs_dx ratio else Ok abs_dy) ;;
  abs_dx <- (if abs_dx =? 0 then Py.round_mul abs_dy ratio else Ok abs_dx) ;;
  current_ratio <- (if negb (abs_dy =? 0) then Py.int_truediv abs_dx abs_dy
                    else Ok ratio) ;;
  dims <- (if (ratio <? current_ratio)%float
           then (a <- Py.round_mul abs_dy ratio ;; Ok (a, abs_dy))
           else (b <- Py.round_div abs_dx ratio ;; Ok (abs_dx, b))) ;;
  let abs_dx := fst dims in
  let abs_dy := snd dims in
  let x2 := pt_x anchor + (if dx >=? 0 then abs_dx else - abs_dx) in
  let y2 := pt_y anchor + (if dy >=? 0 then abs_dy else - abs_dy) in
  let left := Z.min (pt_x anchor) x2 in
  let top := Z.min (pt_y anchor) y2 in
  Ok (mkRect left top (Z.abs (x2 - pt_x anchor)) (Z.abs (y2 - pt_y anchor))).

Definition _create_rect_with_ratio (self : PreviewPanel)
    (anchor current : Point) (ratio : float) : result Rect :=
  let dx := pt_x current - pt_x anchor in
  let dy := pt_y current - pt_y anchor in
  if (Z.abs dx =? 0) && (Z.abs dy =? 0)
  then Ok (mkRect (pt_x anchor) (pt_y anchor) 0 0)
  else rect <- ratio_rect anchor current ratio ;;
       Ok (_ensure_within_display self (Some rect)).

Definition _create_rect (self : PreviewPanel) (anchor current : Point)
  : result Rect :=
  let anchor := _clamp_display_point self anchor in
  let current := _clamp_display_point self current in
  let ratio := _get_aspect_ratio self in
  rect <- (match ratio with
           | Some r =>
               if Py.float_bool r
               then _create_rect_with_ratio self anchor current r
               else Ok (mkRect (Z.min (pt_x anchor) (pt_x current))
                               (Z.min (pt_y anchor) (pt_y current))
                               (Z.abs (pt_x current - pt_x anchor))
                               (Z.abs (pt_y current - pt_y anchor)))
           | None =>
               Ok (mkRect (Z.min (pt_x anchor) (pt_x current))
                          (Z.min (pt_y anchor) (pt_y current))
                          (Z.abs (pt_x current - pt_x anchor))
                          (Z.abs (pt_y current - pt_y anchor)))
           end) ;;
  Ok (_ensure_min_size self (Some rect)).

Definition _update_selection_creation (self : PreviewPanel)
    (anchor current : Point) : result PreviewPanel :=
  rect <- _create_rect self anchor current ;;
  Ok (set_crop_rect self (Some (tuple_of_rect rect))).

Definition _update_selection_move (self : PreviewPanel) (dx dy : Z)
  : result PreviewPanel :=
  match original_rect self with
  | None => Ok self
  | Some rect =>
      if negb (Rect_bool rect) then Ok self
      else
        let rect := set_x rect (rect_x rect + dx) in
        let rect := set_y rect (rect_y rect + dy) in
        let rect := _ensure_min_size self (Some rect) in
        Ok (set_crop_rect self (Some (tuple_of_rect rect)))
  end.

Definition _rect_from_horizontal_anchor (self : PreviewPanel)
    (anchor_x width : Z) (origin : Rect) (to_left : bool) (ratio : float)
  : result Rect :=
  let width := Z.max MIN_CROP_SIZE (Z.min width (display_w self)) in
  h0 <- Py.round_div width ratio ;;
  let height := Z.max MIN_CROP_SIZE h0 in
  wh <- (if height >? display_h self
         then (w1 <- Py.round_mul (display_h self) ratio ;;
               Ok (Z.max MIN_CROP_SIZE w1, display_h self))
         else Ok (width, height)) ;;
  let width := fst wh in
  let height := snd wh in
  half_origin <- Py.int_truediv (rect_height origin) 2 ;;
  center_y <- Py.int_add_float (rect_y origin) half_origin ;;
  half <- Py.int_truediv height 2 ;;
  top <- Py.round (center_y - half)%float ;;
  let top := Z.max 0 (Z.min top (display_h self - height)) in
  let bottom := top + height in
  let lr := if to_left
            then let right := Z.min anchor_x (display_w self) in
                 (Z.max 0 (right - width), right)
            else let left := Z.max 0 anchor_x in
                 let right := Z.min (display_w self) (left + width) in
                 (right - width, right) in
  let left := fst lr in
  let right := snd lr in
  Ok (mkRect left top (right - left) (bottom - top)).

Definition _rect_from_vertical_anchor (self : PreviewPanel)
    (anchor_y height : Z) (origin : Rect) (to_top : bool) (ratio : float)
  : result Rect :=
  let height := Z.max MIN_CROP_SIZE (Z.min height (display_h self)) in
  w0 <- Py.round_mul height ratio ;;
  let width := Z.max MIN_CROP_SIZE w0 in
  wh <- (if width >? display_w self
         then (h1 <- Py.round_div (display_w self) ratio ;;
               Ok (display_w self, Z.max MIN_CROP_SIZE h1))
         else Ok (width, height)) ;;
  let width := fst wh in
  let height := snd wh in
  half_origin <- Py.int_truediv (rect_width origin) 2 ;;
  center_x <- Py.int_add_float (rect_x origin) half_origin ;;
  half <- Py.int_truediv width 2 ;;
  left <- Py.round (center_x - half)%float ;;
  let left := Z.max 0 (Z.min left (display_w self - width)) in
  let right := left + width in
  let tb := if to_top
            then let bottom := Z.min anchor_y (display_h self) in
                 (Z.max 0 (bottom - height), bottom)
            else let top := Z.max 0 anchor_y in
                 let bottom := Z.min (display_h self) (top + height) in
                 (bottom - height, bottom) in
  let top := fst tb in
  let bottom := snd tb in
  Ok (mkRect left top (right - left) (bottom - top)).

Definition _resize_corner_with_ratio (self : PreviewPanel)
    (point : Point) (handle : Handle.t) (origin : Rect) (ratio : float)
  : result Rect :=
  let '(anchor, horizontal, vertical) :=
    match handle with
    | Handle.top_left => (mkPoint (Right origin) (Bottom origin), -1, -1)
    | Handle.top_right => (mkPoint (rect_x origin) (Bottom origin), 1, -1)
    | Handle.bottom_left => (mkPoint (Right origin) (rect_y origin), -1, 1)
    | _ => (mkPoint (rect_x origin) (rect_y origin), 1, 1)
    end in
  let dx := (pt_x point - pt_x anchor) * horizontal in
  let dy := (pt_y point - pt_y anchor) * vertical in
  let dx := Z.max MIN_CROP_SIZE (Z.min (Z.abs dx) (display_w self)) in
  let dy := Z.max MIN_CROP_SIZE (Z.min (Z.abs dy) (display_h self)) in
  dy <- (if dy =? 0 then Py.round_div dx ratio else Ok dy) ;;
  dx <- (if dx =? 0 then Py.round_mul dy ratio else Ok dx) ;;
  let width := dx in
  height <- Py.round_div width ratio ;;
  wh <- (if height >? dy
         then (w1 <- Py.round_mul dy ratio ;; Ok (w1, dy))
         else Ok (width, height)) ;;
  let height := Z.max MIN_CROP_SIZE (snd wh) in
  let width := Z.max MIN_CROP_SIZE (fst wh) in
  let lr := if horizontal <? 0
            then (pt_x anchor - width, pt_x anchor)
            else (pt_x anchor, pt_x anchor + width) in
  let tb := if vertical <? 0
            then (pt_y anchor - height, pt_y anchor)
            else (pt_y anchor, pt_y anchor + height) in
  let rect := mkRect (fst lr) (fst tb) (snd lr - fst lr) (snd tb - fst tb) in
  Ok (_ensure_min_size self (Some rect)).

Definition _resize_with_ratio (self : PreviewPanel)
    (point : Point) (handle : Handle.t) (ratio : float) : result Rect :=
  match original_rect self with
  | None => Ok Rect0
  | Some origin =>
      if negb (Rect_bool origin) then Ok Rect0
      else
        rect <-
          match handle with
          | Handle.left =>
              let anchor_x := Right origin in
              let width := Z.max MIN_CROP_SIZE
                             (Z.min (anchor_x - pt_x point) anchor_x) in
              _rect_from_horizontal_anchor self anchor_x width origin true ratio
          | Handle.right =>
              let anchor_x := rect_x origin in
              let width := Z.max MIN_CROP_SIZE
                             (Z.min (pt_x point - anchor_x)
                                    (display_w self - anchor_x)) in
              _rect_from_horizontal_anchor self anchor_x width origin false ratio
          | Handle.top =>
              let anchor_y := Bottom origin in
              let height := Z.max MIN_CROP_SIZE
                              (Z.min (anchor_y - pt_y point) anchor_y) in
              _rect_from_vertical_anchor self anchor_y height origin true ratio
          | Handle.bottom =>
              let anchor_y := rect_y origin in
              let height := Z.max MIN_CROP_SIZE
                              (Z.min (pt_y point - anchor_y)
                                     (display_h self - anchor_y)) in
              _rect_from_vertical_anchor self anchor_y height origin false ratio
          | _ => _resize_corner_with_ratio self point handle origin ratio
          end ;;
        Ok (_ensure_min_size self (Some rect))
  end.

Definition _resize_free (self : PreviewPanel) (point : Point)
    (handle : Handle.t) : result Rect :=
  match original_rect self with
  | None => Raise TypeError
  | Some rect =>
      let left := rect_x rect in
      let top := rect_y rect in
      let right := Right rect in
      let bottom := Bottom rect in
      let left := if Handle.has_left handle
                  then Z.min (pt_x point) (right - MIN_CROP_SIZE) else left in
      let right := if Handle.has_right handle
                   then Z.max (pt_x point) (left + MIN_CROP_SIZE) else right in
      let top := if Handle.has_top handle
                 then Z.min (pt_y point) (bottom - MIN_CROP_SIZE) else top in
      let bottom := if Handle.has_bottom handle
                    then Z.max (pt_y point) (top + MIN_CROP_SIZE) else bottom in
      let left := Z.max 0 (Z.min left (display_w self)) in
      let right := Z.max 0 (Z.min right (display_w self)) in
      let top := Z.max 0 (Z.min top (display_h self)) in
      let bottom := Z.max 0 (Z.min bottom (display_h self)) in
      let width := Z.max MIN_CROP_SIZE (right - left) in
      let height := Z.max MIN_CROP_SIZE (bottom - top) in
      Ok (mkRect left top width height)
  end.

Definition _update_selection_resize (self : PreviewPanel) (point : Point)
  : result PreviewPanel :=
  match drag_handle self with
  | None => Ok self
  | Some handle =>
      if negb (opt_Rect_bool (original_rect self)) then Ok self
      else
        let ratio := _get_aspect_ratio self in
        rect <- (match ratio with
                 | Some r =>
                     if Py.float_bool r
                     then _resize_with_ratio self point handle r
                     else _resize_free self point handle
                 | None => _resize_free self point handle
                 end) ;;
        let rect := _ensure_min_size self (Some rect) in
        Ok (set_crop_rect self (Some (tuple_of_rect rect)))
  end.

Definition RescaleCropRect (self : PreviewPanel) : result PreviewPanel :=
  match crop_rect self with
  | None => Ok self
  | Some (x, y, w, h) =>
      if (old_display_w self =? 0) || (old_display_h self =? 0) then Ok self
      else
        half_w <- Py.int_truediv w 2 ;;
        cx_old <- Py.int_add_float x half_w ;;
        half_h <- Py.int_truediv h 2 ;;
        cy_old <- Py.int_add_float y half_h ;;
        sx <- Py.int_truediv (display_w self) (old_display_w self) ;;
        sy <- Py.int_truediv (display_h self) (old_display_h self) ;;
        new_w <- Py.int_mul_float w sx ;;
        new_h <- Py.int_mul_float h sy ;;
        let cx_new := (cx_old * sx)%float in
        let cy_new := (cy_old * sy)%float in
        hw <- Py.float_div_int new_w 2 ;;
        let new_x := (cx_new - hw)%float in
        hh <- Py.float_div_int new_h 2 ;;
        let new_y := (cy_new - hh)%float in
        rx <- Py.round new_x ;;
        ry <- Py.round new_y ;;
        rw <- Py.round new_w ;;
        rh <- Py.round new_h ;;
        let rect := _ensure_min_size self (Some (mkRect rx ry rw rh)) in
        Ok (set_crop_rect self (Some (tuple_of_rect rect)))
  end.

Definition GetCropBox (self : PreviewPanel) : result (option tuple4) :=
  match crop_rect self, current_image self with
  | Some (x, y, w, h), Some img =>
      let '(iw, ih) := Image_size img in
      scale_x <- Py.int_truediv iw (display_w self) ;;
      scale_y <- Py.int_truediv ih (display_h self) ;;
      fx1 <- Py.int_mul_float x scale_x ;;
      orig_x1 <- Py.floor fx1 ;;
      fy1 <- Py.int_mul_float y scale_y ;;
      orig_y1 <- Py.floor fy1 ;;
      fx2 <- Py.int_mul_float (x + w) scale_x ;;
      orig_x2 <- Py.ceil fx2 ;;
      fy2 <- Py.int_mul_float (y + h) scale_y ;;
      orig_y2 <- Py.ceil fy2 ;;
      let orig_x1 := Z.max 0 (Z.min (iw - 1) orig_x1) in
      let orig_y1 := Z.max 0 (Z.min (ih - 1) orig_y1) in
      let orig_x2 := Z.max (orig_x1 + 1) (Z.min iw orig_x2) in
      let orig_y2 := Z.max (orig_y1 + 1) (Z.min ih orig_y2) in
      Ok (Some (orig_x1, orig_y1, orig_x2, orig_y2))
  | _, _ => Ok None
  end.

(** *** Gestures

    [OnMouseMove] calls one of the three [_update_selection_*] methods for
    every drag event.  An exception that escapes a handler is reported by
    the toolkit and the panel keeps the state it had. *)
Inductive gesture : Set :=
| Create (anchor current : Point)
| Move (dx dy : Z)
| Resize (point : Point).

Definition handled (self : PreviewPanel) (r : result PreviewPanel)
  : PreviewPanel :=
  match r with
  | Ok self' => self'
  | Raise _ => self
  end.

Definition perform (self : PreviewPanel) (g : gesture) : PreviewPanel :=
  handled self
    match g with
    | Create anchor current => _update_selection_creation self anchor current
    | Move dx dy => _update_selection_move self dx dy
    | Resize point => _update_selection_resize self point
    end.

Definition perform_all (self : PreviewPanel) (gs : list gesture)
  : PreviewPanel :=
  fold_left perform gs self.

(** The invariant of a selection rectangle. *)
Definition rect_ok (self : PreviewPanel) (c : tuple4) : Prop :=
  let '(x, y, w, h) := c in
  MIN_CROP_SIZE <= w /\ MIN_CROP_SIZE <= h /\
  0 <= x /\ 0 <= y /\ x + w <= display_w self /\ y + h <= display_h self.

Definition crop_ok (self : PreviewPanel) : Prop :=
  match crop_rect self with
  | None => True
  | Some c => rect_ok self c
  end.

(** What a gesture can do to the panel: nothing, or store a rectangle that
    came out of [_ensure_min_size]. *)
Inductive stores_normalised (self : PreviewPanel) : PreviewPanel -> Prop :=
| sn_same : stores_normalised self self
| sn_set (rect : option Rect) :
    stores_normalised self
      (set_crop_rect self (Some (tuple_of_rect (_ensure_min_size self rect)))).
End Preview.

(** ** os.path.splitext and the string helpers of the session code *)

Module OsPath.

(** The two implementations of [os.path]: [posixpath] and [ntpath]. *)
Inductive flavour : Set := posix | nt.

Definition sep (os : flavour) : ascii :=
  match os with posix => "/" | nt => "\" end.

Definition altsep (os : flavour) : option ascii :=
  match os with posix => None | nt => Some "/"%char end.

Definition extsep : ascii := ".".

(** [p.rfind(c)] for a single character: the last index of [c], or -1. *)
Fixpoint rfind (c : ascii) (p : list ascii) : Z :=
  match p with
  | [] => -1
  | a :: p' =>
      let r := rfind c p' in
      if r >=? 0 then r + 1
      else if Ascii.eqb a c then 0 else -1
  end.

(** The [while] loop of [genericpath._splitext]: from [filenameIndex], for
    [fuel] positions, look for a character that is not [extsep]. *)
Fixpoint name_char_before (p : list ascii) (extsep : ascii)
    (filenameIndex : Z) (fuel : nat) : bool :=
  match fuel with
  | O => false
  | S fuel' =>
      match nth_error p (Z.to_nat filenameIndex) with
      | Some a =>
          if Ascii.eqb a extsep
          then name_char_before p extsep (filenameIndex + 1) fuel'
          else true
      | None => true
      end
  end.

(** [genericpath._splitext(p, sep, altsep, extsep)] *)
Definition _splitext (p : list ascii) (sep : ascii) (altsep : option ascii)
    (extsep : ascii) : list ascii * list ascii :=
  let sepIndex := rfind sep p in
  let sepIndex := match altsep with
                  | Some a => Z.max sepIndex (rfind a p)
                  | None => sepIndex
                  end in
  let dotIndex := rfind extsep p in
  if (dotIndex >? sepIndex)
     && name_char_before p extsep (sepIndex + 1)
          (Z.to_nat (dotIndex - (sepIndex + 1)))
  then (firstn (Z.to_nat dotIndex) p, skipn (Z.to_nat dotIndex) p)
  else (p, []).

(** The value of [sepIndex] in [_splitext]. *)
Definition sep_index (p : list ascii) (sp : ascii) (alt : option ascii) : Z :=
  match alt with
  | Some a => Z.max (rfind sp p) (rfind a p)
  | None => rfind sp p
  end.

(** The optional separator does not occur in [s]. *)
Definition free_of (c : option ascii) (s : list ascii) : Prop :=
  match c with
  | Some a => ~ In a s
  | None => True
  end.

Definition splitext_chars (os : flavour) (p : list ascii)
  : list ascii * list ascii :=
  _splitext p (sep os) (altsep os) extsep.

(** [os.path.splitext(p)] *)
Definition splitext (os : flavour) (p : string) : string * string :=
  let be := splitext_chars os (list_ascii_of_string p) in
  (string_of_list_ascii (fst be), string_of_list_ascii (snd be)).

End OsPath.

Definition chars_eqb (a b : list ascii) : bool :=
  if list_eq_dec ascii_dec a b then true else false.

(** [s.endswith(suffix)] *)
Definition endswith_chars (s suffix : list ascii) : bool :=
  (List.length suffix <=? List.length s)%nat
  && chars_eqb (skipn (List.length s - List.length suffix) s) suffix.

Definition endswith (s suffix : string) : bool :=
  endswith_chars (list_ascii_of_string s) (list_ascii_of_string suffix).

(** [c.lower()] on the letters A-Z; the other characters stay.  Unicode
    case folding maps no character outside ASCII to one of the letters of
    the extensions tested below, so the tests agree. *)
Definition lower_char (c : ascii) : ascii :=
  let n := nat_of_ascii c in
  if ((65 <=? n) && (n <=? 90))%nat then ascii_of_nat (n + 32) else c.

Fixpoint lower (s : string) : string :=
  match s with
  | EmptyString => EmptyString
  | String c s' => String (lower_char c) (lower s')
  end.

Definition bc : list ascii := list_ascii_of_string "_bc".

Definition add_bc_suffix_chars (os : OsPath.flavour) (path : list ascii)
  : list ascii :=
  let '(base, ext) := OsPath.splitext_chars os path in
  let base := if endswith_chars base bc
              then firstn (List.length base - 3) base else base in
  base ++ bc ++ ext.

Definition add_bc_suffix (os : OsPath.flavour) (path : string) : string :=
  string_of_list_ascii (add_bc_suffix_chars os (list_ascii_of_string path)).

(** [x in l] for a list or tuple of strings. *)
Definition str_in (x : string) (l : list string) : bool :=
  existsb (String.eqb x) l.

Definition IMAGE_EXTS : list string :=
  [".jpg"; ".jpeg"; ".png"; ".bmp"; ".tiff"; ".tif"]%string.

(** [l.index(x)] *)
Fixpoint index_of (x : string) (l : list string) : option nat :=
  match l with
  | [] => None
  | y :: l' => if String.eqb y x then Some O
               else option_map S (index_of x l')
  end.

(** ** MainFrame: the session and its history *)

(** The text fields of the control panel. *)
Inductive coord : Set := xs | ys | xe | ye.

(** The dialogs and log lines the session code produces. *)
Inductive message : Set :=
| coords_not_integer
| coords_out_of_order
| nothing_to_reduce
| png_only
| load_failed (p : string)
| reduce_failed (p : string).

(** What a handler returns to its caller. *)
Inductive pyval : Set :=
| PyNone
| PyBool (b : bool).

(** The collaborators of the session code: file system, codecs, widgets. *)
Class Host {P : Pillow} : Type := {
  FS : Type;
  UI : Type;
  os_name : OsPath.flavour;
  (** [Image.open(p)]; [None] when it raises.  It identifies the file and
      leaves the pixel data to be read later. *)
  Image_open : FS -> string -> option Image;
  (** whether [img.copy()] returns: it reads the pixel data of an image
      that [Image.open] only identified, and raises when the file cannot be
      read to the end *)
  Image_load : Image -> bool;
  (** crop, pick the save options, save to [out_path], reopen and copy *)
  trim_save_reload : FS -> tuple4 -> string -> string -> Image -> FS * option Image;
  (** quantize, restore alpha, save to [out_path], reopen and copy *)
  reduce_save_reload : FS -> string -> string -> Image -> FS * option Image;
  (** [os.remove(p)] and [img.save(p)] inside [try ... except: pass] *)
  os_remove : FS -> string -> FS;
  Image_save : FS -> Image -> string -> FS;
  (** [textcs[key].GetValue()] *)
  GetValue : UI -> coord -> string;
  (** [wx.MessageBox] and [wx.LogError] *)
  notify : UI -> message -> UI;
  (** what [UpdateUI] does to the preview, the text fields and the thumbnails *)
  refresh : UI -> list Image -> Z -> UI
}.

Record Snapshot {P : Pillow} : Type := mkSnapshot {
  paths : list string;
  snap_images : list Image;
  flags : list bool
}.

Record MainFrame {P : Pillow} {H : Host} : Type := mkMainFrame {
  file_paths : list string;
  images : list Image;
  history : list Snapshot;
  reduced_flags : list bool;
  selected_index : Z;
  ui : UI;
  fs : FS
}.

Section Session.
Context {B : Builtins} {P : Pillow} {H : Host}.

Definition set_ui (self : MainFrame) (u : UI) : MainFrame :=
  mkMainFrame P H (file_paths self) (images self) (history self)
    (reduced_flags self) (selected_index self) u (fs self).

Definition set_fs (self : MainFrame) (f : FS) : MainFrame :=
  mkMainFrame P H (file_paths self) (images self) (history self)
    (reduced_flags self) (selected_index self) (ui self) f.

Definition set_history (self : MainFrame) (h : list Snapshot) : MainFrame :=
  mkMainFrame P H (file_paths self) (images self) h
    (reduced_flags self) (selected_index self) (ui self) (fs self).

Definition set_selected_index (self : MainFrame) (i : Z) : MainFrame :=
  mkMainFrame P H (file_paths self) (images self) (history self)
    (reduced_flags self) i (ui self) (fs self).

(** the three parallel lists are always replaced together *)
Definition set_documents (self : MainFrame)
    (ps : list string) (ims : list Image) (fl : list bool) : MainFrame :=
  mkMainFrame P H ps ims (history self) fl
    (selected_index self) (ui self) (fs self).

(** [if not (0 <= self.selected_index < len(self.images)): ... = 0] *)
Definition fix_selected_index (self : MainFrame) : MainFrame :=
  if (0 <=? selected_index self)
     && (selected_index self <? Z.of_nat (List.length (images self)))
  then self else set_selected_index self 0.

Definition UpdateUI (self : MainFrame) : MainFrame :=
  set_ui self (refresh (ui self) (images self) (selected_index self)).

(** [PushHistory] once the copies of the images are made. *)
Definition PushHistory (self : MainFrame) : MainFrame :=
  let snapshot := mkSnapshot P (file_paths self) (images self)
                    (reduced_flags self) in
  let h := history self ++ [snapshot] in
  set_history self
    (if Z.of_nat (List.length h) >? MAX_HISTORY then tl h else h).

Definition GetValidatedBox (u : UI) : UI * option tuple4 :=
  match int_of_str (GetValue u xs), int_of_str (GetValue u ys),
        int_of_str (GetValue u xe), int_of_str (GetValue u ye) with
  | Some vxs, Some vys, Some vxe, Some vye =>
      if (vxe <=? vxs) || (vye <=? vys)
      then (notify u coords_out_of_order, None)
      else (u, Some (vxs, vys, vxe, vye))
  | _, _, _, _ => (notify u coords_not_integer, None)
  end.

Definition ext_lower (p : string) : string :=
  lower (snd (OsPath.splitext os_name p)).

(** One turn of the loop of [AddFiles]. *)
Definition add_file (self : MainFrame) (p : string) : MainFrame :=
  if str_in (ext_lower p) IMAGE_EXTS && negb (str_in p (file_paths self))
  then match Image_open (fs self) p with
       | Some img =>
           set_documents self (file_paths self ++ [p])
             (images self ++ [img]) (reduced_flags self ++ [false])
       | None => set_ui self (notify (ui self) (load_failed p))
       end
  else self.

(** The path one turn of the loop of [AddFiles] appends, if any. *)
Definition appended (self : MainFrame) (p : string) : list string :=
  if str_in (ext_lower p) IMAGE_EXTS && negb (str_in p (file_paths self))
  then match Image_open (fs self) p with
       | Some _ => [p]
       | None => []
       end
  else [].

(** [[img.copy() for img in self.images]], the first thing [PushHistory]
    evaluates, returns. *)
Definition images_load (self : MainFrame) : bool :=
  forallb Image_load (images self).

(** [AddFiles] calls [PushHistory] outside its [try], on images that were
    opened and not read yet.  When a copy raises, the exception leaves the
    handler after [history.clear()]: the documents are appended, the
    history is empty, [selected_index] is the one of before and [UpdateUI]
    is not called. *)
Definition AddFiles (self : MainFrame) (ps : list string) : MainFrame :=
  let self := fold_left add_file ps self in
  match images self with
  | [] => self
  | _ :: _ =>
      let self := set_history self [] in
      if images_load self then
        let self := PushHistory self in
        let self := set_selected_index self 0 in
        UpdateUI self
      else self
  end.

(** The lists a batch operation builds while it runs. *)
Record batch : Type := mkBatch {
  b_fs : FS;
  b_ui : UI;
  new_paths : list string;
  new_images : list Image;
  new_flags : list bool
}.

(** One turn of the loop of [OnTrimAll]. *)
Definition trim_one (self : MainFrame) (crop_box : tuple4) (acc : batch)
    (doc : string * Image) : batch :=
  let '(path, img) := doc in
  let out_path := add_bc_suffix os_name path in
  match trim_save_reload (b_fs acc) crop_box path out_path img with
  | (fs', Some reopened) =>
      let ims := new_images acc ++ [reopened] in
      let ps := new_paths acc ++ [out_path] in
      match index_of path (file_paths self) with
      | Some i =>
          match nth_error (reduced_flags self) i with
          | Some f => mkBatch fs' (b_ui acc) ps ims (new_flags acc ++ [f])
          | None => mkBatch fs' (b_ui acc) ps ims (new_flags acc)
          end
      | None => mkBatch fs' (b_ui acc) ps ims (new_flags acc)
      end
  | (fs', None) =>
      mkBatch fs' (b_ui acc) (new_paths acc) (new_images acc) (new_flags acc)
  end.

Definition trim_loop (self : MainFrame) (crop_box : tuple4)
    (docs : list (string * Image)) (acc : batch) : batch :=
  fold_left (trim_one self crop_box) docs acc.

(** The end of [OnTrimAll] and of [OnPngReduce]: install the new lists. *)
Definition commit (self : MainFrame) (b : batch) : MainFrame :=
  let self := set_ui (set_fs self (b_fs b)) (b_ui b) in
  let self := set_documents self (new_paths b) (new_images b) (new_flags b) in
  let self := PushHistory self in
  let self := fix_selected_index self in
  UpdateUI self.

Definition OnTrimAll (self : MainFrame) : MainFrame :=
  match GetValidatedBox (ui self) with
  | (u, None) => set_ui self u
  | (u, Some crop_box) =>
      let b := trim_loop self crop_box
                 (combine (file_paths self) (images self))
                 (mkBatch (fs self) u [] [] []) in
      match new_images b with
      | [] => set_ui (set_fs self (b_fs b)) (b_ui b)
      | _ :: _ => commit self b
      end
  end.

(** One turn of the loop of [OnPngReduce]. *)
Definition reduce_one (acc : batch) (doc : string * Image) : batch :=
  let '(path, img) := doc in
  let out_path := add_bc_suffix os_name path in
  match reduce_save_reload (b_fs acc) path out_path img with
  | (fs', Some reopened) =>
      mkBatch fs' (b_ui acc) (new_paths acc ++ [out_path])
        (new_images acc ++ [reopened]) (new_flags acc ++ [true])
  | (fs', None) =>
      mkBatch fs' (notify (b_ui acc) (reduce_failed path))
        (new_paths acc) (new_images acc) (new_flags acc)
  end.

Definition is_png (p : string) : bool := String.eqb (ext_lower p) ".png".

Definition OnPngReduce (self : MainFrame) : MainFrame :=
  match file_paths self with
  | [] => set_ui self (notify (ui self) nothing_to_reduce)
  | _ :: _ =>
      let non_png := filter (fun p => negb (is_png p)) (file_paths self) in
      match non_png with
      | _ :: _ => set_ui self (notify (ui self) png_only)
      | [] =>
          let b := fold_left reduce_one
                     (combine (file_paths self) (images self))
                     (mkBatch (fs self) (ui self) [] [] []) in
          match new_paths b with
          | [] => set_ui (set_fs self (b_fs b)) (b_ui b)
          | _ :: _ => commit self b
          end
      end
  end.

(** The two clean-up loops of [OnRevertAll]. *)
Definition remove_step (prev_paths : list string) (f : FS) (p : string) : FS :=
  let base := fst (OsPath.splitext os_name p) in
  if negb (str_in p prev_paths) && endswith base "_bc"
  then os_remove f p else f.

Definition restore_step (f : FS) (doc : string * Image) : FS :=
  let '(p, img) := doc in
  let base := fst (OsPath.splitext os_name p) in
  if endswith base "_bc" then Image_save f img p else f.

Definition OnRevertAll (self : MainFrame) : MainFrame * pyval :=
  if Z.of_nat (List.length (history self)) <? 2 then (self, PyNone)
  else
    let current_paths := file_paths self in
    let h := removelast (history self) in
    match rev h with
    | [] => (set_history self h, PyNone)
    | previous :: _ =>
        let prev_paths := paths previous in
        let f := fold_left (remove_step prev_paths) current_paths (fs self) in
        let f := fold_left restore_step
                   (combine prev_paths (snap_images previous)) f in
        let self := set_fs (set_history self h) f in
        let self := set_documents self prev_paths (snap_images previous)
                      (flags previous) in
        let self := fix_selected_index self in
        (UpdateUI self, PyNone)
    end.
End Session.

(** ** Vocabulary of the session properties *)

Section SessionSpec.
Context {B : Builtins} {P : Pillow} {H : Host}.

(** Two frames hold the same documents, history and selection. *)
Definition same_session (a b : MainFrame) : Prop :=
  file_paths a = file_paths b /\ images a = images b /\
  reduced_flags a = reduced_flags b /\ history a = history b /\
  selected_index a = selected_index b.

(** The coordinate fields do not hold a box: one of them is not an
    integer, or the corners are out of order. *)
Definition box_invalid (u : UI) : Prop :=
  (exists k, int_of_str (GetValue u k) = None) \/
  (exists vxs vys vxe vye,
      int_of_str (GetValue u xs) = Some vxs /\
      int_of_str (GetValue u ys) = Some vys /\
      int_of_str (GetValue u xe) = Some vxe /\
      int_of_str (GetValue u ye) = Some vye /\
      (vxe <= vxs \/ vye <= vys)).

Definition box_valid (u : UI) (box : tuple4) : Prop :=
  let '(vxs, vys, vxe, vye) := box in
  int_of_str (GetValue u xs) = Some vxs /\
  int_of_str (GetValue u ys) = Some vys /\
  int_of_str (GetValue u xe) = Some vxe /\
  int_of_str (GetValue u ye) = Some vye /\
  vxs < vxe /\ vys < vye.

(** A batch crop, document by document: a document that is cropped, saved
    and read back contributes its output path and image; a document that
    fails contributes nothing, and the documents after it are treated
    all the same. *)
Inductive trims (box : tuple4)
  : FS -> list (string * Image) -> FS -> list (string * Image) -> Prop :=
| trims_done (f : FS) : trims box f [] f []
| trims_kept (f f' f'' : FS) (path : string) (img reopened : Image)
    (docs out : list (string * Image)) :
    trim_save_reload f box path (add_bc_suffix os_name path) img
    = (f', Some reopened) ->
    trims box f' docs f'' out ->
    trims box f ((path, img) :: docs) f''
      ((add_bc_suffix os_name path, reopened) :: out)
| trims_skipped (f f' f'' : FS) (path : string) (img : Image)
    (docs out : list (string * Image)) :
    trim_save_reload f box path (add_bc_suffix os_name path) img
    = (f', None) ->
    trims box f' docs f'' out ->
    trims box f ((path, img) :: docs) f'' out.
End SessionSpec.

(** ** A sequence of snapshot pushes *)

Section Pushes.
Context {B : Builtins} {P : Pillow} {H : Host}.

(** The session holds the documents of [s] and [PushHistory] is called. *)
Definition push_snapshot (self : MainFrame) (s : Snapshot) : MainFrame :=
  PushHistory (set_documents self (paths s) (snap_images s) (flags s)).

Definition push_all (self : MainFrame) (ss : list Snapshot) : MainFrame :=
  fold_left push_snapshot ss self.
End Pushes.

(** ** The tolerance of the specification, in integers

    For [h > 0] and a ratio [rn / rd] with [rd > 0],
    [|w / h - rn / rd| < 0.02] is [50 * |w * rd - rn * h| < h * rd]. *)
Definition ratio_within_tolerance (c : tuple4) (rn rd : Z) : Prop :=
  let '(_, _, w, h) := c in
  50 * Z.abs (w * rd - rn * h) < h * rd.

(** The ratio of the aspect lock is a double.  Its exact value
    [m * 2^e], for a positive finite double, is the fraction the
    tolerance is measured against. *)
Definition exact_fraction (r : float) : option (Z * Z) :=
  match Prim2SF r with
  | S754_finite false m e =>
      Some (Zpos m * 2 ^ Z.max 0 e, 2 ^ Z.max 0 (- e))
  | _ => None
  end.

(** ** A small host, for running the model on concrete inputs *)

Module Demo.

(** Decimal numerals, with an optional minus sign for [int].  This is the
    part of [int(s)] and [float(s)] the examples need. *)
Definition digit (c : ascii) : option Z :=
  let n := nat_of_ascii c in
  if ((48 <=? n) && (n <=? 57))%nat then Some (Z.of_nat n - 48) else None.

Fixpoint digits (s : string) (acc : Z) : option Z :=
  match s with
  | EmptyString => Some acc
  | String c s' =>
      match digit c with
      | Some d => digits s' (10 * acc + d)
      | None => None
      end
  end.

Definition numeral (s : string) : option Z :=
  match s with
  | EmptyString => None
  | _ => digits s 0
  end.

Definition parse_int (s : string) : option Z :=
  match s with
  | String "-" s' => option_map Z.opp (numeral s')
  | _ => numeral s
  end.

Definition parse_float (s : string) : option float :=
  option_map Py.Z2F (numeral s).

#[global] Instance builtins : Builtins :=
  {| float_of_str := parse_float; int_of_str := parse_int |}.

(** An image is its size. *)
#[global] Instance pillow : Pillow :=
  {| Image := (Z * Z)%type; Image_size := fun i => i |}.

Record widgets : Set := mkWidgets {
  texts : coord -> string;
  shown : list message
}.

(** The file system is the list of paths that cannot be written or read;
    trimming yields an image of the size of the box. *)
#[global] Instance host : Host :=
  {| FS := list string;
     UI := widgets;
     os_name := OsPath.nt;
     Image_open := fun f p => if str_in p f then None else Some (640, 480);
     Image_load := fun img => true;
     trim_save_reload := fun f box path out img =>
       if str_in path f then (f, None)
       else let '(x1, y1, x2, y2) := box in (f, Some (x2 - x1, y2 - y1));
     reduce_save_reload := fun f path out img =>
       if str_in path f then (f, None) else (f, Some img);
     os_remove := fun f p => f;
     Image_save := fun f img p => f;
     GetValue := fun u k => texts u k;
     notify := fun u m => mkWidgets (texts u) (shown u ++ [m]);
     refresh := fun u ims i => u |}.

Definition panel (dw dh : Z) (lock : bool) (aspect : string)
    (crop : option tuple4) (orig : option Rect) (h : option Handle.t)
  : PreviewPanel :=
  mkPreviewPanel pillow (Some (2 * dw, 2 * dh)) dw dh dw dh crop h orig
    lock aspect.

Definition box_texts (a b c d : string) : coord -> string :=
  fun k => match k with xs => a | ys => b | xe => c | ye => d end.

Definition frame (ps : list string) (bad : list string)
    (t : coord -> string) : MainFrame :=
  mkMainFrame pillow host ps (map (fun _ => (640, 480)) ps) []
    (map (fun _ => false) ps) 0 (mkWidgets t []) bad.

End Demo.

(** ** PreviewPanel: points, handles and the pointer *)

Definition HANDLE_SIZE : Z := 10.

(** [rect.Contains(point)] of wxWidgets: the left and top edges belong to
    the rectangle, the column [x + width] and the row [y + height] do not. *)
Definition Rect_Contains (r : Rect) (p : Point) : bool :=
  (pt_x p >=? rect_x r) && (pt_y p >=? rect_y r)
  && (pt_y p - rect_y r <? rect_height r)
  && (pt_x p - rect_x r <? rect_width r).

Section PreviewPoints.
Context {B : Builtins} {P : Pillow}.

Definition _point_in_display (self : PreviewPanel) (point : Point) : bool :=
  (0 <=? pt_x point) && (pt_x point <=? display_w self)
  && ((0 <=? pt_y point) && (pt_y point <=? display_h self)).

Definition _rect_contains_point (rect_tuple : tuple4) (point : Point) : bool :=
  let '(x, y, w, h) := rect_tuple in
  (x <=? pt_x point) && (pt_x point <=? x + w)
  && ((y <=? pt_y point) && (pt_y point <=? y + h)).

End PreviewPoints.

(** ** MainFrame: imports, clearing, and the handlers as commands *)

(** The collaborators of the import handlers and of [OnClearAll]. *)
Class Imports {P : Pillow} {H : Host} : Type := {
  (** [_get_clipboard_image()]: the image of the clipboard, with what is
      logged on the way *)
  _get_clipboard_image : FS -> UI -> UI * option Image;
  (** [ImageGrab.grab(all_screens=True)]; [None] when it raises, with the
      error logged *)
  ImageGrab_grab : UI -> UI * option Image;
  (** [resolve_import_dir()], [build_unique_path(save_dir, prefix, ext)]
      and [image.save(file_path)]: the path as a [str], or [None] when
      saving raises, with the error logged *)
  _save_import_image : FS -> UI -> Image -> string -> string
                       -> FS * UI * option string;
  (** what [OnClearAll] does to the preview, the thumbnails and the text
      fields *)
  clear_widgets : UI -> UI;
  (** what [OnSelectThumbnail] does to the preview and the text fields *)
  show_image : UI -> Image -> UI
}.

Section Imports.
Context {B : Builtins} {P : Pillow} {H : Host} {I : Imports}.

(** [MainFrame.__init__] *)
Definition MainFrame_init (u : UI) (f : FS) : MainFrame :=
  mkMainFrame P H [] [] [] [] (-1) u f.

(** The end of [OnPasteFromClipboard] and of [OnSnapshot]: the document
    is appended, the history restarts from the new state.  [PushHistory]
    copies every image of the session, among them the ones an earlier
    [AddFiles] opened and could not read; the exception leaves the handler
    as it leaves [AddFiles]. *)
Definition append_import (self : MainFrame) (file_path : string)
    (img : Image) : MainFrame :=
  let self := set_documents self (file_paths self ++ [file_path])
                (images self ++ [img]) (reduced_flags self ++ [false]) in
  let self := set_history self [] in
  if images_load self then
    let self := PushHistory self in
    let self := set_selected_index self
                  (Z.of_nat (List.length (images self)) - 1) in
    UpdateUI self
  else self.

Definition OnPasteFromClipboard (self : MainFrame) : MainFrame :=
  match _get_clipboard_image (fs self) (ui self) with
  | (u, None) => set_ui self u
  | (u, Some img) =>
      match _save_import_image (fs self) u img "clipboard" ".png" with
      | (f, u, None) => set_ui (set_fs self f) u
      | (f, u, Some file_path) =>
          append_import (set_ui (set_fs self f) u) file_path img
      end
  end.

Definition OnSnapshot (self : MainFrame) : MainFrame :=
  match ImageGrab_grab (ui self) with
  | (u, None) => set_ui self u
  | (u, Some screenshot) =>
      match _save_import_image (fs self) u screenshot "snapshot" ".png" with
      | (f, u, None) => set_ui (set_fs self f) u
      | (f, u, Some file_path) =>
          append_import (set_ui (set_fs self f) u) file_path screenshot
      end
  end.

Definition OnClearAll (self : MainFrame) : MainFrame :=
  let self := set_documents self [] [] [] in
  let self := set_history self [] in
  let self := set_selected_index self (-1) in
  set_ui self (clear_widgets (ui self)).

(** [l[i]]: a negative index counts from the end; [None] stands for
    [IndexError]. *)
Definition py_nth {A : Type} (l : list A) (i : Z) : option A :=
  if 0 <=? i then nth_error l (Z.to_nat i)
  else if - Z.of_nat (List.length l) <=? i
       then nth_error l (Z.to_nat (Z.of_nat (List.length l) + i))
       else None.

(** [OnSelectThumbnail(idx)]; the index is assigned before the image is
    looked up. *)
Definition OnSelectThumbnail (self : MainFrame) (idx : Z) : MainFrame :=
  let self := set_selected_index self idx in
  match py_nth (images self) idx with
  | Some img => set_ui self (show_image (ui self) img)
  | None => self
  end.

(** How [OnCopyPreviewOriginal] ends: with one of its three refusals, with
    the call of [CopyOriginalToClipboard], or with an [IndexError]. *)
Inductive copy_outcome : Set :=
| nothing_to_copy
| jpeg_refused
| reduced_refused
| copy_attempted
| copy_index_error.

Definition OnCopyPreviewOriginal (self : MainFrame) : copy_outcome :=
  if negb ((0 <=? selected_index self)
           && (selected_index self
               <? Z.of_nat (List.length (file_paths self))))
  then nothing_to_copy
  else
    match py_nth (file_paths self) (selected_index self) with
    | None => copy_index_error
    | Some p =>
        if str_in (ext_lower p) [".jpg"; ".jpeg"]%string then jpeg_refused
        else
          match reduced_flags self with
          | [] => copy_attempted
          | _ :: _ =>
              match py_nth (reduced_flags self) (selected_index self) with
              | None => copy_index_error
              | Some true => reduced_refused
              | Some false => copy_attempted
              end
          end
    end.

(** The handlers of [MainFrame] that change the session. *)
Inductive command : Type :=
| DropFiles (ps : list string)
| TrimAll
| PngReduce
| RevertAll
| PasteFromClipboard
| TakeSnapshot
| ClearAll
| SelectThumbnail (idx : Z).

Definition run (self : MainFrame) (c : command) : MainFrame :=
  match c with
  | DropFiles ps => AddFiles self ps
  | TrimAll => OnTrimAll self
  | PngReduce => OnPngReduce self
  | RevertAll => fst (OnRevertAll self)
  | PasteFromClipboard => OnPasteFromClipboard self
  | TakeSnapshot => OnSnapshot self
  | ClearAll => OnClearAll self
  | SelectThumbnail idx => OnSelectThumbnail self idx
  end.

Definition run_all (self : MainFrame) (cs : list command) : MainFrame :=
  fold_left run cs self.

(** The snapshot [PushHistory] takes of a session. *)
Definition snapshot_of (self : MainFrame) : Snapshot :=
  mkSnapshot P (file_paths self) (images self) (reduced_flags self).

(** Paths, images and flags go by index. *)
Definition aligned (s : Snapshot) : Prop :=
  List.length (paths s) = List.length (snap_images s) /\
  List.length (snap_images s) = List.length (flags s).

(** The lists of a batch go by index. *)
Definition batch_aligned (b : batch) : Prop :=
  List.length (new_paths b) = List.length (new_images b) /\
  List.length (new_images b) = List.length (new_flags b).

(** What the handlers keep true of a session. *)
Definition session_inv (self : MainFrame) : Prop :=
  aligned (snapshot_of self) /\
  Forall (fun s => aligned s /\ paths s <> []) (history self) /\
  Z.of_nat (List.length (history self)) <= MAX_HISTORY /\
  ((history self = [] /\
    (file_paths self = [] \/ images_load self = false)) \/
   exists h, history self = h ++ [snapshot_of self]).
End Imports.

(** An import source for the small host: the clipboard holds an image,
    the screen can be grabbed, and saving succeeds. *)
Module DemoImports.
#[global] Instance imports : @Imports Demo.pillow Demo.host :=
  {| _get_clipboard_image := fun f u => (u, Some (320, 200));
     ImageGrab_grab := fun u => (u, Some (1920, 1080));
     _save_import_image := fun f u img prefix ext =>
       (f, u, Some (prefix ++ "_20250101_120000" ++ ext)%string);
     clear_widgets := fun u =>
       Demo.mkWidgets (fun _ => EmptyString) (Demo.shown u);
     show_image := fun u img => u |}.
End DemoImports.

(** The small host with truncated files: the file system is the list of
    the paths that open and cannot be read to the end.  An image of such a
    file is shown as (0, 0), and its copy raises. *)
Module DemoTruncated.
Definition host : @Host Demo.pillow :=
  {| FS := list string;
     UI := Demo.widgets;
     os_name := OsPath.nt;
     Image_open := fun f p => if str_in p f then Some (0, 0)
                              else Some (640, 480);
     Image_load := fun img => negb (fst img =? 0);
     trim_save_reload := @trim_save_reload Demo.pillow Demo.host;
     reduce_save_reload := @reduce_save_reload Demo.pillow Demo.host;
     os_remove := fun f p => f;
     Image_save := fun f img p => f;
     GetValue := fun u k => Demo.texts u k;
     notify := fun u m => Demo.mkWidgets (Demo.texts u) (Demo.shown u ++ [m]);
     refresh := fun u ims i => u |}.

Definition imports : @Imports Demo.pillow host :=
  @Build_Imports Demo.pillow host
    (fun f u => (u, Some (320, 200)))
    (fun u => (u, Some (1920, 1080)))
    (fun f u img prefix ext =>
       (f, u, Some (prefix ++ "_20250101_120000" ++ ext)%string))
    (fun u => Demo.mkWidgets (fun _ => EmptyString) (Demo.shown u))
    (fun u img => u).

(** The session at start-up, with [truncated] the files that cannot be
    read to the end. *)
Definition start (truncated : list string) : @MainFrame Demo.pillow host :=
  @MainFrame_init Demo.pillow host
    (Demo.mkWidgets (Demo.box_texts "10" "20" "110" "220") []) truncated.

Definition session (truncated : list string) (cs : list command)
  : @MainFrame Demo.pillow host :=
  @run_all Demo.builtins Demo.pillow host imports (start truncated) cs.
End DemoTruncated.

(** A session of the small host for the examples of undo: two files are
    loaded, the coordinate fields hold the box (10, 20, 110, 220). *)
Module DemoUndo.
Definition loaded : MainFrame :=
  AddFiles (Demo.frame [] [] (Demo.box_texts "10" "20" "110" "220"))
    ["a.png"; "b.jpg"]%string.

(** The batch [OnTrimAll] builds on [loaded]. *)
Definition trimmed : batch :=
  trim_loop loaded (10, 20, 110, 220)
    (combine (file_paths loaded) (images loaded))
    (mkBatch (fs loaded) (ui loaded) [] [] []).
End DemoUndo.

(** ** PreviewPanel: handles, cursor and the pointer handlers *)

(** A coordinate of a handle: an [int], or the [float] of a centre. *)
Inductive number : Set :=
| Int (z : Z)
| Float (f : float).

(** [int(round(v))] *)
Definition round_number (v : number) : result Z :=
  match v with
  | Int z => Ok z
  | Float f => Py.round f
  end.

Module Mode.
Inductive t : Set := idle | creating | moving | resizing.

Definition eqb (a b : t) : bool :=
  match a, b with
  | idle, idle | creating, creating
  | moving, moving | resizing, resizing => true
  | _, _ => false
  end.
End Mode.

(** The stock cursors the panel shows. *)
Inductive Cursor : Set :=
| CURSOR_ARROW
| CURSOR_SIZENWSE
| CURSOR_SIZENESW
| CURSOR_SIZEWE
| CURSOR_SIZENS
| CURSOR_SIZING
| CURSOR_CROSS.

(** What the handlers read of a [wx.MouseEvent]. *)
Record MouseEvent : Set := mkMouseEvent {
  GetPosition : Point;
  Dragging : bool;
  LeftIsDown : bool
}.

(** [PreviewPanel] with the attributes the pointer handlers use besides
    those of the geometry, and the mouse capture of the toolkit. *)
Record PointerPanel {P : Pillow} : Type := mkPointerPanel {
  panel : PreviewPanel;
  mode : Mode.t;
  drag_start : Point;
  offset_x : Z;
  offset_y : Z;
  _current_cursor : Cursor;
  HasCapture : bool
}.

(** [str(n)] for an [int] *)
Definition py_str (n : Z) : string := NilZero.string_of_int (Z.to_int n).

Section Pointer.
Context {B : Builtins} {P : Pillow}.

Definition set_drag (self : PreviewPanel) (handle : option Handle.t)
    (original : option Rect) : PreviewPanel :=
  mkPreviewPanel P (current_image self) (display_w self) (display_h self)
    (old_display_w self) (old_display_h self) (crop_rect self)
    handle original (fixed_aspect self) (crop_aspect self).

Definition set_panel (self : PointerPanel) (p : PreviewPanel) : PointerPanel :=
  mkPointerPanel P p (mode self) (drag_start self) (offset_x self)
    (offset_y self) (_current_cursor self) (HasCapture self).

Definition set_mode (self : PointerPanel) (m : Mode.t) : PointerPanel :=
  mkPointerPanel P (panel self) m (drag_start self) (offset_x self)
    (offset_y self) (_current_cursor self) (HasCapture self).

Definition set_drag_start (self : PointerPanel) (pt : Point) : PointerPanel :=
  mkPointerPanel P (panel self) (mode self) pt (offset_x self)
    (offset_y self) (_current_cursor self) (HasCapture self).

Definition set_cursor (self : PointerPanel) (c : Cursor) : PointerPanel :=
  mkPointerPanel P (panel self) (mode self) (drag_start self) (offset_x self)
    (offset_y self) c (HasCapture self).

Definition set_capture (self : PointerPanel) (c : bool) : PointerPanel :=
  mkPointerPanel P (panel self) (mode self) (drag_start self) (offset_x self)
    (offset_y self) (_current_cursor self) c.

Definition _event_to_display_point (self : PointerPanel) (event : MouseEvent)
  : Point :=
  mkPoint (pt_x (GetPosition event) - offset_x self)
          (pt_y (GetPosition event) - offset_y self).

(** The dictionary [points] of [_iter_handle_rects_display], in the order
    of its keys; the generator yields nothing without a rectangle. *)
Definition handle_points (self : PreviewPanel)
  : result (list (Handle.t * (number * number))) :=
  match crop_rect self with
  | None => Ok []
  | Some (x, y, w, h) =>
      let left := x in
      let top := y in
      let right := x + w in
      let bottom := y + h in
      half_w <- Py.int_truediv w 2 ;;
      center_x <- Py.int_add_float x half_w ;;
      half_h <- Py.int_truediv h 2 ;;
      center_y <- Py.int_add_float y half_h ;;
      Ok [(Handle.top_left, (Int left, Int top));
          (Handle.top, (Float center_x, Int top));
          (Handle.top_right, (Int right, Int top));
          (Handle.right, (Int right, Float center_y));
          (Handle.bottom_right, (Int right, Int bottom));
          (Handle.bottom, (Float center_x, Int bottom));
          (Handle.bottom_left, (Int left, Int bottom));
          (Handle.left, (Int left, Float center_y))]
  end.

(** The rectangle the generator yields for one handle. *)
Definition handle_rect (pt : number * number) : result Rect :=
  px <- round_number (fst pt) ;;
  py <- round_number (snd pt) ;;
  Ok (mkRect (px - HANDLE_SIZE / 2) (py - HANDLE_SIZE / 2)
             HANDLE_SIZE HANDLE_SIZE).

(** The loop of [_hit_test_handle] over the generator: a rectangle is
    built when its turn comes. *)
Fixpoint first_hit (items : list (Handle.t * (number * number)))
    (point : Point) : result (option Handle.t) :=
  match items with
  | [] => Ok None
  | (name, pt) :: rest =>
      rect <- handle_rect pt ;;
      if Rect_Contains rect point then Ok (Some name)
      else first_hit rest point
  end.

Definition _hit_test_handle (self : PreviewPanel) (point : Point)
  : result (option Handle.t) :=
  items <- handle_points self ;;
  first_hit items point.

Definition _rect_from_crop (self : PreviewPanel) : option Rect :=
  match crop_rect self with
  | None => None
  | Some (x, y, w, h) => Some (mkRect x y w h)
  end.

(** [cursor] in [_update_cursor] *)
Definition cursor_at (self : PreviewPanel) (point : Point) : result Cursor :=
  handle <- _hit_test_handle self point ;;
  Ok match handle with
     | Some Handle.top_left | Some Handle.bottom_right => CURSOR_SIZENWSE
     | Some Handle.top_right | Some Handle.bottom_left => CURSOR_SIZENESW
     | Some Handle.left | Some Handle.right => CURSOR_SIZEWE
     | Some Handle.top | Some Handle.bottom => CURSOR_SIZENS
     | _ =>
         if _point_in_display self point
         then match crop_rect self with
              | Some c => if _rect_contains_point c point
                          then CURSOR_SIZING else CURSOR_CROSS
              | None => CURSOR_CROSS
              end
         else CURSOR_ARROW
     end.

Definition _update_cursor (self : PointerPanel) (point : Point)
  : result PointerPanel :=
  cursor <- cursor_at (panel self) point ;;
  Ok (set_cursor self cursor).

(** [UpdateControls]: the texts it writes into the four fields, [None]
    when it writes nothing.  [PreviewPanel] has no attribute
    [_is_editing], so that [getattr] answers [False]. *)
Definition UpdateControls (self : PreviewPanel)
  : result (option (coord -> string)) :=
  box <- GetCropBox self ;;
  Ok match box with
     | None => None
     | Some (vxs, vys, vxe, vye) =>
         Some (fun k => match k with
                        | xs => py_str vxs
                        | ys => py_str vys
                        | xe => py_str vxe
                        | ye => py_str vye
                        end)
     end.

(** A handler that is left by an exception: the assignments made so far
    stay. *)
Definition attempt (self : PointerPanel) (r : result PointerPanel)
  : PointerPanel :=
  match r with
  | Ok self' => self'
  | Raise _ => self
  end.

Definition OnLeftDown (self : PointerPanel) (evt : MouseEvent)
  : PointerPanel :=
  match current_image (panel self) with
  | None => self
  | Some _ =>
      let display_point := _event_to_display_point self evt in
      match _hit_test_handle (panel self) display_point with
      | Raise _ => self
      | Ok handle =>
          let p := panel self in
          let capture s := set_capture s true in
          match handle, crop_rect p with
          | Some h, Some _ =>
              let self := set_mode self Mode.resizing in
              let self := set_panel self
                            (set_drag p (Some h) (_rect_from_crop p)) in
              capture (set_drag_start self
                         (_clamp_display_point p display_point))
          | _, _ =>
              if match crop_rect p with
                 | Some c => _rect_contains_point c display_point
                 | None => false
                 end
              then
                let self := set_mode self Mode.moving in
                let self := set_panel self
                              (set_drag p (Some Handle.inside)
                                 (_rect_from_crop p)) in
                capture (set_drag_start self
                           (_clamp_display_point p display_point))
              else if _point_in_display p display_point
              then
                let self := set_mode self Mode.creating in
                let anchor := _clamp_display_point p display_point in
                let self := set_drag_start self anchor in
                let self := set_panel self
                              (set_crop_rect (set_drag p None None)
                                 (Some (pt_x anchor, pt_y anchor, 0, 0))) in
                capture self
              else
                let self := set_mode self Mode.idle in
                set_panel self (set_drag p None None)
          end
      end
  end.

Definition OnMouseMove (self : PointerPanel) (evt : MouseEvent)
  : PointerPanel :=
  match current_image (panel self) with
  | None => self
  | Some _ =>
      let display_point := _event_to_display_point self evt in
      if Dragging evt && LeftIsDown evt
         && negb (Mode.eqb (mode self) Mode.idle)
      then
        let p := panel self in
        let point := _clamp_display_point p display_point in
        let updated :=
          match mode self with
          | Mode.creating =>
              _update_selection_creation p (drag_start self) point
          | Mode.moving =>
              if opt_Rect_bool (original_rect p)
              then _update_selection_move p
                     (pt_x point - pt_x (drag_start self))
                     (pt_y point - pt_y (drag_start self))
              else Ok p
          | Mode.resizing =>
              if opt_Rect_bool (original_rect p)
              then _update_selection_resize p point
              else Ok p
          | Mode.idle => Ok p
          end in
        attempt self (p' <- updated ;; Ok (set_panel self p'))
      else attempt self (_update_cursor self display_point)
  end.

Definition OnLeftUp (self : PointerPanel) (evt : MouseEvent) : PointerPanel :=
  let previous_mode := mode self in
  let self := set_capture self false in
  let self := set_mode self Mode.idle in
  let self := set_panel self (set_drag (panel self) None None) in
  let self := set_drag_start self (mkPoint 0 0) in
  let self :=
    match crop_rect (panel self) with
    | Some _ =>
        if Mode.eqb previous_mode Mode.creating
        then set_panel self
               (set_crop_rect (panel self)
                  (Some (tuple_of_rect
                           (_ensure_min_size (panel self)
                              (_rect_from_crop (panel self))))))
        else self
    | None => self
    end in
  attempt self
    (_ <- UpdateControls (panel self) ;;
     _update_cursor self (_event_to_display_point self evt)).

Definition OnMouseLeave (self : PointerPanel) : PointerPanel :=
  if Mode.eqb (mode self) Mode.idle then set_cursor self CURSOR_ARROW
  else self.

(** What the user does with the pointer: move it with no button down,
    leave the panel, or press, drag and release. *)
Inductive interaction : Set :=
| Hover (evt : MouseEvent)
| LeaveWindow
| Drag (down : MouseEvent) (moves : list MouseEvent) (up : MouseEvent).

Definition interact (self : PointerPanel) (i : interaction) : PointerPanel :=
  match i with
  | Hover evt => OnMouseMove self evt
  | LeaveWindow => OnMouseLeave self
  | Drag down moves up =>
      OnLeftUp (fold_left OnMouseMove moves (OnLeftDown self down)) up
  end.

(** The panel between two gestures. *)
Definition at_rest (self : PointerPanel) : Prop :=
  mode self = Mode.idle /\
  drag_handle (panel self) = None /\
  original_rect (panel self) = None.

(** While a gesture lasts: the rectangle satisfies the invariant, or it is
    being created. *)
Definition in_gesture (dw dh : Z) (self : PointerPanel) : Prop :=
  display_w (panel self) = dw /\ display_h (panel self) = dh /\
  (mode self = Mode.creating \/ crop_ok (panel self)).

(** The mode a press starts where the cursor is shown. *)
Definition mode_of_cursor (c : Cursor) : Mode.t :=
  match c with
  | CURSOR_ARROW => Mode.idle
  | CURSOR_CROSS => Mode.creating
  | CURSOR_SIZING => Mode.moving
  | _ => Mode.resizing
  end.
End Pointer.

(** A panel at rest and a session with the pointer, for running the
    handlers on concrete events. *)
Module DemoPointer.
Definition start : PointerPanel :=
  mkPointerPanel Demo.pillow
    (Demo.panel 800 600 true "16:9" None None None)
    Mode.idle (mkPoint 0 0) 10 20 CURSOR_ARROW false.

Definition acts : list interaction :=
  [Hover (mkMouseEvent (mkPoint 50 60) false false);
   Drag (mkMouseEvent (mkPoint 110 120) false true)
     [mkMouseEvent (mkPoint 300 200) true true;
      mkMouseEvent (mkPoint 900 700) true true]
     (mkMouseEvent (mkPoint 900 700) false false);
   Drag (mkMouseEvent (mkPoint 400 300) false true) []
     (mkMouseEvent (mkPoint 400 300) false false);
   LeaveWindow].

(** A panel that shows a selection, and a panel laid out with no room. *)
Definition shown : PointerPanel :=
  mkPointerPanel Demo.pillow
    (Demo.panel 800 600 false "" (Some (100, 100, 200, 150)) None None)
    Mode.idle (mkPoint 0 0) 10 20 CURSOR_ARROW false.

Definition hidden : PointerPanel :=
  mkPointerPanel Demo.pillow
    (mkPreviewPanel Demo.pillow (Some (1600, 1200)) 0 0 0 0
       (Some (0, 0, 0, 0)) None None true "1:1")
    Mode.idle (mkPoint 0 0) 0 0 CURSOR_ARROW false.
End DemoPointer.

(** [int(s)] by the decimal reader of the Standard Library, a second
    reading of the builtin for the examples that print and read back. *)
Definition decimal_builtins : Builtins :=
  {| float_of_str := Demo.parse_float;
     int_of_str := fun s => option_map Z.of_int (NilZero.int_of_string s) |}.

(** ** PreviewPanel: image, display geometry and aspect lock *)

(** [int(f)] for a [float]: truncation toward zero. *)
Definition py_int (f : float) : result Z :=
  match Prim2SF f with
  | S754_zero _ => Ok 0
  | S754_finite s m e =>
      let v := Py.signed s m in
      Ok (if 0 <=? e then v * 2 ^ e else Z.quot v (2 ^ (- e)))
  | S754_infinity _ => Raise OverflowError
  | S754_nan => Raise ValueError
  end.

(** [min(a, b)] on two floats: the second when it is less than the
    first. *)
Definition py_min (a b : float) : float :=
  if (b <? a)%float then b else a.

(** A method that assigns to the panel as it goes: the panel it leaves,
    and the exception that ended it, if any. *)
Definition action {P : Pillow} : Type :=
  PointerPanel -> PointerPanel * option exn.

Section View.
Context {B : Builtins} {P : Pillow}.

Definition andthen (a b : action) : action :=
  fun s => match a s with
           | (s', None) => b s'
           | (s', Some e) => (s', Some e)
           end.

Definition assign (f : PointerPanel -> PointerPanel) : action :=
  fun s => (f s, None).

(** A method of the geometry, which assigns last. *)
Definition on_panel (m : PreviewPanel -> result PreviewPanel) : action :=
  fun s => match m (panel s) with
           | Ok p => (set_panel s p, None)
           | Raise e => (s, Some e)
           end.

(** A call that assigns nothing to the panel. *)
Definition check {A : Type} (m : PreviewPanel -> result A) : action :=
  fun s => match m (panel s) with
           | Ok _ => (s, None)
           | Raise e => (s, Some e)
           end.

Definition set_current_image (self : PreviewPanel) (img : option Image)
  : PreviewPanel :=
  mkPreviewPanel P img (display_w self) (display_h self)
    (old_display_w self) (old_display_h self) (crop_rect self)
    (drag_handle self) (original_rect self)
    (fixed_aspect self) (crop_aspect self).

Definition set_display_w (self : PreviewPanel) (v : Z) : PreviewPanel :=
  mkPreviewPanel P (current_image self) v (display_h self)
    (old_display_w self) (old_display_h self) (crop_rect self)
    (drag_handle self) (original_rect self)
    (fixed_aspect self) (crop_aspect self).

Definition set_display_h (self : PreviewPanel) (v : Z) : PreviewPanel :=
  mkPreviewPanel P (current_image self) (display_w self) v
    (old_display_w self) (old_display_h self) (crop_rect self)
    (drag_handle self) (original_rect self)
    (fixed_aspect self) (crop_aspect self).

Definition set_old_display (self : PreviewPanel) (w h : Z) : PreviewPanel :=
  mkPreviewPanel P (current_image self) (display_w self) (display_h self)
    w h (crop_rect self) (drag_handle self) (original_rect self)
    (fixed_aspect self) (crop_aspect self).

Definition set_fixed_aspect (self : PreviewPanel) (lock : bool)
  : PreviewPanel :=
  mkPreviewPanel P (current_image self) (display_w self) (display_h self)
    (old_display_w self) (old_display_h self) (crop_rect self)
    (drag_handle self) (original_rect self) lock (crop_aspect self).

Definition set_crop_aspect (self : PreviewPanel) (text : string)
  : PreviewPanel :=
  mkPreviewPanel P (current_image self) (display_w self) (display_h self)
    (old_display_w self) (old_display_h self) (crop_rect self)
    (drag_handle self) (original_rect self) (fixed_aspect self) text.

Definition set_offsets (self : PointerPanel) (x y : Z) : PointerPanel :=
  mkPointerPanel P (panel self) (mode self) (drag_start self) x y
    (_current_cursor self) (HasCapture self).

(** The four assignments that end a gesture. *)
Definition reset_drag (self : PointerPanel) : PointerPanel :=
  let self := set_mode self Mode.idle in
  let self := set_panel self (set_drag (panel self) None None) in
  set_drag_start self (mkPoint 0 0).

Definition ClipRect (self : PreviewPanel) (x y w h : Z) : tuple4 :=
  tuple_of_rect (_ensure_min_size self (Some (mkRect x y w h))).

Definition ApplyAspectRatioToSelection (self : PreviewPanel)
  : result PreviewPanel :=
  match crop_rect self with
  | None => Ok self
  | Some (x, y, w, h) =>
      if negb (fixed_aspect self) then Ok self
      else
        match _get_aspect_ratio self with
        | None => Ok self
        | Some ratio =>
            if negb (Py.float_bool ratio) then Ok self
            else
              half_w <- Py.int_truediv w 2 ;;
              center_x <- Py.int_add_float x half_w ;;
              half_h <- Py.int_truediv h 2 ;;
              center_y <- Py.int_add_float y half_h ;;
              desired_height <- Py.round_div w ratio ;;
              desired_width <- Py.round_mul h ratio ;;
              let height := if desired_height <=? display_h self
                            then desired_height else h in
              let height := if height <=? 0 then MIN_CROP_SIZE else height in
              width <- Py.round_mul height ratio ;;
              wh <- (if width >? display_w self
                     then (h1 <- Py.round_div (display_w self) ratio ;;
                           Ok (display_w self, h1))
                     else Ok (width, height)) ;;
              wh <- (if snd wh >? display_h self
                     then (w1 <- Py.round_mul (display_h self) ratio ;;
                           Ok (w1, display_h self))
                     else Ok wh) ;;
              let width := Z.max MIN_CROP_SIZE (fst wh) in
              let height := Z.max MIN_CROP_SIZE (snd wh) in
              hw <- Py.int_truediv width 2 ;;
              left <- Py.round (center_x - hw)%float ;;
              hh <- Py.int_truediv height 2 ;;
              top <- Py.round (center_y - hh)%float ;;
              let rect := _ensure_min_size self
                            (Some (mkRect left top width height)) in
              Ok (set_crop_rect self (Some (tuple_of_rect rect)))
        end
  end.

(** [rect_w] and [rect_h] after the [try] statement of [InitCropRect]. *)
Definition init_size (self : PreviewPanel) : Z * Z :=
  let disp_w := display_w self in
  let disp_h := display_h self in
  let fallback := (disp_w / 4, disp_w / 4) in
  if fixed_aspect self then
    match split ":" (crop_aspect self) with
    | [a; b] =>
        match float_of_str a, float_of_str b with
        | Some wr, Some hr =>
            if (wr <? hr)%float then
              let rect_h := disp_h / 4 in
              match (if is_zero hr then Raise ZeroDivisionError
                     else (v <- Py.int_mul_float rect_h (wr / hr)%float ;;
                           py_int v)) with
              | Ok rect_w => (rect_w, rect_h)
              | Raise _ => fallback
              end
            else
              let rect_w := disp_w / 4 in
              if negb (is_zero wr) then
                match (v <- Py.int_mul_float rect_w (hr / wr)%float ;;
                       py_int v) with
                | Ok rect_h => (rect_w, rect_h)
                | Raise _ => fallback
                end
              else (rect_w, disp_h / 4)
        | _, _ => fallback
        end
    | _ => fallback
    end
  else fallback.

(** The rectangle [InitCropRect] assigns first. *)
Definition init_rect (self : PreviewPanel) : result PreviewPanel :=
  let '(rect_w, rect_h) := init_size self in
  center_x <- Py.int_truediv (display_w self) 2 ;;
  center_y <- Py.int_truediv (display_h self) 2 ;;
  hw <- Py.int_truediv rect_w 2 ;;
  hh <- Py.int_truediv rect_h 2 ;;
  new_x <- Py.round (center_x - hw)%float ;;
  new_y <- Py.round (center_y - hh)%float ;;
  let rect := _ensure_min_size self (Some (mkRect new_x new_y rect_w rect_h)) in
  Ok (set_crop_rect self (Some (tuple_of_rect rect))).

Definition InitCropRect : action :=
  andthen (on_panel init_rect)
    (andthen (on_panel ApplyAspectRatioToSelection)
       (andthen (assign reset_drag) (check UpdateControls))).

(** [UpdateDisplayGeometry], for the client size the toolkit reports. *)
Definition UpdateDisplayGeometry (client : Z * Z) : action :=
  fun s =>
    match current_image (panel s) with
    | None => (s, None)
    | Some img =>
        let '(pw, ph) := client in
        let '(iw, ih) := Image_size img in
        match (a <- Py.int_truediv pw iw ;;
               b <- Py.int_truediv ph ih ;; Ok (py_min a b)) with
        | Raise e => (s, Some e)
        | Ok scale =>
            match (v <- Py.int_mul_float iw scale ;; py_int v) with
            | Raise e => (s, Some e)
            | Ok dw =>
                let s := set_panel s (set_display_w (panel s) dw) in
                match (v <- Py.int_mul_float ih scale ;; py_int v) with
                | Raise e => (s, Some e)
                | Ok dh =>
                    let s := set_panel s (set_display_h (panel s) dh) in
                    (set_offsets s ((pw - dw) / 2) ((ph - dh) / 2), None)
                end
            end
        end
    end.

Definition SetImage (img : Image) (client : Z * Z) : action :=
  fun s =>
    let prev_rect := crop_rect (panel s) in
    andthen
      (assign (fun s => set_panel s (set_current_image (panel s) (Some img))))
      (andthen (UpdateDisplayGeometry client)
         (andthen
            (match prev_rect with
             | Some (x, y, w, h) =>
                 assign (fun s =>
                   set_panel s
                     (set_crop_rect (panel s)
                        (Some (ClipRect (panel s) x y w h))))
             | None => InitCropRect
             end)
            (assign reset_drag))) s.

Definition OnSize (client : Z * Z) : action :=
  andthen
    (assign (fun s =>
       set_panel s (set_old_display (panel s)
                      (display_w (panel s)) (display_h (panel s)))))
    (andthen (UpdateDisplayGeometry client)
       (fun s => match crop_rect (panel s) with
                 | Some _ => on_panel RescaleCropRect s
                 | None => (s, None)
                 end)).

(** An action leaves the display as it is and, on a display of at least
    MIN_CROP_SIZE pixels each way, a selection that satisfies the
    invariant if it did before. *)
Definition keeps_selection (a : action) (s : PointerPanel) : Prop :=
  MIN_CROP_SIZE <= display_w (panel s) ->
  MIN_CROP_SIZE <= display_h (panel s) ->
  crop_ok (panel s) ->
  display_w (panel (fst (a s))) = display_w (panel s) /\
  display_h (panel (fst (a s))) = display_h (panel s) /\
  crop_ok (panel (fst (a s))).

(** [ControlPanel.OnAspectToggle], for the values of the check box and of
    the ratio field. *)
Definition OnAspectToggle (lock : bool) (tc_aspect : string) : action :=
  andthen
    (assign (fun s => set_panel s (set_fixed_aspect (panel s) lock)))
    (andthen
       (if lock
        then andthen
               (assign (fun s =>
                  set_panel s (set_crop_aspect (panel s) tc_aspect)))
               (fun s => match crop_rect (panel s) with
                         | Some _ => on_panel ApplyAspectRatioToSelection s
                         | None => InitCropRect s
                         end)
        else assign (fun s => s))
       (check UpdateControls)).

(** The three entry points of the aspect lock. *)
Inductive aspect_call : Set :=
| ApplyAspect
| InitCrop
| AspectToggle (lock : bool) (tc_aspect : string).

Definition call_aspect (c : aspect_call) : action :=
  match c with
  | ApplyAspect => on_panel ApplyAspectRatioToSelection
  | InitCrop => InitCropRect
  | AspectToggle lock tc_aspect => OnAspectToggle lock tc_aspect
  end.
End View.

(** ** ControlPanel: a coordinate typed into a field *)

(** Arithmetic on a value that is an [int] or a [float]. *)
Definition to_float (v : number) : result float :=
  match v with
  | Int z => Py.float_of_int z
  | Float f => Ok f
  end.

Definition num_sub (a b : number) : result number :=
  match a, b with
  | Int x, Int y => Ok (Int (x - y))
  | _, _ => fa <- to_float a ;; fb <- to_float b ;; Ok (Float (fa - fb)%float)
  end.

Definition num_truediv (a b : number) : result float :=
  match a, b with
  | Int x, Int y => Py.int_truediv x y
  | _, _ =>
      fa <- to_float a ;; fb <- to_float b ;;
      if is_zero fb then Raise ZeroDivisionError else Ok (fa / fb)%float
  end.

Definition num_mul_float (a : number) (f : float) : result float :=
  fa <- to_float a ;; Ok (fa * f)%float.

(** [a / b] on two floats *)
Definition float_truediv (a b : float) : result float :=
  if is_zero b then Raise ZeroDivisionError else Ok (a / b)%float.

(** How a handler ends. *)
Inductive ending : Set := returned | raised.

(** What [OnCoordEnter] leaves: the widgets after the message of
    [GetValidatedBox], the check box, the preview panel, what
    [UpdateControls] wrote into the fields, and how the handler ended. *)
Record CoordEntered {P : Pillow} {H : Host} : Type := mkCoordEntered {
  entered_ui : UI;
  entered_cb_aspect : bool;
  entered_preview : PreviewPanel;
  entered_written : option (coord -> string);
  entered_ending : ending
}.

Section CoordEnter.
Context {B : Builtins} {P : Pillow} {H : Host}.

(** The part of [OnCoordEnter] under [if self.cb_aspect.GetValue()]: the
    far corner after the adjustment, and the check box. *)
Definition lock_adjust (tc_aspect : string) (key : coord)
    (old_box box : tuple4) : result (number * number * bool) :=
  let '(old_xs, old_ys, old_xe, old_ye) := old_box in
  let '(vxs, vys, vxe, vye) := box in
  match split ":" tc_aspect with
  | [a; b] =>
      match float_of_str a, float_of_str b with
      | Some wr, Some hr =>
          corner <-
            match key with
            | xs => Ok (Int (old_xe + (vxs - old_xs)), Int vye)
            | ys => Ok (Int vxe, Int (old_ye + (vys - old_ys)))
            | xe =>
                q <- float_truediv hr wr ;;
                new_h <- Py.int_mul_float (vxe - vxs) q ;;
                y <- Py.int_add_float vys new_h ;;
                Ok (Int vxe, Float y)
            | ye =>
                q <- float_truediv wr hr ;;
                new_w <- Py.int_mul_float (vye - vys) q ;;
                x <- Py.int_add_float vxs new_w ;;
                Ok (Float x, Int vye)
            end ;;
          dx <- num_sub (fst corner) (Int vxs) ;;
          dy <- num_sub (snd corner) (Int vys) ;;
          q <- num_truediv dx dy ;;
          r <- float_truediv wr hr ;;
          Ok (fst corner, snd corner,
              negb (0x1.47ae147ae147bp-7 <? abs (q - r))%float)
      | _, _ => Raise ValueError
      end
  | _ => Raise ValueError
  end.

(** The rectangle of the display for the corners typed in. *)
Definition entered_rect (disp : PreviewPanel) (img : Image)
    (vxs vys : Z) (nxe nye : number) : result Rect :=
  let '(iw, ih) := Image_size img in
  scale_x <- Py.int_truediv (display_w disp) iw ;;
  scale_y <- Py.int_truediv (display_h disp) ih ;;
  fxs <- Py.int_mul_float vxs scale_x ;;
  dxs <- Py.round fxs ;;
  fys <- Py.int_mul_float vys scale_y ;;
  dys <- Py.round fys ;;
  fxe <- num_mul_float nxe scale_x ;;
  dxe <- Py.round fxe ;;
  fye <- num_mul_float nye scale_y ;;
  dye <- Py.round fye ;;
  Ok (mkRect dxs dys (dxe - dxs) (dye - dys)).

(** [OnCoordEnter], for the field [key] the event comes from and the
    values of the check box and of the ratio field. *)
Definition OnCoordEnter (u : UI) (cb_aspect : bool) (tc_aspect : string)
    (key : coord) (disp : PreviewPanel) : CoordEntered :=
  match GetValidatedBox u with
  | (u, None) => mkCoordEntered P H u cb_aspect disp None returned
  | (u, Some box) =>
      match GetCropBox disp with
      | Raise _ => mkCoordEntered P H u cb_aspect disp None raised
      | Ok old_box =>
          let old_box := match old_box with
                         | Some b => b
                         | None => box
                         end in
          let '(vxs, vys, vxe, vye) := box in
          match (if cb_aspect then lock_adjust tc_aspect key old_box box
                 else Ok (Int vxe, Int vye, cb_aspect)) with
          | Raise _ => mkCoordEntered P H u cb_aspect disp None raised
          | Ok (nxe, nye, cb) =>
              match current_image disp with
              | None => mkCoordEntered P H u cb disp None raised
              | Some img =>
                  match entered_rect disp img vxs vys nxe nye with
                  | Raise _ => mkCoordEntered P H u cb disp None raised
                  | Ok rect =>
                      let rect := _ensure_min_size disp (Some rect) in
                      let disp := set_crop_rect disp
                                    (Some (tuple_of_rect rect)) in
                      match UpdateControls disp with
                      | Raise _ => mkCoordEntered P H u cb disp None raised
                      | Ok written =>
                          mkCoordEntered P H u cb disp written returned
                      end
                  end
              end
          end
      end
  end.
End CoordEnter.

(** ** build_unique_path *)

(** [s.lstrip('.')] *)
Fixpoint lstrip_dot (s : string) : string :=
  match s with
  | String "." s' => lstrip_dot s'
  | _ => s
  end.

Section UniquePath.
(** [file_path.exists()] for the file of a given name in [base_dir]; the
    directory does not change while the function runs. *)
Variable path_exists : string -> bool.

(** The name [f"{prefix}_{timestamp}_{counter}{ext}"], for the stem
    [f"{prefix}_{timestamp}"]. *)
Definition numbered (stem ext : string) (counter : Z) : string :=
  (stem ++ "_" ++ py_str counter ++ ext)%string.

(** The [while] loop, for at most [fuel] tests of [exists()]. *)
Fixpoint unique_from (stem ext : string) (file_name : string) (counter : Z)
    (fuel : nat) : option string :=
  match fuel with
  | O => None
  | S fuel' =>
      if path_exists file_name
      then unique_from stem ext (numbered stem ext counter) (counter + 1) fuel'
      else Some file_name
  end.

(** [build_unique_path(base_dir, prefix, ext)] at the time [timestamp]:
    the name of the file in [base_dir]. *)
Definition build_unique_path (prefix timestamp ext : string) (fuel : nat)
  : option string :=
  let ext := ("." ++ lstrip_dot ext)%string in
  let stem := (prefix ++ "_" ++ timestamp)%string in
  unique_from stem ext (stem ++ ext)%string 1 fuel.

(** The names the loop tries, in order. *)
Definition candidate (stem ext : string) (n : nat) : string :=
  match n with
  | O => (stem ++ ext)%string
  | S _ => numbered stem ext (Z.of_nat n)
  end.
End UniquePath.

(** * Properties *)

(** ** The normaliser of the selection rectangle *)

Ltac cmp_cases :=
  repeat match goal with
    | |- context [?a >? ?b] => rewrite (Z.gtb_ltb a b)
    | |- context [?a >=? ?b] => rewrite (Z.geb_leb a b)
    | |- context [?a <? ?b] => destruct (Z.ltb_spec a b)
    | |- context [?a <=? ?b] => destruct (Z.leb_spec a b)
    | |- context [?a =? ?b] => destruct (Z.eqb_spec a b)
    end.

(** Reduction of the assignments of a method one at a time, so that the
    term never holds more than one copy of the rectangle. *)
Ltac simpl_rect :=
  cbv beta iota delta [set_x set_y set_width set_height
                       rect_x rect_y rect_width rect_height Right Bottom].

Ltac zeta_head :=
  match goal with
  | |- context C [let r := ?v in @?body r] =>
      let t := eval cbv beta in (body v) in
      let g := context C [t] in change g
  end.

Lemma if_x (c : bool) (x y w h a : Z) :
  (if c then mkRect a y w h else mkRect x y w h)
  = mkRect (if c then a else x) y w h.
Proof. destruct c; reflexivity. Qed.

Lemma if_y (c : bool) (x y w h a : Z) :
  (if c then mkRect x a w h else mkRect x y w h)
  = mkRect x (if c then a else y) w h.
Proof. destruct c; reflexivity. Qed.

Lemma if_w (c : bool) (x y w h a : Z) :
  (if c then mkRect x y a h else mkRect x y w h)
  = mkRect x y (if c then a else w) h.
Proof. destruct c; reflexivity. Qed.

Lemma if_h (c : bool) (x y w h a : Z) :
  (if c then mkRect x y w a else mkRect x y w h)
  = mkRect x y w (if c then a else h).
Proof. destruct c; reflexivity. Qed.

Ltac push_if :=
  first [rewrite if_x | rewrite if_y | rewrite if_w | rewrite if_h].

Lemma fit_extent_bounds (len d : Z) :
  MIN_CROP_SIZE <= d -> MIN_CROP_SIZE <= fit_extent len d <= d.
Proof.
  unfold fit_extent, MIN_CROP_SIZE. intros Hd. cmp_cases; lia.
Qed.

Lemma fit_origin_bounds (v len d : Z) :
  MIN_CROP_SIZE <= d ->
  0 <= fit_origin v len d /\ fit_origin v len d + fit_extent len d <= d.
Proof.
  intros Hd. pose proof (fit_extent_bounds len d Hd) as He.
  unfold fit_origin. cbv zeta. fold (fit_extent len d).
  unfold MIN_CROP_SIZE in *. lia.
Qed.

Lemma fit_extent_fixed (len d : Z) :
  MIN_CROP_SIZE <= len <= d -> fit_extent len d = len.
Proof.
  unfold fit_extent, MIN_CROP_SIZE. intros Hl. cmp_cases; lia.
Qed.

Lemma fit_origin_fixed (v len d : Z) :
  MIN_CROP_SIZE <= len -> 0 <= v -> v + len <= d -> fit_origin v len d = v.
Proof.
  unfold fit_origin, MIN_CROP_SIZE. intros Hl Hv Hd. cbv zeta.
  rewrite !Z.gtb_ltb.
  destruct (Z.ltb_spec d len); [lia|].
  destruct (Z.ltb_spec v 0); [lia|].
  destruct (Z.ltb_spec d (v + len - 1)); lia.
Qed.

Section PreviewFacts.
Context {B : Builtins} {P : Pillow}.

(** [_ensure_within_display] treats the two axes alike and apart. *)
Lemma ensure_within_display_axes (self : PreviewPanel) (x y w h : Z) :
  0 < display_w self -> 0 < display_h self ->
  _ensure_within_display self (Some (mkRect x y w h))
  = mkRect (fit_origin x w (display_w self)) (fit_origin y h (display_h self))
           (fit_extent w (display_w self)) (fit_extent h (display_h self)).
Proof.
  intros Hw Hh.
  assert (Eg : (display_w self <=? 0) || (display_h self <=? 0) = false).
  { apply orb_false_iff; split; apply Z.leb_gt; assumption. }
  cbv beta delta [_ensure_within_display]. cbv iota. rewrite Eg.
  repeat (simpl_rect; try push_if; zeta_head).
  reflexivity.
Qed.

Lemma ensure_within_display_ok (self : PreviewPanel) (rect : Rect) :
  MIN_CROP_SIZE <= display_w self ->
  MIN_CROP_SIZE <= display_h self ->
  rect_ok self (tuple_of_rect (_ensure_within_display self (Some rect))).
Proof.
  intros Hw Hh. destruct rect as [x y w h].
  rewrite ensure_within_display_axes by (unfold MIN_CROP_SIZE in *; lia).
  unfold rect_ok, tuple_of_rect. cbn [rect_x rect_y rect_width rect_height].
  pose proof (fit_extent_bounds w _ Hw).
  pose proof (fit_extent_bounds h _ Hh).
  pose proof (fit_origin_bounds x w _ Hw).
  pose proof (fit_origin_bounds y h _ Hh).
  lia.
Qed.

Lemma ensure_min_size_ok (self : PreviewPanel) (rect : option Rect) :
  MIN_CROP_SIZE <= display_w self ->
  MIN_CROP_SIZE <= display_h self ->
  rect_ok self (tuple_of_rect (_ensure_min_size self rect)).
Proof.
  intros Hw Hh. unfold _ensure_min_size.
  apply ensure_within_display_ok; assumption.
Qed.

(** A rectangle that satisfies the invariant is a fixed point. *)
Lemma ensure_within_display_fixed (self : PreviewPanel) (rect : Rect) :
  rect_ok self (tuple_of_rect rect) ->
  _ensure_within_display self (Some rect) = rect.
Proof.
  destruct rect as [x y w h].
  unfold rect_ok, tuple_of_rect. cbn [rect_x rect_y rect_width rect_height].
  intros (Hw & Hh & Hx & Hy & Hr & Hb).
  rewrite ensure_within_display_axes by (unfold MIN_CROP_SIZE in *; lia).
  rewrite !fit_origin_fixed, !fit_extent_fixed by lia.
  reflexivity.
Qed.

Lemma ensure_min_size_fixed (self : PreviewPanel) (rect : Rect) :
  rect_ok self (tuple_of_rect rect) ->
  _ensure_min_size self (Some rect) = rect.
Proof.
  intros Hok. unfold _ensure_min_size.
  rewrite (ensure_within_display_fixed self rect Hok).
  assert (Hd := Hok).
  unfold rect_ok, tuple_of_rect in Hd.
  destruct Hd as (Hw & Hh & _).
  destruct (Z.ltb_spec (rect_width rect) MIN_CROP_SIZE); [lia|].
  destruct (Z.ltb_spec (rect_height rect) MIN_CROP_SIZE); [lia|].
  apply ensure_within_display_fixed; assumption.
Qed.

(** A rectangle whose sides fit keeps them, wherever it is put. *)
Lemma ensure_min_size_keeps_size (self : PreviewPanel) (x y w h : Z) :
  MIN_CROP_SIZE <= w <= display_w self ->
  MIN_CROP_SIZE <= h <= display_h self ->
  exists x' y', _ensure_min_size self (Some (mkRect x y w h))
                = mkRect x' y' w h.
Proof.
  intros Hw Hh. unfold _ensure_min_size.
  rewrite ensure_within_display_axes by (unfold MIN_CROP_SIZE in *; lia).
  rewrite !fit_extent_fixed by lia.
  cbv beta iota zeta delta [rect_width rect_height].
  destruct (Z.ltb_spec w MIN_CROP_SIZE); [lia|].
  destruct (Z.ltb_spec h MIN_CROP_SIZE); [lia|].
  rewrite ensure_within_display_axes by (unfold MIN_CROP_SIZE in *; lia).
  rewrite !fit_extent_fixed by lia.
  eexists _, _. reflexivity.
Qed.
End PreviewFacts.

(** ** Gestures keep the invariant *)

Section GestureFacts.
Context {B : Builtins} {P : Pillow}.

Lemma bind_Ok {A C : Type} (m : result A) (k : A -> result C) (c : C) :
  bind m k = Ok c -> exists a, m = Ok a /\ k a = Ok c.
Proof.
  destruct m as [a|e]; cbn; intros Hk; [eauto | discriminate].
Qed.

Lemma create_rect_normalised (self : PreviewPanel) (anchor current : Point)
    (r : Rect) :
  _create_rect self anchor current = Ok r ->
  exists rect, r = _ensure_min_size self (Some rect).
Proof.
  unfold _create_rect. intros Hc.
  apply bind_Ok in Hc. destruct Hc as (rect & _ & Hr).
  exists rect. congruence.
Qed.

Lemma creation_stores (self self' : PreviewPanel) (anchor current : Point) :
  _update_selection_creation self anchor current = Ok self' ->
  stores_normalised self self'.
Proof.
  unfold _update_selection_creation. intros Hc.
  apply bind_Ok in Hc. destruct Hc as (r & Hr & Hs).
  apply create_rect_normalised in Hr. destruct Hr as (rect & ->).
  injection Hs as <-. constructor.
Qed.

Lemma move_stores (self self' : PreviewPanel) (dx dy : Z) :
  _update_selection_move self dx dy = Ok self' ->
  stores_normalised self self'.
Proof.
  unfold _update_selection_move.
  destruct (original_rect self) as [rect|].
  - destruct (Rect_bool rect); cbn [negb]; intros Hs; injection Hs as <-;
      constructor.
  - intros Hs; injection Hs as <-; constructor.
Qed.

Lemma resize_stores (self self' : PreviewPanel) (point : Point) :
  _update_selection_resize self point = Ok self' ->
  stores_normalised self self'.
Proof.
  unfold _update_selection_resize.
  destruct (drag_handle self) as [handle|].
  - destruct (opt_Rect_bool (original_rect self)); cbn [negb].
    + intros Hs. apply bind_Ok in Hs. destruct Hs as (rect & _ & Hs).
      injection Hs as <-. constructor.
    + intros Hs; injection Hs as <-; constructor.
  - intros Hs; injection Hs as <-; constructor.
Qed.

Lemma perform_stores (self : PreviewPanel) (g : gesture) :
  stores_normalised self (perform self g).
Proof.
  unfold perform, handled.
  destruct g as [anchor current | dx dy | point].
  - destruct (_update_selection_creation self anchor current) eqn:E;
      [eapply creation_stores; eassumption | constructor].
  - destruct (_update_selection_move self dx dy) eqn:E;
      [eapply move_stores; eassumption | constructor].
  - destruct (_update_selection_resize self point) eqn:E;
      [eapply resize_stores; eassumption | constructor].
Qed.

Lemma stores_display (self self' : PreviewPanel) :
  stores_normalised self self' ->
  display_w self' = display_w self /\ display_h self' = display_h self.
Proof.
  intros Hs; destruct Hs; split; reflexivity.
Qed.

Lemma stores_crop_ok (self self' : PreviewPanel) :
  MIN_CROP_SIZE <= display_w self ->
  MIN_CROP_SIZE <= display_h self ->
  stores_normalised self self' ->
  crop_ok self -> crop_ok self'.
Proof.
  intros Hw Hh Hs Hok. destruct Hs as [|rect]; [assumption|].
  unfold crop_ok. cbn [set_crop_rect crop_rect].
  apply (ensure_min_size_ok self rect Hw Hh).
Qed.
End GestureFacts.

(** C1 (as amended): on a display of at least MIN_CROP_SIZE pixels in each
    direction, every sequence of create, move and resize gestures, started
    with no selection or with one that satisfies the invariant, leaves a
    selection with [w >= 4], [h >= 4] that lies inside
    [[0, display_w] x [0, display_h]]. *)
Theorem gestures_keep_selection_invariant
    {B : Builtins} {P : Pillow} (gs : list gesture) (self : PreviewPanel) :
  MIN_CROP_SIZE <= display_w self ->
  MIN_CROP_SIZE <= display_h self ->
  crop_ok self ->
  crop_ok (perform_all self gs).
Proof.
  unfold perform_all. revert self.
  induction gs as [|g gs IH]; intros self Hw Hh Hok; cbn [fold_left].
  - exact Hok.
  - pose proof (perform_stores self g) as Hs.
    destruct (stores_display _ _ Hs) as (Ew & Eh).
    apply IH.
    + rewrite Ew; exact Hw.
    + rewrite Eh; exact Hh.
    + eapply stores_crop_ok; eassumption.
Qed.

Lemma gestures_keep_selection_invariant_witness :
  crop_ok (perform_all (Demo.panel 800 600 true "16:9" None None None)
             [Create (mkPoint 100 100) (mkPoint 300 300);
              Move 5 5; Resize (mkPoint 7 9)]).
Proof.
  apply gestures_keep_selection_invariant.
  - unfold MIN_CROP_SIZE; cbn; lia.
  - unfold MIN_CROP_SIZE; cbn; lia.
  - exact I.
Defined.

(** A create gesture does not rely on the rectangle it replaces, and
    without the aspect lock no gesture raises. *)
Lemma creation_establishes_invariant
    {B : Builtins} {P : Pillow} (self self' : PreviewPanel)
    (anchor current : Point) :
  MIN_CROP_SIZE <= display_w self ->
  MIN_CROP_SIZE <= display_h self ->
  _update_selection_creation self anchor current = Ok self' ->
  exists c, crop_rect self' = Some c /\ rect_ok self' c.
Proof.
  intros Hw Hh Hc. unfold _update_selection_creation in Hc.
  apply bind_Ok in Hc. destruct Hc as (r & Hr & Hs).
  apply create_rect_normalised in Hr. destruct Hr as (rect & ->).
  injection Hs as <-.
  exists (tuple_of_rect (_ensure_min_size self (Some rect))).
  split; [reflexivity|].
  apply (ensure_min_size_ok self (Some rect) Hw Hh).
Qed.

Lemma unlocked_gestures_return
    {B : Builtins} {P : Pillow} (self : PreviewPanel) (g : gesture) :
  _get_aspect_ratio self = None ->
  exists self',
    match g with
    | Create anchor current => _update_selection_creation self anchor current
    | Move dx dy => _update_selection_move self dx dy
    | Resize point => _update_selection_resize self point
    end = Ok self'.
Proof.
  intros Hr. destruct g as [anchor current | dx dy | point].
  - unfold _update_selection_creation, _create_rect. rewrite Hr.
    cbn [bind]. eexists. reflexivity.
  - unfold _update_selection_move.
    destruct (original_rect self) as [rect|]; [|eexists; reflexivity].
    destruct (Rect_bool rect); cbn [negb]; eexists; reflexivity.
  - unfold _update_selection_resize. rewrite Hr.
    destruct (drag_handle self) as [handle|]; [|eexists; reflexivity].
    destruct (original_rect self) as [rect|] eqn:Eo; cbn [opt_Rect_bool negb];
      [|eexists; reflexivity].
    destruct (Rect_bool rect); cbn [negb]; [|eexists; reflexivity].
    unfold _resize_free. rewrite Eo. cbn [bind]. eexists. reflexivity.
Qed.

(** The display area may be positive and still narrower than
    MIN_CROP_SIZE.  A 1600 x 6 image in an 800 x 600 panel is displayed at
    800 x 3; a drag over the whole image stores the rectangle
    (0, 0, 800, 4), which sticks out of [[0, 800] x [0, 3]]. *)
Lemma selection_leaves_small_display :
  let self := Demo.panel 800 3 false "1:1" None None None in
  let self' := perform_all self [Create (mkPoint 0 0) (mkPoint 800 3)] in
  0 < display_w self /\ 0 < display_h self /\ crop_ok self /\
  crop_rect self' = Some (0, 0, 800, 4) /\ ~ crop_ok self'.
Proof.
  intros self self'.
  assert (Ec : crop_rect self' = Some (0, 0, 800, 4)) by (vm_compute; reflexivity).
  assert (Eh : display_h self' = 3) by (vm_compute; reflexivity).
  split; [reflexivity|]. split; [reflexivity|].
  split; [exact I|]. split; [exact Ec|].
  unfold crop_ok. rewrite Ec. unfold rect_ok. rewrite Eh. lia.
Qed.

(** ** Moving the selection *)

(** C7: a move of a rectangle that satisfies the invariant stores a
    rectangle of the same width and height, inside the display, whatever
    the translation. *)
Theorem move_keeps_size
    {B : Builtins} {P : Pillow} (self : PreviewPanel) (origin : Rect) (dx dy : Z) :
  original_rect self = Some origin ->
  rect_ok self (tuple_of_rect origin) ->
  exists x' y',
    _update_selection_move self dx dy
    = Ok (set_crop_rect self
            (Some (x', y', rect_width origin, rect_height origin)))
    /\ rect_ok self (x', y', rect_width origin, rect_height origin).
Proof.
  intros Ho Hok.
  destruct origin as [x y w h].
  unfold rect_ok, tuple_of_rect in Hok.
  cbn [rect_x rect_y rect_width rect_height] in Hok |- *.
  destruct Hok as (Hw & Hh & Hx & Hy & Hr & Hb).
  assert (Hdw : MIN_CROP_SIZE <= display_w self) by lia.
  assert (Hdh : MIN_CROP_SIZE <= display_h self) by lia.
  pose proof (ensure_min_size_ok self
                (Some (mkRect (x + dx) (y + dy) w h)) Hdw Hdh) as Hn.
  destruct (ensure_min_size_keeps_size self (x + dx) (y + dy) w h)
    as (x' & y' & En); [lia | lia |].
  rewrite En in Hn.
  exists x', y'. split.
  - unfold _update_selection_move. rewrite Ho.
    assert (Hb' : Rect_bool (mkRect x y w h) = true).
    { unfold Rect_bool. cbn [rect_x rect_y rect_width rect_height].
      unfold MIN_CROP_SIZE in Hw.
      destruct (Z.eqb_spec w 0); [lia|].
      rewrite andb_false_r. reflexivity. }
    rewrite Hb'. cbn [negb].
    unfold set_x, set_y. cbn [rect_x rect_y rect_width rect_height].
    rewrite En. reflexivity.
  - exact Hn.
Qed.

Lemma move_keeps_size_witness :
  let self := Demo.panel 800 600 true "1:1" (Some (10, 20, 200, 100))
                (Some (mkRect 10 20 200 100)) (Some Handle.inside) in
  exists x' y',
    _update_selection_move self 1000 (-1000)
    = Ok (set_crop_rect self (Some (x', y', 200, 100)))
    /\ rect_ok self (x', y', 200, 100).
Proof.
  cbv zeta.
  apply (move_keeps_size
           (Demo.panel 800 600 true "1:1" (Some (10, 20, 200, 100))
              (Some (mkRect 10 20 200 100)) (Some Handle.inside))
           (mkRect 10 20 200 100) 1000 (-1000)).
  - reflexivity.
  - unfold rect_ok, tuple_of_rect, MIN_CROP_SIZE. cbn. lia.
Defined.

Example move_slides_back :
  let self := Demo.panel 800 600 true "1:1" (Some (10, 20, 200, 100))
                (Some (mkRect 10 20 200 100)) (Some Handle.inside) in
  crop_rect (perform self (Move 1000 (-1000))) = Some (600, 0, 200, 100).
Proof. vm_compute. reflexivity. Qed.

(** ** Floats that take part in a finite product *)

Module PyFacts.

Lemma mul_finite (a b : float) :
  Py.finite (a * b)%float = true ->
  Py.finite a = true /\ Py.finite b = true.
Proof.
  unfold Py.finite. rewrite mul_spec. unfold SF64mul.
  destruct (Prim2SF a) as [sa| sa| |sa ma ea],
           (Prim2SF b) as [sb| sb| |sb mb eb];
    cbn; intros Hf; try discriminate; split; reflexivity.
Qed.

Lemma div_finite_num (a b : float) :
  Py.finite (a / b)%float = true -> Py.finite a = true.
Proof.
  unfold Py.finite. rewrite div_spec. unfold SF64div.
  destruct (Prim2SF a) as [sa| sa| |sa ma ea],
           (Prim2SF b) as [sb| sb| |sb mb eb];
    cbn; intros Hf; try discriminate; reflexivity.
Qed.

Lemma float_of_int_finite (z : Z) :
  Py.finite (Py.Z2F z) = true -> Py.float_of_int z = Ok (Py.Z2F z).
Proof.
  unfold Py.finite, Py.float_of_int.
  destruct (Prim2SF (Py.Z2F z)); intros Hf; try discriminate; reflexivity.
Qed.

Lemma floor_finite (f : float) :
  Py.finite f = true -> exists z, Py.floor f = Ok z.
Proof.
  unfold Py.finite, Py.floor.
  destruct (Prim2SF f); intros Hf; try discriminate; eauto.
Qed.

Lemma ceil_finite (f : float) :
  Py.finite f = true -> exists z, Py.ceil f = Ok z.
Proof.
  unfold Py.finite, Py.ceil.
  destruct (Prim2SF f); intros Hf; try discriminate; eauto.
Qed.

(** The three conversions to [int] against the exact value
    [signed s m * 2^e] of a float with a fraction: the floor is the largest
    integer below it, the ceiling the smallest above it, and [round] one
    of the nearest, the even one of two. *)
Lemma floor_spec (f : float) (s : bool) (m : positive) (e z : Z) :
  Prim2SF f = S754_finite s m e -> e < 0 -> Py.floor f = Ok z ->
  z * 2 ^ (- e) <= Py.signed s m < (z + 1) * 2 ^ (- e).
Proof.
  unfold Py.floor. intros -> He Hz.
  destruct (Z.leb_spec 0 e); [lia|]. injection Hz as <-.
  assert (Hd : 0 < 2 ^ (- e)) by (apply Z.pow_pos_nonneg; lia).
  pose proof (Z.div_mod (Py.signed s m) (2 ^ (- e)) ltac:(lia)).
  pose proof (Z.mod_pos_bound (Py.signed s m) (2 ^ (- e)) Hd).
  nia.
Qed.

Lemma ceil_spec (f : float) (s : bool) (m : positive) (e z : Z) :
  Prim2SF f = S754_finite s m e -> e < 0 -> Py.ceil f = Ok z ->
  (z - 1) * 2 ^ (- e) < Py.signed s m <= z * 2 ^ (- e).
Proof.
  unfold Py.ceil. intros -> He Hz.
  destruct (Z.leb_spec 0 e); [lia|]. injection Hz as <-.
  assert (Hd : 0 < 2 ^ (- e)) by (apply Z.pow_pos_nonneg; lia).
  pose proof (Z.div_mod (- Py.signed s m) (2 ^ (- e)) ltac:(lia)).
  pose proof (Z.mod_pos_bound (- Py.signed s m) (2 ^ (- e)) Hd).
  nia.
Qed.


(** A finite scaled coordinate is computed without an exception. *)
Lemma scaled_finite (v num den : Z) :
  den <> 0 ->
  Py.finite (Py.Z2F den) = true ->
  Py.finite (Py.scaled v num den) = true ->
  Py.int_truediv num den = Ok (Py.Z2F num / Py.Z2F den)%float
  /\ Py.int_mul_float v (Py.Z2F num / Py.Z2F den)%float
     = Ok (Py.scaled v num den).
Proof.
  intros Hden Hfd Hf. unfold Py.scaled in Hf.
  destruct (mul_finite _ _ Hf) as (Hv & Hq).
  pose proof (div_finite_num _ _ Hq) as Hn.
  unfold Py.int_truediv, Py.int_mul_float, Py.scaled.
  destruct (Z.eqb_spec den 0) as [E|_]; [contradiction|].
  rewrite (float_of_int_finite num Hn), (float_of_int_finite den Hfd),
    (float_of_int_finite v Hv).
  split; reflexivity.
Qed.

End PyFacts.

(** ** Ints and doubles

    The rounding of Python, [float(n)], [/] and [*], is the one of
    [SpecFloat]; this section bounds the exponents it produces for ints of
    at most 53 bits, which no operation of the coordinate mapping takes
    beyond the range of the doubles. *)

Module FloatRange.

Lemma digits2_pos_bounds (p : positive) :
  2 ^ (Zpos (digits2_pos p) - 1) <= Zpos p < 2 ^ Zpos (digits2_pos p).
Proof.
  induction p as [p IH|p IH|]; cbn [digits2_pos].
  - rewrite Pos2Z.inj_succ.
    replace (Z.succ (Zpos (digits2_pos p)) - 1) with (Z.succ (Zpos (digits2_pos p) - 1)) by lia.
    rewrite !Z.pow_succ_r by lia. lia.
  - rewrite Pos2Z.inj_succ.
    replace (Z.succ (Zpos (digits2_pos p)) - 1) with (Z.succ (Zpos (digits2_pos p) - 1)) by lia.
    rewrite !Z.pow_succ_r by lia. lia.
  - cbn. lia.
Qed.

Lemma Zdigits2_nonneg (m : Z) : 0 <= Zdigits2 m.
Proof. destruct m; cbn; lia. Qed.

Lemma Zdigits2_bounds (m : Z) :
  0 < m -> 2 ^ (Zdigits2 m - 1) <= m < 2 ^ Zdigits2 m.
Proof.
  destruct m as [|p|p]; try lia. intros _. apply digits2_pos_bounds.
Qed.

(** A positive number below [2^k] has at most [k] digits. *)
Lemma Zdigits2_le (m k : Z) : 0 <= m -> 0 <= k -> m < 2 ^ k -> Zdigits2 m <= k.
Proof.
  intros Hm Hk Hlt.
  destruct (Z.eq_dec m 0) as [->|Hne]; [cbn; lia|].
  pose proof (Zdigits2_bounds m ltac:(lia)) as (Hlo & _).
  pose proof (Zdigits2_nonneg m).
  destruct (Z.le_gt_cases (Zdigits2 m) k) as [Hle|Hgt]; [exact Hle|].
  exfalso.
  assert (2 ^ k <= 2 ^ (Zdigits2 m - 1)) by (apply Z.pow_le_mono_r; lia).
  lia.
Qed.

Lemma Zdigits2_ge (m k : Z) : 0 < m -> 2 ^ (k - 1) <= m -> k <= Zdigits2 m.
Proof.
  intros Hm Hge.
  pose proof (Zdigits2_bounds m Hm) as (_ & Hhi).
  destruct (Z.le_gt_cases k (Zdigits2 m)) as [Hle|Hgt]; [exact Hle|].
  exfalso.
  assert (2 ^ Zdigits2 m <= 2 ^ (k - 1)).
  { apply Z.pow_le_mono_r; [lia|]. lia. }
  lia.
Qed.

Lemma Zdigits2_mul (a b : positive) :
  Zdigits2 (Zpos (a * b)) <= Zdigits2 (Zpos a) + Zdigits2 (Zpos b).
Proof.
  pose proof (Zdigits2_bounds (Zpos a) ltac:(lia)) as (_ & Ha).
  pose proof (Zdigits2_bounds (Zpos b) ltac:(lia)) as (_ & Hb).
  pose proof (Zdigits2_nonneg (Zpos a)). pose proof (Zdigits2_nonneg (Zpos b)).
  apply Zdigits2_le; try lia.
  rewrite Pos2Z.inj_mul, Z.pow_add_r by lia.
  apply Z.mul_lt_mono_nonneg; lia.
Qed.

Lemma Zdigits2_succ (m r : Z) :
  0 <= m -> m <= r <= m + 1 -> Zdigits2 r <= Zdigits2 m + 1.
Proof.
  intros Hm Hr. pose proof (Zdigits2_nonneg m).
  apply Zdigits2_le; try lia.
  destruct (Z.eq_dec m 0) as [->|Hne].
  - cbn. lia.
  - pose proof (Zdigits2_bounds m ltac:(lia)) as (_ & Hhi).
    rewrite Z.pow_add_r by lia. lia.
Qed.

(** Right shifts. *)
Lemma shr_1_m (mrs : shr_record) :
  0 <= shr_m mrs -> shr_m (shr_1 mrs) = shr_m mrs / 2.
Proof.
  destruct mrs as [m r s]. cbn [shr_m]. intros Hm.
  destruct m as [|[p|p|]|p]; try lia; cbn [shr_1 shr_m].
  - reflexivity.
  - rewrite Pos2Z.inj_xI. symmetry.
    replace (2 * Zpos p + 1) with (1 + Zpos p * 2) by lia.
    rewrite Z.div_add by lia. reflexivity.
  - rewrite Pos2Z.inj_xO. symmetry.
    replace (2 * Zpos p) with (Zpos p * 2) by lia.
    apply Z.div_mul. lia.
  - reflexivity.
Qed.

Lemma iter_shr_1_m (p : positive) (mrs : shr_record) :
  0 <= shr_m mrs ->
  shr_m (iter_pos shr_1 p mrs) = shr_m mrs / 2 ^ Zpos p.
Proof.
  revert mrs. induction p as [p IH|p IH|]; intros mrs Hm; cbn [iter_pos].
  - assert (H1 : 0 <= shr_m (shr_1 mrs)).
    { rewrite shr_1_m by exact Hm. apply Z.div_pos; lia. }
    assert (H2 : 0 <= shr_m (iter_pos shr_1 p (shr_1 mrs))).
    { rewrite IH by exact H1. apply Z.div_pos; [exact H1|]. apply Z.pow_pos_nonneg; lia. }
    rewrite IH by exact H2. rewrite IH by exact H1. rewrite shr_1_m by exact Hm.
    rewrite !Z.div_div by (try apply Z.pow_pos_nonneg; lia).
    f_equal. rewrite (Pos2Z.inj_xI p).
    replace (2 * Zpos p + 1) with (Z.succ (Zpos p + Zpos p)) by lia.
    rewrite (Z.pow_succ_r 2 (Zpos p + Zpos p)) by lia.
    rewrite (Z.pow_add_r 2 (Zpos p) (Zpos p)) by lia. reflexivity.
  - assert (H2 : 0 <= shr_m (iter_pos shr_1 p mrs)).
    { rewrite IH by exact Hm. apply Z.div_pos; [exact Hm|]. apply Z.pow_pos_nonneg; lia. }
    rewrite IH by exact H2. rewrite IH by exact Hm.
    rewrite !Z.div_div by (try apply Z.pow_pos_nonneg; lia).
    f_equal. rewrite (Pos2Z.inj_xO p).
    replace (2 * Zpos p) with (Zpos p + Zpos p) by lia.
    rewrite (Z.pow_add_r 2 (Zpos p) (Zpos p)) by lia. reflexivity.
  - rewrite shr_1_m by exact Hm. reflexivity.
Qed.

Lemma shr_record_of_loc_m (m : Z) (l : location) :
  shr_m (shr_record_of_loc m l) = m.
Proof. destruct l as [|[]]; reflexivity. Qed.

Lemma Zdigits2_shift (m n : Z) :
  0 <= m -> 0 < n -> 0 < m / 2 ^ n ->
  Zdigits2 (m / 2 ^ n) + n <= Zdigits2 m.
Proof.
  intros Hm Hn Hq.
  assert (Hp : 0 < 2 ^ n) by (apply Z.pow_pos_nonneg; lia).
  assert (Hm0 : 0 < m).
  { destruct (Z.eq_dec m 0) as [->|]; [rewrite Z.div_0_l in Hq; lia | lia]. }
  pose proof (Zdigits2_bounds m Hm0) as (_ & Hhi).
  pose proof (Zdigits2_nonneg m) as Hd.
  assert (Hge : 2 ^ n <= m).
  { destruct (Z.le_gt_cases (2 ^ n) m) as [H|H]; [exact H|].
    rewrite Z.div_small in Hq by lia. lia. }
  assert (Hdn : n < Zdigits2 m).
  { destruct (Z.lt_ge_cases n (Zdigits2 m)) as [H|H]; [exact H|].
    assert (2 ^ Zdigits2 m <= 2 ^ n) by (apply Z.pow_le_mono_r; lia). lia. }
  assert (Hle : Zdigits2 (m / 2 ^ n) <= Zdigits2 m - n).
  { apply Zdigits2_le; try lia.
    apply Z.div_lt_upper_bound; [exact Hp|].
    rewrite <- Z.pow_add_r by lia.
    replace (n + (Zdigits2 m - n)) with (Zdigits2 m) by lia. exact Hhi. }
  lia.
Qed.

Lemma fexp_double (e : Z) : fexp prec emax e = Z.max (e - 53) (-1074).
Proof. reflexivity. Qed.

Lemma shr_fexp_spec (m e : Z) (l : location) :
  0 <= m ->
  0 <= shr_m (fst (shr_fexp prec emax m e l)) /\
  snd (shr_fexp prec emax m e l) = Z.max e (fexp prec emax (Zdigits2 m + e)) /\
  (0 < shr_m (fst (shr_fexp prec emax m e l)) ->
   Zdigits2 (shr_m (fst (shr_fexp prec emax m e l)))
   + snd (shr_fexp prec emax m e l) <= Zdigits2 m + e).
Proof.
  intros Hm. unfold shr_fexp, shr.
  destruct (fexp prec emax (Zdigits2 m + e) - e) as [|p|p] eqn:En; cbn [fst snd].
  - rewrite shr_record_of_loc_m. split; [exact Hm|]. split; lia.
  - rewrite iter_shr_1_m by (rewrite shr_record_of_loc_m; exact Hm).
    rewrite shr_record_of_loc_m.
    split; [apply Z.div_pos; [exact Hm | apply Z.pow_pos_nonneg; lia]|].
    split; [lia|].
    intros Hq. pose proof (Zdigits2_shift m (Zpos p) Hm ltac:(lia) Hq). lia.
  - rewrite shr_record_of_loc_m. split; [exact Hm|]. split; lia.
Qed.

Lemma round_nearest_even_range (m : Z) (l : location) :
  m <= round_nearest_even m l <= m + 1.
Proof.
  unfold round_nearest_even. destruct l as [|[]]; try lia.
  destruct (Z.even m); lia.
Qed.

Lemma binary_round_aux_bound (s : bool) (m e : Z) (l : location) :
  0 <= m -> e <= 971 -> Zdigits2 m + e <= 1023 ->
  rounded_to s (Z.max (Z.max (Zdigits2 m + e) e) (-1074) + 1)
    (binary_round_aux prec emax s m e l).
Proof.
  intros Hm He HD. unfold binary_round_aux.
  pose proof (shr_fexp_spec m e l Hm) as (H1m & H1e & H1d).
  destruct (shr_fexp prec emax m e l) as [mrs' e'] eqn:E1.
  cbn [fst snd] in H1m, H1e, H1d.
  set (m1 := round_nearest_even (shr_m mrs') (loc_of_shr_record mrs')).
  pose proof (round_nearest_even_range (shr_m mrs') (loc_of_shr_record mrs')) as Hr.
  fold m1 in Hr.
  assert (Hm1 : 0 <= m1) by lia.
  pose proof (Zdigits2_succ (shr_m mrs') m1 H1m Hr) as Hd1.
  pose proof (shr_fexp_spec m1 e' loc_Exact Hm1) as (H2m & H2e & H2d).
  destruct (shr_fexp prec emax m1 e' loc_Exact) as [mrs'' e''] eqn:E2.
  cbn [fst snd] in H2m, H2e, H2d.
  rewrite fexp_double in H1e, H2e.
  pose proof (Zdigits2_nonneg m) as Hdm.
  assert (Hdm' : Zdigits2 (shr_m mrs') + e' <= Z.max (Zdigits2 m + e) e').
  { destruct (Z.eq_dec (shr_m mrs') 0) as [E0|N0].
    - rewrite E0. cbn. lia.
    - specialize (H1d ltac:(lia)). lia. }
  destruct (shr_m mrs'') as [|p|p] eqn:Em; [constructor | | lia].
  specialize (H2d ltac:(lia)).
  assert (He'' : e'' <= 971) by lia.
  destruct (Z.leb_spec e'' (emax - prec)) as [Hle|Hgt].
  - constructor; [exact He''|]. lia.
  - exfalso. change (emax - prec) with 971 in Hgt. lia.
Qed.


Lemma rounded_to_weaken (s : bool) (b b' : Z) (f : spec_float) :
  b <= b' -> rounded_to s b f -> rounded_to s b' f.
Proof.
  intros Hb Hr. destruct Hr; constructor; lia.
Qed.

Lemma rounded_to_finite (s : bool) (b : Z) (x : spec_float) :
  rounded_to s b x ->
  match x with
  | S754_zero _ | S754_finite _ _ _ => true
  | _ => false
  end = true.
Proof.
  intros Hr. destruct Hr; reflexivity.
Qed.

(** A mantissa that is already canonical goes through unchanged. *)
Lemma binary_round_aux_canonical (s : bool) (m : positive) (e : Z) :
  fexp prec emax (Zpos (digits2_pos m) + e) = e -> e <= 971 ->
  binary_round_aux prec emax s (Zpos m) e loc_Exact = S754_finite s m e.
Proof.
  intros Hc He.
  assert (Hs : shr_fexp prec emax (Zpos m) e loc_Exact
               = (Build_shr_record (Zpos m) false false, e)).
  { unfold shr_fexp. cbn [Zdigits2]. rewrite Hc, Z.sub_diag. reflexivity. }
  unfold binary_round_aux. rewrite Hs.
  cbn [shr_m loc_of_shr_record round_nearest_even]. rewrite Hs.
  cbn [shr_m].
  destruct (Z.leb_spec e (emax - prec)) as [_|Hgt]; [reflexivity|].
  change (emax - prec) with 971 in Hgt. lia.
Qed.

Lemma digits2_pos_iter_xO (m k : positive) :
  digits2_pos (Pos.iter xO m k) = (digits2_pos m + k)%positive.
Proof.
  induction k as [|k IH] using Pos.peano_ind.
  - cbn. rewrite Pos.add_1_r. reflexivity.
  - rewrite Pos.iter_succ. cbn [digits2_pos]. rewrite IH.
    rewrite Pos.add_succ_r. reflexivity.
Qed.

(** [float(n)] for an int of at most 53 bits. *)
Lemma binary_round_int (s : bool) (p : positive) :
  Zpos (digits2_pos p) <= 53 ->
  exists m,
    binary_round prec emax s p 0
    = S754_finite s m (Zpos (digits2_pos p) - 53)
    /\ Zpos (digits2_pos m) = 53.
Proof.
  intros Hd. unfold binary_round, shl_align.
  rewrite fexp_double.
  replace (Z.max (Zpos (digits2_pos p) + 0 - 53) (-1074))
    with (Zpos (digits2_pos p) - 53) by lia.
  destruct (Zpos (digits2_pos p) - 53 - 0) as [|k|k] eqn:Ek.
  - exists p. assert (E53 : Zpos (digits2_pos p) = 53) by lia.
    rewrite E53. split; [|reflexivity].
    apply binary_round_aux_canonical; [|lia].
    rewrite E53. reflexivity.
  - lia.
  - exists (Pos.iter xO p k).
    assert (E53 : Zpos (digits2_pos (Pos.iter xO p k)) = 53).
    { rewrite digits2_pos_iter_xO, Pos2Z.inj_add. lia. }
    split; [|exact E53].
    apply binary_round_aux_canonical; [|lia].
    rewrite E53, fexp_double. lia.
Qed.

Lemma Prim2SF_Z2F (z : Z) :
  z <> 0 -> Z.abs z < 2 ^ 53 ->
  exists m,
    Prim2SF (Py.Z2F z) = S754_finite (z <? 0) m (Zdigits2 z - 53)
    /\ Zpos (digits2_pos m) = 53.
Proof.
  intros Hz Hlt. unfold Py.Z2F, binary_normalize.
  destruct z as [|p|p]; [contradiction| |].
  - assert (Hd : Zpos (digits2_pos p) <= 53).
    { apply (Zdigits2_le (Zpos p) 53); lia. }
    destruct (binary_round_int false p Hd) as (m & Em & Hm).
    exists m. split; [|exact Hm].
    rewrite Em. apply Prim2SF_SF2Prim.
    cbn [valid_binary]. unfold bounded, canonical_mantissa.
    rewrite Hm, fexp_double. cbn [Zdigits2].
    apply andb_true_intro. split; [apply Z.eqb_eq | apply Z.leb_le].
    + lia.
    + change (emax - prec) with 971. lia.
  - assert (Hd : Zpos (digits2_pos p) <= 53).
    { apply (Zdigits2_le (Zpos p) 53); lia. }
    destruct (binary_round_int true p Hd) as (m & Em & Hm).
    exists m. split; [|exact Hm].
    rewrite Em. apply Prim2SF_SF2Prim.
    cbn [valid_binary]. unfold bounded, canonical_mantissa.
    rewrite Hm, fexp_double. cbn [Zdigits2].
    apply andb_true_intro. split; [apply Z.eqb_eq | apply Z.leb_le].
    + lia.
    + change (emax - prec) with 971. lia.
Qed.

Lemma Zdigits2_int53 (z : Z) :
  z <> 0 -> Z.abs z < 2 ^ 53 -> 1 <= Zdigits2 z <= 53.
Proof.
  intros Hz Hlt. destruct z as [|p|p]; [contradiction| |]; cbn [Zdigits2].
  - split; [lia|]. apply (Zdigits2_le (Zpos p) 53); lia.
  - split; [lia|]. apply (Zdigits2_le (Zpos p) 53); lia.
Qed.

(** The quotient of two converted ints. *)
Lemma SFdiv_bound (s1 s2 : bool) (m1 m2 : positive) (e1 e2 : Z) :
  Zpos (digits2_pos m1) = 53 -> Zpos (digits2_pos m2) = 53 ->
  -52 <= e1 <= 0 -> -52 <= e2 <= 0 ->
  rounded_to (xorb s1 s2) 55
    (SFdiv prec emax (S754_finite s1 m1 e1) (S754_finite s2 m2 e2)).
Proof.
  intros H1 H2 He1 He2. unfold SFdiv, SFdiv_core_binary.
  cbn [Zdigits2]. rewrite H1, H2, fexp_double.
  replace (Z.min (Z.max (53 + e1 - (53 + e2) - 53) (-1074)) (e1 - e2))
    with (e1 - e2 - 53) by lia.
  replace (e1 - e2 - (e1 - e2 - 53)) with 53 by lia.
  cbv iota.
  destruct (Z.div_eucl (Z.shiftl (Zpos m1) 53) (Zpos m2)) as [q r] eqn:Ed.
  assert (Eq : q = Zpos m1 * 2 ^ 53 / Zpos m2).
  { rewrite <- Z.shiftl_mul_pow2 by lia. unfold Z.div. rewrite Ed. reflexivity. }
  pose proof (digits2_pos_bounds m1) as B1. rewrite H1 in B1.
  pose proof (digits2_pos_bounds m2) as B2. rewrite H2 in B2.
  change (2 ^ (53 - 1)) with 4503599627370496 in B1, B2.
  change (2 ^ 53) with 9007199254740992 in B1, B2, Eq.
  assert (Hq0 : 0 <= q).
  { rewrite Eq. apply Z.div_pos; lia. }
  assert (Hq1 : q < 2 ^ 54).
  { rewrite Eq. apply Z.div_lt_upper_bound; [lia|].
    change (2 ^ 54) with 18014398509481984. nia. }
  pose proof (Zdigits2_le q 54 Hq0 ltac:(lia) Hq1) as Hdq.
  pose proof (Zdigits2_nonneg q) as Hdq0.
  eapply rounded_to_weaken;
    [|apply binary_round_aux_bound; [exact Hq0 | lia | lia]].
  lia.
Qed.

(** The product of a converted int and a bounded float. *)
Lemma SFmul_bound (s1 s2 : bool) (m1 m2 : positive) (e1 e2 : Z) :
  Zpos (digits2_pos m1) = 53 -> -52 <= e1 <= 0 ->
  e2 <= 971 -> Zpos (digits2_pos m2) + e2 <= 55 ->
  rounded_to (xorb s1 s2) 1024
    (SFmul prec emax (S754_finite s1 m1 e1) (S754_finite s2 m2 e2)).
Proof.
  intros H1 He1 He2 H2. unfold SFmul.
  pose proof (Zdigits2_mul m1 m2) as Hm. cbn [Zdigits2] in Hm.
  rewrite H1 in Hm.
  pose proof (Zdigits2_nonneg (Zpos (m1 * m2))) as Hd0.
  eapply rounded_to_weaken;
    [|apply binary_round_aux_bound; [lia | lia |]].
  - cbn [Zdigits2] in *. lia.
  - cbn [Zdigits2] in *. lia.
Qed.

(** Display coordinates scaled to the source never leave the doubles. *)
Lemma scaled_finite_int53 (v num den : Z) :
  Z.abs v < 2 ^ 53 -> 0 < num < 2 ^ 53 -> 0 < den < 2 ^ 53 ->
  Py.finite (Py.Z2F den) = true /\ Py.finite (Py.scaled v num den) = true.
Proof.
  intros Hv Hn Hd.
  destruct (Prim2SF_Z2F num ltac:(lia) ltac:(lia)) as (mn & En & Hmn).
  destruct (Prim2SF_Z2F den ltac:(lia) ltac:(lia)) as (md & Ed & Hmd).
  pose proof (Zdigits2_int53 num ltac:(lia) ltac:(lia)) as Dn.
  pose proof (Zdigits2_int53 den ltac:(lia) ltac:(lia)) as Dd.
  split.
  { unfold Py.finite. rewrite Ed. reflexivity. }
  assert (Hq : rounded_to (xorb (num <? 0) (den <? 0)) 55
                 (Prim2SF (Py.Z2F num / Py.Z2F den)%float)).
  { rewrite div_spec, En, Ed. apply SFdiv_bound; try assumption; lia. }
  unfold Py.scaled, Py.finite. rewrite mul_spec. unfold SF64mul.
  destruct (Z.eq_dec v 0) as [->|Hv0].
  - change (Prim2SF (Py.Z2F 0)) with (S754_zero false).
    destruct Hq; reflexivity.
  - destruct (Prim2SF_Z2F v Hv0 Hv) as (mv & Ev & Hmv).
    pose proof (Zdigits2_int53 v Hv0 Hv) as Dv.
    rewrite Ev.
    destruct Hq as [|mq eq Heq Hmq]; [reflexivity|].
    apply (rounded_to_finite (xorb (v <? 0) (xorb (num <? 0) (den <? 0))) 1024).
    apply SFmul_bound; try assumption; lia.
Qed.

End FloatRange.

(** ** From display space to source space *)

(** C2: for a loaded image of positive size on a display of positive size,
    [GetCropBox] takes the floor of the scaled top-left corner and the
    ceiling of the scaled bottom-right corner, clamps the start corner into
    [[0, iw-1] x [0, ih-1]] and the end corner into
    [[x1+1, iw] x [y1+1, ih]]; the box it returns has [x2 > x1], [y2 > y1]
    and lies in the image, also for a rectangle of no area.  It does return
    a box, with no exception, for all coordinates and sizes of at most 53
    bits. *)
Theorem GetCropBox_clamped
    {B : Builtins} {P : Pillow} (self : PreviewPanel)
    (x y w h iw ih : Z) (img : Image) :
  crop_rect self = Some (x, y, w, h) ->
  current_image self = Some img ->
  Image_size img = (iw, ih) ->
  0 < display_w self -> 0 < display_h self ->
  0 < iw -> 0 < ih ->
  (forall r, GetCropBox self = Ok r ->
     exists sx sy fx1 fy1 fx2 fy2 ox1 oy1 ox2 oy2,
       Py.int_truediv iw (display_w self) = Ok sx /\
       Py.int_truediv ih (display_h self) = Ok sy /\
       Py.int_mul_float x sx = Ok fx1 /\ Py.floor fx1 = Ok ox1 /\
       Py.int_mul_float y sy = Ok fy1 /\ Py.floor fy1 = Ok oy1 /\
       Py.int_mul_float (x + w) sx = Ok fx2 /\ Py.ceil fx2 = Ok ox2 /\
       Py.int_mul_float (y + h) sy = Ok fy2 /\ Py.ceil fy2 = Ok oy2 /\
       let x1 := Z.max 0 (Z.min (iw - 1) ox1) in
       let y1 := Z.max 0 (Z.min (ih - 1) oy1) in
       let x2 := Z.max (x1 + 1) (Z.min iw ox2) in
       let y2 := Z.max (y1 + 1) (Z.min ih oy2) in
       r = Some (x1, y1, x2, y2) /\
       0 <= x1 <= iw - 1 /\ 0 <= y1 <= ih - 1 /\
       x1 + 1 <= x2 <= iw /\ y1 + 1 <= y2 <= ih)
  /\
  (exact_int x -> exact_int y -> exact_int (x + w) -> exact_int (y + h) ->
   exact_int (display_w self) -> exact_int (display_h self) ->
   exact_int iw -> exact_int ih ->
   exists x1 y1 x2 y2,
     GetCropBox self = Ok (Some (x1, y1, x2, y2)) /\
     0 <= x1 < x2 /\ x2 <= iw /\ 0 <= y1 < y2 /\ y2 <= ih).
Proof.
  intros Hc Hi Hs Hdw Hdh Hiw Hih.
  assert (Hshape : forall r, GetCropBox self = Ok r ->
     exists sx sy fx1 fy1 fx2 fy2 ox1 oy1 ox2 oy2,
       Py.int_truediv iw (display_w self) = Ok sx /\
       Py.int_truediv ih (display_h self) = Ok sy /\
       Py.int_mul_float x sx = Ok fx1 /\ Py.floor fx1 = Ok ox1 /\
       Py.int_mul_float y sy = Ok fy1 /\ Py.floor fy1 = Ok oy1 /\
       Py.int_mul_float (x + w) sx = Ok fx2 /\ Py.ceil fx2 = Ok ox2 /\
       Py.int_mul_float (y + h) sy = Ok fy2 /\ Py.ceil fy2 = Ok oy2 /\
       let x1 := Z.max 0 (Z.min (iw - 1) ox1) in
       let y1 := Z.max 0 (Z.min (ih - 1) oy1) in
       let x2 := Z.max (x1 + 1) (Z.min iw ox2) in
       let y2 := Z.max (y1 + 1) (Z.min ih oy2) in
       r = Some (x1, y1, x2, y2) /\
       0 <= x1 <= iw - 1 /\ 0 <= y1 <= ih - 1 /\
       x1 + 1 <= x2 <= iw /\ y1 + 1 <= y2 <= ih).
  { intros r. unfold GetCropBox. rewrite Hc, Hi, Hs. intros Hr.
    apply bind_Ok in Hr. destruct Hr as (sx & Hsx & Hr).
    apply bind_Ok in Hr. destruct Hr as (sy & Hsy & Hr).
    apply bind_Ok in Hr. destruct Hr as (fx1 & Hfx1 & Hr).
    apply bind_Ok in Hr. destruct Hr as (ox1 & Hox1 & Hr).
    apply bind_Ok in Hr. destruct Hr as (fy1 & Hfy1 & Hr).
    apply bind_Ok in Hr. destruct Hr as (oy1 & Hoy1 & Hr).
    apply bind_Ok in Hr. destruct Hr as (fx2 & Hfx2 & Hr).
    apply bind_Ok in Hr. destruct Hr as (ox2 & Hox2 & Hr).
    apply bind_Ok in Hr. destruct Hr as (fy2 & Hfy2 & Hr).
    apply bind_Ok in Hr. destruct Hr as (oy2 & Hoy2 & Hr).
    injection Hr as <-.
    exists sx, sy, fx1, fy1, fx2, fy2, ox1, oy1, ox2, oy2.
    repeat (split; [assumption|]).
    cbv zeta. split; [reflexivity|]. lia. }
  split; [exact Hshape|].
  unfold exact_int. intros Rx Ry Rx2 Ry2 Rdw Rdh Riw Rih.
  destruct (FloatRange.scaled_finite_int53 x iw (display_w self))
    as (Fdw & Fx1); [lia | lia | lia |].
  destruct (FloatRange.scaled_finite_int53 y ih (display_h self))
    as (Fdh & Fy1); [lia | lia | lia |].
  destruct (FloatRange.scaled_finite_int53 (x + w) iw (display_w self))
    as (_ & Fx2); [lia | lia | lia |].
  destruct (FloatRange.scaled_finite_int53 (y + h) ih (display_h self))
    as (_ & Fy2); [lia | lia | lia |].
  assert (Ndw : display_w self <> 0) by lia.
  assert (Ndh : display_h self <> 0) by lia.
  destruct (PyFacts.scaled_finite x iw _ Ndw Fdw Fx1) as (Esx & Ex1).
  destruct (PyFacts.scaled_finite y ih _ Ndh Fdh Fy1) as (Esy & Ey1).
  destruct (PyFacts.scaled_finite (x + w) iw _ Ndw Fdw Fx2) as (_ & Ex2).
  destruct (PyFacts.scaled_finite (y + h) ih _ Ndh Fdh Fy2) as (_ & Ey2).
  destruct (PyFacts.floor_finite _ Fx1) as (ox1 & Hox1).
  destruct (PyFacts.floor_finite _ Fy1) as (oy1 & Hoy1).
  destruct (PyFacts.ceil_finite _ Fx2) as (ox2 & Hox2).
  destruct (PyFacts.ceil_finite _ Fy2) as (oy2 & Hoy2).
  assert (Hret : GetCropBox self
                 = Ok (Some (Z.max 0 (Z.min (iw - 1) ox1),
                             Z.max 0 (Z.min (ih - 1) oy1),
                             Z.max (Z.max 0 (Z.min (iw - 1) ox1) + 1)
                                   (Z.min iw ox2),
                             Z.max (Z.max 0 (Z.min (ih - 1) oy1) + 1)
                                   (Z.min ih oy2)))).
  { unfold GetCropBox. rewrite Hc, Hi, Hs.
    rewrite Esx. cbn [bind]. rewrite Esy. cbn [bind].
    rewrite Ex1. cbn [bind]. rewrite Hox1. cbn [bind].
    rewrite Ey1. cbn [bind]. rewrite Hoy1. cbn [bind].
    rewrite Ex2. cbn [bind]. rewrite Hox2. cbn [bind].
    rewrite Ey2. cbn [bind]. rewrite Hoy2. cbn [bind].
    reflexivity. }
  eexists _, _, _, _. split; [exact Hret|]. lia.
Qed.

Lemma GetCropBox_clamped_witness :
  exists x1 y1 x2 y2,
    GetCropBox (Demo.panel 800 600 true "1:1" (Some (5, 7, 0, 0)) None None)
    = Ok (Some (x1, y1, x2, y2))
    /\ 0 <= x1 < x2 /\ x2 <= 1600 /\ 0 <= y1 < y2 /\ y2 <= 1200.
Proof.
  apply (proj2 (GetCropBox_clamped
                  (Demo.panel 800 600 true "1:1" (Some (5, 7, 0, 0)) None None)
                  5 7 0 0 1600 1200 (1600, 1200)
                  eq_refl eq_refl eq_refl
                  eq_refl eq_refl eq_refl eq_refl));
    unfold exact_int; cbn; lia.
Defined.

(** The scenario of the specification: an 800 x 600 display of a
    1600 x 1200 image, rectangle (100, 100, 200, 200). *)
Example GetCropBox_scenario :
  GetCropBox (Demo.panel 800 600 false "1:1" (Some (100, 100, 200, 200)) None None)
  = Ok (Some (200, 200, 600, 600)).
Proof. vm_compute. reflexivity. Qed.

(** ** The rounding error of a product and of a quotient

    The doubles that [a * r] and [a / r] return are within one unit in the
    last place of the exact product and quotient.  For an int read back by
    [round] that unit is far below a pixel. *)

Module FloatError.
Import FloatRange.












(** *** The two roundings of the aspect lock *)












End FloatError.

(** ** The aspect lock *)

Lemma fit_extent_strict (len d : Z) :
  MIN_CROP_SIZE < fit_extent len d < d -> fit_extent len d = len.
Proof.
  unfold fit_extent, MIN_CROP_SIZE. rewrite Z.gtb_ltb.
  destruct (Z.ltb_spec d len); lia.
Qed.

Lemma Ok_inj {A : Type} (a b : A) : Ok a = Ok b -> a = b.
Proof. congruence. Qed.

Section LockFacts.
Context {B : Builtins} {P : Pillow}.

(** The sides [_ensure_min_size] returns. *)
Lemma ensure_min_size_sides (self : PreviewPanel) (rect : Rect) :
  MIN_CROP_SIZE <= display_w self -> MIN_CROP_SIZE <= display_h self ->
  rect_width (_ensure_min_size self (Some rect))
  = fit_extent (rect_width rect) (display_w self) /\
  rect_height (_ensure_min_size self (Some rect))
  = fit_extent (rect_height rect) (display_h self).
Proof.
  intros Hw Hh. destruct rect as [x y w h].
  pose proof (fit_extent_bounds w _ Hw) as Bw.
  pose proof (fit_extent_bounds h _ Hh) as Bh.
  unfold _ensure_min_size.
  rewrite ensure_within_display_axes by (unfold MIN_CROP_SIZE in *; lia).
  cbv beta iota zeta delta [rect_width rect_height].
  destruct (Z.ltb_spec (fit_extent w (display_w self)) MIN_CROP_SIZE); [lia|].
  destruct (Z.ltb_spec (fit_extent h (display_h self)) MIN_CROP_SIZE); [lia|].
  rewrite ensure_within_display_axes by (unfold MIN_CROP_SIZE in *; lia).
  rewrite (fit_extent_fixed (fit_extent w (display_w self))) by lia.
  rewrite (fit_extent_fixed (fit_extent h (display_h self))) by lia.
  split; reflexivity.
Qed.

(** A side that came out of the normaliser strictly between MIN_CROP_SIZE
    and the side of the display went in as it is. *)
Lemma ensure_min_size_strict (self : PreviewPanel) (rect : Rect) :
  MIN_CROP_SIZE < rect_width (_ensure_min_size self (Some rect))
    < display_w self ->
  MIN_CROP_SIZE < rect_height (_ensure_min_size self (Some rect))
    < display_h self ->
  rect_width (_ensure_min_size self (Some rect)) = rect_width rect /\
  rect_height (_ensure_min_size self (Some rect)) = rect_height rect.
Proof.
  intros Hw Hh.
  destruct (ensure_min_size_sides self rect) as (Ew & Eh);
    [unfold MIN_CROP_SIZE in *; lia | unfold MIN_CROP_SIZE in *; lia|].
  rewrite Ew, Eh in *.
  split; apply fit_extent_strict; assumption.
Qed.



(** Which side a locked drag keeps.  A drag that is wider than the ratio
    keeps its height, and its width is derived; any other drag keeps its
    width, and its height is derived. *)
Lemma ratio_rect_derived_side (anchor current : Point) (r : float)
    (raw : Rect) :
  pt_x current <> pt_x anchor -> pt_y current <> pt_y anchor ->
  ratio_rect anchor current r = Ok raw ->
  exists cur,
    Py.int_truediv (Z.abs (pt_x current - pt_x anchor))
      (Z.abs (pt_y current - pt_y anchor)) = Ok cur /\
    if (r <? cur)%float
    then rect_height raw = Z.abs (pt_y current - pt_y anchor) /\
         exists a, Py.round_mul (Z.abs (pt_y current - pt_y anchor)) r = Ok a
                   /\ rect_width raw = Z.abs a
    else rect_width raw = Z.abs (pt_x current - pt_x anchor) /\
         exists b, Py.round_div (Z.abs (pt_x current - pt_x anchor)) r = Ok b
                   /\ rect_height raw = Z.abs b.
Proof.
  intros Hx Hy. unfold ratio_rect. cbv zeta.
  destruct (Z.eqb_spec (Z.abs (pt_y current - pt_y anchor)) 0) as [E|N];
    [lia|]. cbn [bind].
  destruct (Z.eqb_spec (Z.abs (pt_x current - pt_x anchor)) 0) as [E|N'];
    [lia|]. cbn [bind negb]. intros Hr.
  apply bind_Ok in Hr. destruct Hr as (cur & Hcur & Hr).
  rewrite (proj2 (Z.eqb_neq _ _) N) in Hcur. cbn [negb] in Hcur.
  apply bind_Ok in Hr. destruct Hr as (dims & Hd & Hr).
  apply Ok_inj in Hr. subst raw. cbn [rect_width rect_height].
  exists cur. split; [exact Hcur|].
  destruct (r <? cur)%float.
  - apply bind_Ok in Hd. destruct Hd as (a & Ha & Hd).
    apply Ok_inj in Hd. subst dims. cbn [fst snd].
    split; [destruct (pt_y current - pt_y anchor >=? 0); lia|].
    exists a. split; [exact Ha|].
    destruct (pt_x current - pt_x anchor >=? 0); lia.
  - apply bind_Ok in Hd. destruct Hd as (b & Hb & Hd).
    apply Ok_inj in Hd. subst dims. cbn [fst snd].
    split; [destruct (pt_x current - pt_x anchor >=? 0); lia|].
    exists b. split; [exact Hb|].
    destruct (pt_y current - pt_y anchor >=? 0); lia.
Qed.
End LockFacts.

Section ResizeLockFacts.
Context {B : Builtins} {P : Pillow}.




End ResizeLockFacts.




(** The two rectangles miss the tolerance against the exact value of the
    double as they miss it against 16/9 and 1/1: the first has a height
    below 26, the second the height of the display. *)
Example short_and_clamped_miss_tolerance_of_double :
  exact_fraction (Py.Z2F 16 / Py.Z2F 9)%float
  = Some (8006399337547548, 4503599627370496) /\
  ~ ratio_within_tolerance (0, 0, 10, 6) 8006399337547548 4503599627370496 /\
  exact_fraction (Py.Z2F 1 / Py.Z2F 1)%float
  = Some (4503599627370496, 4503599627370496) /\
  ~ ratio_within_tolerance (0, 0, 80, 50) 4503599627370496 4503599627370496.
Proof.
  split; [vm_compute; reflexivity|].
  split; [unfold ratio_within_tolerance; lia|].
  split; [vm_compute; reflexivity|].
  unfold ratio_within_tolerance. lia.
Qed.

(** A resize behaves alike.  Locked at 16:9, dragging the right handle of
    (0, 0, 160, 90) to x = 10 stores (0, 42, 10, 6). *)
Example resize_locked_misses_tolerance :
  let self := Demo.panel 800 600 true "16:9" (Some (0, 0, 160, 90))
                (Some (mkRect 0 0 160 90)) (Some Handle.right) in
  crop_rect (perform self (Resize (mkPoint 10 45))) = Some (0, 42, 10, 6)
  /\ ~ ratio_within_tolerance (0, 42, 10, 6) 16 9.
Proof.
  intros self. split; [vm_compute; reflexivity|].
  unfold ratio_within_tolerance. lia.
Qed.

(** [RescaleCropRect] derives no side from the other: it scales the width
    by the ratio of the display widths and the height by the ratio of the
    display heights, and rounds each. *)
Lemma rescale_rounds_each_side
    {B : Builtins} {P : Pillow} (self self' : PreviewPanel)
    (x y w h x' y' w' h' : Z) :
  crop_rect self = Some (x, y, w, h) ->
  old_display_w self <> 0 -> old_display_h self <> 0 ->
  RescaleCropRect self = Ok self' ->
  crop_rect self' = Some (x', y', w', h') ->
  MIN_CROP_SIZE < w' < display_w self ->
  MIN_CROP_SIZE < h' < display_h self ->
  exists sx sy new_w new_h,
    Py.int_truediv (display_w self) (old_display_w self) = Ok sx /\
    Py.int_truediv (display_h self) (old_display_h self) = Ok sy /\
    Py.int_mul_float w sx = Ok new_w /\ Py.round new_w = Ok w' /\
    Py.int_mul_float h sy = Ok new_h /\ Py.round new_h = Ok h'.
Proof.
  intros Hcrop Hw0 Hh0. unfold RescaleCropRect. rewrite Hcrop.
  destruct (Z.eqb_spec (old_display_w self) 0) as [E|_]; [contradiction|].
  destruct (Z.eqb_spec (old_display_h self) 0) as [E|_]; [contradiction|].
  cbn [orb]. intros Hr.
  apply bind_Ok in Hr. destruct Hr as (half_w & _ & Hr).
  apply bind_Ok in Hr. destruct Hr as (cx_old & _ & Hr).
  apply bind_Ok in Hr. destruct Hr as (half_h & _ & Hr).
  apply bind_Ok in Hr. destruct Hr as (cy_old & _ & Hr).
  apply bind_Ok in Hr. destruct Hr as (sx & Esx & Hr).
  apply bind_Ok in Hr. destruct Hr as (sy & Esy & Hr).
  apply bind_Ok in Hr. destruct Hr as (new_w & Enw & Hr).
  apply bind_Ok in Hr. destruct Hr as (new_h & Enh & Hr).
  cbv zeta in Hr.
  apply bind_Ok in Hr. destruct Hr as (hw & _ & Hr).
  apply bind_Ok in Hr. destruct Hr as (hh & _ & Hr).
  apply bind_Ok in Hr. destruct Hr as (rx & _ & Hr).
  apply bind_Ok in Hr. destruct Hr as (ry & _ & Hr).
  apply bind_Ok in Hr. destruct Hr as (rw & Erw & Hr).
  apply bind_Ok in Hr. destruct Hr as (rh & Erh & Hr).
  apply Ok_inj in Hr. subst self'. cbn [crop_rect set_crop_rect].
  unfold tuple_of_rect. intros Hc Hw Hh.
  apply (f_equal (fun o => match o with
                           | Some (_, _, a, b) => (a, b)
                           | None => (0, 0)
                           end)) in Hc.
  apply pair_equal_spec in Hc. destruct Hc as (Ew & Eh).
  rewrite <- Ew in Hw. rewrite <- Eh in Hh.
  destruct (ensure_min_size_strict self (mkRect rx ry rw rh) Hw Hh)
    as (Ew0 & Eh0).
  cbn [rect_width rect_height] in Ew0, Eh0.
  exists sx, sy, new_w, new_h.
  rewrite <- Ew, <- Eh, Ew0, Eh0.
  repeat split; assumption.
Qed.

(** So a rescale can leave the tolerance with a rectangle of any size,
    after a create that met it.  Locked at 16:9 on a display of 800 x 600,
    a drag from (0, 0) to (102, 590) stores (0, 0, 102, 57), within the
    tolerance; when the display grows to 804 x 603 the rectangle becomes
    (0, 0, 103, 57), and 103/57 is more than 0.02 away from 16/9.  With
    short sides it is the same: from 800 x 600 to 400 x 300,
    (0, 0, 16, 9) becomes (0, 0, 8, 4). *)
Example rescale_locked_misses_tolerance :
  let drawn := perform (Demo.panel 800 600 true "16:9" None None None)
                 (Create (mkPoint 0 0) (mkPoint 102 590)) in
  let grown := mkPreviewPanel Demo.pillow (Some (1600, 1200)) 804 603 800 600
                 (crop_rect drawn) None None true "16:9" in
  let small := mkPreviewPanel Demo.pillow (Some (1600, 1200)) 400 300 800 600
                 (Some (0, 0, 16, 9)) None None true "16:9" in
  (crop_rect drawn = Some (0, 0, 102, 57) /\
   ratio_within_tolerance (0, 0, 102, 57) 16 9 /\
   crop_rect (handled grown (RescaleCropRect grown)) = Some (0, 0, 103, 57) /\
   ~ ratio_within_tolerance (0, 0, 103, 57) 16 9 /\
   ~ ratio_within_tolerance (0, 0, 103, 57)
       8006399337547548 4503599627370496) /\
  (crop_rect (handled small (RescaleCropRect small)) = Some (0, 0, 8, 4) /\
   ~ ratio_within_tolerance (0, 0, 8, 4) 16 9).
Proof.
  cbv zeta. split; [split; [|split; [|split; [|split]]] | split].
  - vm_compute. reflexivity.
  - unfold ratio_within_tolerance. lia.
  - vm_compute. reflexivity.
  - unfold ratio_within_tolerance. lia.
  - unfold ratio_within_tolerance. lia.
  - vm_compute. reflexivity.
  - unfold ratio_within_tolerance. lia.
Qed.

(** ** rfind and splitext *)

Module OsPathFacts.
Import OsPath.

Lemma rfind_range (c : ascii) (p : list ascii) :
  -1 <= rfind c p < Z.of_nat (List.length p).
Proof.
  induction p as [|a p IH]; cbn [rfind List.length]; [lia|].
  destruct (Z.geb_spec (rfind c p) 0); [lia|].
  destruct (Ascii.eqb a c); lia.
Qed.

Lemma rfind_absent (c : ascii) (p : list ascii) :
  ~ In c p -> rfind c p = -1.
Proof.
  induction p as [|a p IH]; cbn [rfind In]; intros Hn; [reflexivity|].
  rewrite IH by tauto. cbn.
  destruct (Ascii.eqb_spec a c) as [E|E]; [|reflexivity].
  exfalso. apply Hn. left. exact E.
Qed.

Lemma rfind_present (c : ascii) (p : list ascii) :
  In c p -> 0 <= rfind c p.
Proof.
  induction p as [|a p IH]; cbn [rfind In]; [tauto|].
  intros [E|Hin].
  - destruct (Z.geb_spec (rfind c p) 0); [lia|].
    subst a. rewrite Ascii.eqb_refl. lia.
  - specialize (IH Hin).
    destruct (Z.geb_spec (rfind c p) 0); lia.
Qed.

Lemma rfind_negative (c : ascii) (p : list ascii) :
  rfind c p < 0 -> ~ In c p.
Proof.
  intros Hlt Hin. apply rfind_present in Hin. lia.
Qed.

Lemma rfind_app_absent (c : ascii) (p s : list ascii) :
  ~ In c s -> rfind c (p ++ s) = rfind c p.
Proof.
  intros Hn. induction p as [|a p IH]; cbn [app rfind].
  - apply rfind_absent; assumption.
  - rewrite IH. reflexivity.
Qed.

Lemma rfind_app_present (c : ascii) (p s : list ascii) :
  0 <= rfind c s ->
  rfind c (p ++ s) = Z.of_nat (List.length p) + rfind c s.
Proof.
  intros Hs. induction p as [|a p IH]; cbn [app rfind List.length].
  - lia.
  - rewrite IH.
    destruct (Z.geb_spec (Z.of_nat (List.length p) + rfind c s) 0); lia.
Qed.

(** At the index [rfind] returns stands the character, and none follows. *)
Lemma rfind_skipn (c : ascii) (p : list ascii) :
  0 <= rfind c p ->
  exists t, skipn (Z.to_nat (rfind c p)) p = c :: t /\ ~ In c t.
Proof.
  induction p as [|a p IH]; cbn [rfind]; [lia|].
  destruct (Z.geb_spec (rfind c p) 0) as [Hge|Hlt].
  - intros _. destruct (IH Hge) as (t & Et & Ht).
    exists t. split; [|exact Ht].
    replace (Z.to_nat (rfind c p + 1)) with (S (Z.to_nat (rfind c p))) by lia.
    exact Et.
  - destruct (Ascii.eqb_spec a c) as [E|E]; [|lia].
    intros _. exists p. subst a. split; [reflexivity|].
    apply rfind_negative. exact Hlt.
Qed.

(** Behind an index larger than [rfind] the character does not occur. *)
Lemma rfind_below (c : ascii) (p : list ascii) (d : nat) :
  rfind c p < Z.of_nat d -> ~ In c (skipn d p).
Proof.
  intros Hlt Hin.
  pose proof (rfind_present c _ Hin) as Hs.
  pose proof (rfind_app_present c (firstn d p) (skipn d p) Hs) as Happ.
  rewrite firstn_skipn in Happ.
  destruct (Nat.le_gt_cases d (List.length p)) as [Hle|Hgt].
  - rewrite length_firstn, Nat.min_l in Happ by exact Hle. lia.
  - rewrite skipn_all2 in Hin by lia. destruct Hin.
Qed.

Lemma name_char_before_app (p s : list ascii) (e : ascii) (n : nat) (i : Z) :
  0 <= i -> i + Z.of_nat n <= Z.of_nat (List.length p) ->
  name_char_before (p ++ s) e i n = name_char_before p e i n.
Proof.
  revert i. induction n as [|n IH]; intros i Hi Hle; cbn [name_char_before];
    [reflexivity|].
  rewrite nth_error_app1 by lia.
  destruct (nth_error p (Z.to_nat i)) as [a|]; [|reflexivity].
  destruct (Ascii.eqb a e); [|reflexivity].
  apply IH; lia.
Qed.

Lemma name_char_before_found (p : list ascii) (e a : ascii) (n : nat) (i j : Z) :
  0 <= i -> i <= j < i + Z.of_nat n ->
  nth_error p (Z.to_nat j) = Some a -> a <> e ->
  name_char_before p e i n = true.
Proof.
  revert i. induction n as [|n IH]; intros i Hi Hj Hnth Hne;
    cbn [name_char_before]; [lia|].
  destruct (nth_error p (Z.to_nat i)) as [b|] eqn:Eb; [|reflexivity].
  destruct (Ascii.eqb_spec b e) as [E|E]; [|reflexivity].
  apply IH; try lia; try assumption.
  destruct (Z.eq_dec i j) as [Eij|Nij]; [|lia].
  subst j. rewrite Hnth in Eb. injection Eb as ->. contradiction.
Qed.

(** The two parts [_splitext] returns make up its argument. *)
Lemma splitext_app (p : list ascii) (sp : ascii) (alt : option ascii) :
  fst (_splitext p sp alt extsep) ++ snd (_splitext p sp alt extsep) = p.
Proof.
  unfold _splitext.
  match goal with |- context [if ?c then _ else _] => destruct c end;
    cbn [fst snd]; [apply firstn_skipn | apply app_nil_r].
Qed.

Lemma sep_index_app_absent (p s : list ascii) (sp : ascii) (alt : option ascii) :
  ~ In sp s -> free_of alt s ->
  sep_index (p ++ s) sp alt = sep_index p sp alt.
Proof.
  intros Hsp Halt. unfold sep_index.
  rewrite (rfind_app_absent sp p s Hsp).
  destruct alt as [a|]; [|reflexivity].
  rewrite (rfind_app_absent a p s Halt). reflexivity.
Qed.

Lemma sep_index_below (p : list ascii) (sp : ascii) (alt : option ascii) (d : nat) :
  sep_index p sp alt < Z.of_nat d ->
  ~ In sp (skipn d p) /\ free_of alt (skipn d p).
Proof.
  unfold sep_index, free_of. intros Hlt.
  destruct alt as [a|].
  - split; apply rfind_below; lia.
  - split; [apply rfind_below; lia | exact I].
Qed.

Lemma sep_index_range (p : list ascii) (sp : ascii) (alt : option ascii) :
  -1 <= sep_index p sp alt.
Proof.
  unfold sep_index. pose proof (rfind_range sp p).
  destruct alt as [a|]; [pose proof (rfind_range a p)|]; lia.
Qed.
End OsPathFacts.

(** ** The output path *)

Module SuffixFacts.
Import OsPath OsPathFacts.

Lemma chars_eqb_eq (a b : list ascii) : chars_eqb a b = true -> a = b.
Proof.
  unfold chars_eqb. destruct (list_eq_dec ascii_dec a b); [tauto|discriminate].
Qed.

Lemma chars_eqb_refl (a : list ascii) : chars_eqb a a = true.
Proof.
  unfold chars_eqb. destruct (list_eq_dec ascii_dec a a); [reflexivity|].
  contradiction.
Qed.

Lemma endswith_app (b s : list ascii) : endswith_chars (b ++ s) s = true.
Proof.
  unfold endswith_chars. rewrite length_app.
  replace (List.length b + List.length s - List.length s)%nat
    with (List.length b) by lia.
  rewrite skipn_app, skipn_all, Nat.sub_diag. cbn [skipn app].
  rewrite chars_eqb_refl, andb_true_r.
  apply Nat.leb_le. lia.
Qed.

Lemma endswith_split (b s : list ascii) :
  endswith_chars b s = true ->
  firstn (List.length b - List.length s) b ++ s = b.
Proof.
  unfold endswith_chars. intros He.
  apply andb_prop in He. destruct He as (_ & He).
  apply chars_eqb_eq in He.
  rewrite <- He at 2. apply firstn_skipn.
Qed.

(** A path whose base already ends with the suffix is left as it is. *)
Lemma add_bc_suffix_chars_fixed (os : flavour) (p : list ascii) :
  endswith_chars (fst (splitext_chars os p)) bc = true ->
  add_bc_suffix_chars os p = p.
Proof.
  intros He. unfold add_bc_suffix_chars.
  pose proof (splitext_app p (sep os) (altsep os)) as Happ.
  fold (splitext_chars os p) in Happ.
  destruct (splitext_chars os p) as [base ext]. cbn [fst snd] in He, Happ.
  rewrite He. rewrite app_assoc.
  change 3%nat with (List.length bc).
  rewrite (endswith_split base bc He). exact Happ.
Qed.

(** Neither separator is a character of the suffix. *)
Lemma sep_not_in_bc (os : flavour) :
  ~ In (sep os) bc /\ free_of (altsep os) bc /\ ~ In extsep bc.
Proof.
  destruct os; cbn; repeat split; intros H;
    repeat (destruct H as [H|H]; [discriminate H|]); exact H.
Qed.

(** Inserting the suffix in front of the extension moves the split point
    by three characters and changes nothing else. *)
Lemma splitext_insert_bc (os : flavour) (p : list ascii) :
  splitext_chars os
    (fst (splitext_chars os p) ++ bc ++ snd (splitext_chars os p))
  = (fst (splitext_chars os p) ++ bc, snd (splitext_chars os p)).
Proof.
  destruct (sep_not_in_bc os) as (Hsep & Halt & Hdot).
  unfold splitext_chars, _splitext.
  fold (sep_index p (sep os) (altsep os)).
  set (s := sep_index p (sep os) (altsep os)).
  set (d := rfind extsep p).
  pose proof (rfind_range extsep p) as Hd. fold d in Hd.
  pose proof (sep_index_range p (sep os) (altsep os)) as Hs. fold s in Hs.
  destruct ((d >? s)
            && name_char_before p extsep (s + 1) (Z.to_nat (d - (s + 1))))
    eqn:Hbranch; cbn [fst snd].
  - (* the path has an extension *)
    apply andb_prop in Hbranch. destruct Hbranch as (Hgt & Hname).
    apply Z.gtb_lt in Hgt.
    assert (Hd0 : 0 <= d) by lia.
    destruct (rfind_skipn extsep p Hd0) as (t & Et & Ht). fold d in Et.
    set (base := firstn (Z.to_nat d) p) in *.
    assert (Lb : List.length base = Z.to_nat d).
    { unfold base. rewrite length_firstn. lia. }
    rewrite Et.
    assert (Hlt : s < Z.of_nat (Z.to_nat d)) by lia.
    destruct (sep_index_below p (sep os) (altsep os) (Z.to_nat d) Hlt)
      as (Hsx & Hax).
    rewrite Et in Hsx, Hax.
    assert (Hp : p = base ++ extsep :: t).
    { rewrite <- Et. unfold base. symmetry. apply firstn_skipn. }
    assert (Es : sep_index (base ++ bc ++ extsep :: t) (sep os) (altsep os)
                 = sep_index base (sep os) (altsep os)).
    { apply sep_index_app_absent.
      - rewrite in_app_iff. tauto.
      - destruct (altsep os) as [a|]; cbn [free_of] in *; [|exact I].
        rewrite in_app_iff. tauto. }
    assert (Es' : s = sep_index base (sep os) (altsep os)).
    { unfold s. rewrite Hp at 1. apply sep_index_app_absent; assumption. }
    fold (sep_index (base ++ bc ++ extsep :: t) (sep os) (altsep os)).
    rewrite Es, <- Es'.
    assert (Ed : rfind extsep (base ++ bc ++ extsep :: t) = d + 3).
    { rewrite app_assoc.
      assert (E0 : rfind extsep (extsep :: t) = 0).
      { cbn [rfind]. rewrite (rfind_absent extsep t Ht).
        rewrite Ascii.eqb_refl. reflexivity. }
      rewrite rfind_app_present by (rewrite E0; lia).
      rewrite E0, length_app, Lb. cbn [bc List.length list_ascii_of_string].
      lia. }
    rewrite Ed.
    assert (Hb1 : (d + 3 >? s) = true) by (apply Z.gtb_lt; lia).
    rewrite Hb1. cbn [andb].
    assert (Hb2 : name_char_before (base ++ bc ++ extsep :: t) extsep (s + 1)
                    (Z.to_nat (d + 3 - (s + 1))) = true).
    { apply (name_char_before_found _ extsep "_"%char _ (s + 1) d);
        try lia.
      - rewrite nth_error_app2 by lia.
        rewrite Lb, Nat.sub_diag. reflexivity.
      - discriminate. }
    rewrite Hb2.
    replace (Z.to_nat (d + 3)) with (List.length (base ++ bc)%list)
      by (rewrite length_app, Lb; cbn [bc List.length list_ascii_of_string]; lia).
    rewrite app_assoc.
    rewrite firstn_app, firstn_all, Nat.sub_diag. cbn [firstn].
    rewrite skipn_app, skipn_all, Nat.sub_diag. cbn [skipn app].
    rewrite app_nil_r. reflexivity.
  - (* the path has no extension *)
    rewrite app_nil_r.
    fold (sep_index (p ++ bc) (sep os) (altsep os)).
    rewrite (sep_index_app_absent p bc _ _ Hsep Halt). fold s.
    rewrite (rfind_app_absent extsep p bc Hdot). fold d.
    destruct (Z.gtb_spec d s) as [Hgt|Hle]; cbn [andb] in Hbranch |- *;
      [|reflexivity].
    rewrite name_char_before_app by lia.
    rewrite Hbranch. reflexivity.
Qed.

Lemma add_bc_suffix_chars_idempotent (os : flavour) (p : list ascii) :
  add_bc_suffix_chars os (add_bc_suffix_chars os p)
  = add_bc_suffix_chars os p.
Proof.
  destruct (endswith_chars (fst (splitext_chars os p)) bc) eqn:He.
  - rewrite (add_bc_suffix_chars_fixed os p He).
    apply add_bc_suffix_chars_fixed. exact He.
  - assert (Eq : add_bc_suffix_chars os p
                 = fst (splitext_chars os p) ++ bc ++ snd (splitext_chars os p)).
    { unfold add_bc_suffix_chars.
      destruct (splitext_chars os p) as [base ext]. cbn [fst snd] in He |- *.
      rewrite He. reflexivity. }
    rewrite Eq.
    apply add_bc_suffix_chars_fixed.
    rewrite splitext_insert_bc. cbn [fst].
    apply endswith_app.
Qed.
End SuffixFacts.

(** C8: [add_bc_suffix] is idempotent, with [posixpath] and with [ntpath]:
    a name that already carries the suffix is not given a second one. *)
Theorem add_bc_suffix_idempotent (os : OsPath.flavour) (p : string) :
  add_bc_suffix os (add_bc_suffix os p) = add_bc_suffix os p.
Proof.
  unfold add_bc_suffix.
  rewrite list_ascii_of_string_of_list_ascii.
  rewrite SuffixFacts.add_bc_suffix_chars_idempotent.
  reflexivity.
Qed.

Example add_bc_suffix_examples :
  add_bc_suffix OsPath.nt "C:\shots\a.PNG" = "C:\shots\a_bc.PNG"%string /\
  add_bc_suffix OsPath.nt "C:\shots\a_bc.PNG" = "C:\shots\a_bc.PNG"%string /\
  add_bc_suffix OsPath.posix "dir.d/scan" = "dir.d/scan_bc"%string /\
  add_bc_suffix OsPath.posix ".hidden" = ".hidden_bc"%string.
Proof. repeat split; reflexivity. Qed.

(** ** The session: batch crop *)

Section TrimFacts.
Context {B : Builtins} {P : Pillow} {H : Host}.

Lemma GetValidatedBox_invalid (u : UI) :
  box_invalid u ->
  exists m, GetValidatedBox u = (notify u m, None)
            /\ (m = coords_not_integer \/ m = coords_out_of_order).
Proof.
  unfold GetValidatedBox.
  intros [(k & Hk) | (vxs & vys & vxe & vye & E1 & E2 & E3 & E4 & Hord)].
  - destruct (int_of_str (GetValue u xs)) as [a|] eqn:Ea;
      [|exists coords_not_integer; split; [reflexivity | left; reflexivity]].
    destruct (int_of_str (GetValue u ys)) as [b|] eqn:Eb;
      [|exists coords_not_integer; split; [reflexivity | left; reflexivity]].
    destruct (int_of_str (GetValue u xe)) as [c|] eqn:Ec;
      [|exists coords_not_integer; split; [reflexivity | left; reflexivity]].
    destruct (int_of_str (GetValue u ye)) as [d|] eqn:Ed;
      [|exists coords_not_integer; split; [reflexivity | left; reflexivity]].
    destruct k; congruence.
  - rewrite E1, E2, E3, E4.
    assert (Eo : (vxe <=? vxs) || (vye <=? vys) = true).
    { apply orb_true_iff.
      destruct Hord; [left | right]; apply Z.leb_le; assumption. }
    rewrite Eo. exists coords_out_of_order.
    split; [reflexivity | right; reflexivity].
Qed.

Lemma GetValidatedBox_valid (u : UI) (box : tuple4) :
  box_valid u box -> GetValidatedBox u = (u, Some box).
Proof.
  destruct box as [[[vxs vys] vxe] vye]. unfold box_valid, GetValidatedBox.
  intros (E1 & E2 & E3 & E4 & Hx & Hy).
  rewrite E1, E2, E3, E4.
  destruct (Z.leb_spec vxe vxs); [lia|].
  destruct (Z.leb_spec vye vys); [lia|].
  reflexivity.
Qed.

(** The loop of [OnTrimAll] computes a batch crop in the sense of
    [trims]. *)
Lemma trim_loop_trims (self : MainFrame) (box : tuple4)
    (docs : list (string * Image)) (acc : batch) :
  exists out,
    trims box (b_fs acc) docs (b_fs (trim_loop self box docs acc)) out /\
    new_paths (trim_loop self box docs acc) = new_paths acc ++ map fst out /\
    new_images (trim_loop self box docs acc) = new_images acc ++ map snd out /\
    b_ui (trim_loop self box docs acc) = b_ui acc.
Proof.
  revert acc. induction docs as [|[path img] docs IH]; intros acc.
  - exists []. cbn. rewrite !app_nil_r. repeat split. constructor.
  - change (trim_loop self box ((path, img) :: docs) acc)
      with (trim_loop self box docs (trim_one self box acc (path, img))).
    destruct (trim_save_reload (b_fs acc) box path
                (add_bc_suffix os_name path) img) as [f' [reopened|]] eqn:Et.
    + set (acc1 := trim_one self box acc (path, img)).
      assert (H1 : b_fs acc1 = f' /\
                   new_paths acc1 = new_paths acc ++ [add_bc_suffix os_name path] /\
                   new_images acc1 = new_images acc ++ [reopened] /\
                   b_ui acc1 = b_ui acc).
      { unfold acc1, trim_one. rewrite Et.
        destruct (index_of path (file_paths self)) as [i|];
          [destruct (nth_error (reduced_flags self) i)|];
          repeat split; reflexivity. }
      destruct H1 as (Ef & Ep & Ei & Eu).
      destruct (IH acc1) as (out & Ht & Hp & Hi & Hu).
      exists ((add_bc_suffix os_name path, reopened) :: out).
      rewrite Hp, Hi, Hu, Ep, Ei, Eu, <- !app_assoc. cbn [map fst snd app].
      repeat split.
      eapply trims_kept; [exact Et|]. rewrite <- Ef. exact Ht.
    + set (acc1 := trim_one self box acc (path, img)).
      assert (H1 : b_fs acc1 = f' /\ new_paths acc1 = new_paths acc /\
                   new_images acc1 = new_images acc /\ b_ui acc1 = b_ui acc).
      { unfold acc1, trim_one. rewrite Et. repeat split; reflexivity. }
      destruct H1 as (Ef & Ep & Ei & Eu).
      destruct (IH acc1) as (out & Ht & Hp & Hi & Hu).
      exists out. rewrite Hp, Hi, Hu, Ep, Ei, Eu.
      repeat split.
      eapply trims_skipped; [exact Et|]. rewrite <- Ef. exact Ht.
Qed.
End TrimFacts.

(** C4: [OnTrimAll] with an invalid crop box (a field that is not an
    integer, [xe <= xs] or [ye <= ys]) shows the validation message and
    changes neither the session nor the files.  With a valid box every
    document is treated on its own: the failed ones are skipped, the others
    are still processed, and the session then holds exactly the outputs of
    the documents that succeeded; when none succeeded, paths, images, flags
    and history are as before. *)
Theorem OnTrimAll_isolates_failures
    {B : Builtins} {P : Pillow} {H : Host} (self : MainFrame) :
  (box_invalid (ui self) ->
   same_session (OnTrimAll self) self /\ fs (OnTrimAll self) = fs self /\
   exists m, ui (OnTrimAll self) = notify (ui self) m
             /\ (m = coords_not_integer \/ m = coords_out_of_order))
  /\
  (forall box, box_valid (ui self) box ->
   exists out,
     trims box (fs self) (combine (file_paths self) (images self))
       (fs (OnTrimAll self)) out /\
     (out = [] -> same_session (OnTrimAll self) self) /\
     (out <> [] ->
      file_paths (OnTrimAll self) = map fst out /\
      images (OnTrimAll self) = map snd out)).
Proof.
  split.
  - intros Hinv.
    destruct (GetValidatedBox_invalid (ui self) Hinv) as (m & Eg & Hm).
    unfold OnTrimAll. rewrite Eg.
    split; [repeat split|]. split; [reflexivity|].
    exists m. split; [reflexivity | exact Hm].
  - intros box Hval.
    unfold OnTrimAll. rewrite (GetValidatedBox_valid (ui self) box Hval).
    destruct (trim_loop_trims self box (combine (file_paths self) (images self))
                (mkBatch (fs self) (ui self) [] [] []))
      as (out & Ht & Hp & Hi & Hu).
    cbn [b_fs new_paths new_images b_ui app] in Ht, Hp, Hi, Hu.
    exists out.
    destruct (new_images
                (trim_loop self box (combine (file_paths self) (images self))
                   (mkBatch (fs self) (ui self) [] [] []))) as [|im ims] eqn:En.
    + split; [exact Ht|]. split.
      * intros _. repeat split.
      * intros Hne. destruct out as [|o out]; [contradiction | discriminate Hi].
    + split.
      * unfold commit, UpdateUI, fix_selected_index.
        match goal with |- context [if ?c then _ else _] => destruct c end;
          exact Ht.
      * split.
        -- intros ->. discriminate Hi.
        -- intros _. unfold commit, UpdateUI, fix_selected_index.
           match goal with |- context [if ?c then _ else _] => destruct c end;
             cbn; (split; [exact Hp | rewrite En; exact Hi]).
Qed.

Lemma OnTrimAll_isolates_failures_witness :
  let self := Demo.frame ["a.png"; "b.jpg"; "c.png"]%string ["b.jpg"%string]
                (Demo.box_texts "0" "0" "10" "20") in
  exists out,
    trims (0, 0, 10, 20) (fs self) (combine (file_paths self) (images self))
      (fs (OnTrimAll self)) out /\
    (out = [] -> same_session (OnTrimAll self) self) /\
    (out <> [] ->
     file_paths (OnTrimAll self) = map fst out /\
     images (OnTrimAll self) = map snd out).
Proof.
  intros self.
  apply (proj2 (OnTrimAll_isolates_failures self) (0, 0, 10, 20)).
  repeat split.
Defined.

(** Three documents, the second of which cannot be saved: the session
    holds the two outputs, and one snapshot of them. *)
Example OnTrimAll_second_fails :
  let self := Demo.frame ["a.png"; "b.jpg"; "c.png"]%string ["b.jpg"%string]
                (Demo.box_texts "0" "0" "10" "20") in
  file_paths (OnTrimAll self) = ["a_bc.png"; "c_bc.png"]%string /\
  images (OnTrimAll self) = [(10, 20); (10, 20)] /\
  List.length (history (OnTrimAll self)) = 1%nat.
Proof. vm_compute. repeat split. Qed.

(** ** The session: history *)

Section HistoryFacts.
Context {B : Builtins} {P : Pillow} {H : Host}.

Lemma push_snapshot_history (self : MainFrame) (s : Snapshot) :
  history (push_snapshot self s)
  = if Z.of_nat (List.length (history self ++ [s])) >? MAX_HISTORY
    then tl (history self ++ [s]) else history self ++ [s].
Proof.
  destruct s as [ps ims fl]. reflexivity.
Qed.

(** The last [MAX_HISTORY] elements of a list. *)
Lemma push_snapshot_last (self : MainFrame) (s : Snapshot) :
  Z.of_nat (List.length (history self)) <= MAX_HISTORY ->
  history (push_snapshot self s)
  = skipn (List.length (history self ++ [s]) - 10) (history self ++ [s]).
Proof.
  unfold MAX_HISTORY. intros Hlen. rewrite push_snapshot_history.
  unfold MAX_HISTORY. rewrite length_app. cbn [List.length].
  destruct (Z.gtb_spec (Z.of_nat (List.length (history self) + 1)) 10) as [Hgt|Hle].
  - replace (List.length (history self) + 1 - 10)%nat with 1%nat by lia.
    reflexivity.
  - replace (List.length (history self) + 1 - 10)%nat with 0%nat by lia.
    reflexivity.
Qed.

Lemma skipn_skipn_last {A : Type} (l : list A) (s : A) (ss : list A) :
  (List.length l <= 10)%nat ->
  skipn (List.length (skipn (List.length (l ++ [s]) - 10) (l ++ [s]) ++ ss) - 10)
        (skipn (List.length (l ++ [s]) - 10) (l ++ [s]) ++ ss)
  = skipn (List.length (l ++ s :: ss) - 10) (l ++ s :: ss).
Proof.
  intros Hlen.
  destruct (Nat.eq_dec (List.length l) 10) as [E|N].
  - destruct l as [|a l]; [discriminate E|].
    assert (E1 : (List.length ((a :: l) ++ [s]) - 10 = 1)%nat).
    { rewrite length_app. cbn [List.length] in *. lia. }
    rewrite E1. cbn [app skipn].
    assert (E2 : (List.length (a :: l ++ s :: ss) - 10
                  = S (List.length ((l ++ [s]) ++ ss) - 10))%nat).
    { cbn [List.length] in *. rewrite !length_app. cbn [List.length]. lia. }
    rewrite E2. cbn [skipn]. rewrite <- app_assoc. reflexivity.
  - assert (E1 : (List.length (l ++ [s]) - 10 = 0)%nat).
    { rewrite length_app. cbn [List.length]. lia. }
    rewrite E1. cbn [skipn]. rewrite <- app_assoc. reflexivity.
Qed.

Lemma push_all_last (ss : list Snapshot) (self : MainFrame) :
  Z.of_nat (List.length (history self)) <= MAX_HISTORY ->
  history (push_all self ss)
  = skipn (List.length (history self ++ ss) - 10) (history self ++ ss).
Proof.
  revert self. induction ss as [|s ss IH]; intros self Hlen.
  - cbn [push_all fold_left]. rewrite app_nil_r.
    unfold MAX_HISTORY in Hlen.
    replace (List.length (history self) - 10)%nat with 0%nat by lia.
    reflexivity.
  - change (push_all self (s :: ss)) with (push_all (push_snapshot self s) ss).
    rewrite IH.
    + rewrite (push_snapshot_last self s Hlen).
      apply skipn_skipn_last. unfold MAX_HISTORY in Hlen. lia.
    + rewrite (push_snapshot_last self s Hlen).
      rewrite length_skipn. unfold MAX_HISTORY. lia.
Qed.
End HistoryFacts.

(** C5: after any sequence of snapshot pushes the history holds the last
    MAX_HISTORY (= 10) of the snapshots it was given, in their order, so the
    oldest ones are the ones discarded; pushing MAX_HISTORY + 1 snapshots
    on an empty history leaves exactly the last MAX_HISTORY. *)
Theorem history_bounded_fifo
    {B : Builtins} {P : Pillow} {H : Host}
    (self : MainFrame) (ss : list Snapshot) :
  Z.of_nat (List.length (history self)) <= MAX_HISTORY ->
  history (push_all self ss)
  = skipn (List.length (history self ++ ss) - Z.to_nat MAX_HISTORY)
          (history self ++ ss)
  /\ Z.of_nat (List.length (history (push_all self ss))) <= MAX_HISTORY
  /\ (history self = [] ->
      Z.of_nat (List.length ss) = MAX_HISTORY + 1 ->
      history (push_all self ss) = tl ss
      /\ Z.of_nat (List.length (history (push_all self ss))) = MAX_HISTORY).
Proof.
  intros Hlen.
  pose proof (push_all_last ss self Hlen) as Hl.
  change (Z.to_nat MAX_HISTORY) with 10%nat.
  split; [exact Hl|]. split.
  - rewrite Hl, length_skipn. unfold MAX_HISTORY. lia.
  - intros Hempty Hn. rewrite Hl, Hempty. cbn [app].
    unfold MAX_HISTORY in Hn.
    replace (List.length ss - 10)%nat with 1%nat by lia.
    destruct ss as [|s ss]; [cbn in Hn; lia|].
    cbn [skipn tl]. split; [reflexivity|].
    cbn [List.length] in Hn. unfold MAX_HISTORY. lia.
Qed.

Lemma history_bounded_fifo_witness :
  let self := Demo.frame [] [] (Demo.box_texts "" "" "" "") in
  let ss := map (fun n => mkSnapshot Demo.pillow [] [(n, n)] [])
              [1; 2; 3; 4; 5; 6; 7; 8; 9; 10; 11] in
  history (push_all self ss)
  = skipn (List.length (history self ++ ss) - Z.to_nat MAX_HISTORY)
          (history self ++ ss)
  /\ Z.of_nat (List.length (history (push_all self ss))) <= MAX_HISTORY
  /\ (history self = [] ->
      Z.of_nat (List.length ss) = MAX_HISTORY + 1 ->
      history (push_all self ss) = tl ss
      /\ Z.of_nat (List.length (history (push_all self ss))) = MAX_HISTORY).
Proof.
  intros self ss.
  apply (history_bounded_fifo self ss).
  vm_compute. discriminate.
Defined.

(** C6 (as amended): [OnRevertAll] returns no value, [None], on every
    path.  With fewer than two snapshots it changes nothing; otherwise it
    discards the most recent snapshot and makes the paths, images and flags
    of the new top snapshot the current ones. *)
Theorem OnRevertAll_restores_previous
    {B : Builtins} {P : Pillow} {H : Host} (self : MainFrame) :
  snd (OnRevertAll self) = PyNone
  /\ (Z.of_nat (List.length (history self)) < 2 ->
      fst (OnRevertAll self) = self)
  /\ (forall older previous latest,
        history self = older ++ [previous; latest] ->
        history (fst (OnRevertAll self)) = older ++ [previous] /\
        file_paths (fst (OnRevertAll self)) = paths previous /\
        images (fst (OnRevertAll self)) = snap_images previous /\
        reduced_flags (fst (OnRevertAll self)) = flags previous).
Proof.
  split; [|split].
  - unfold OnRevertAll.
    destruct (Z.of_nat (List.length (history self)) <? 2); [reflexivity|].
    destruct (rev (removelast (history self))); reflexivity.
  - intros Hlt. unfold OnRevertAll.
    destruct (Z.ltb_spec (Z.of_nat (List.length (history self))) 2);
      [reflexivity | lia].
  - intros older previous latest Hh. unfold OnRevertAll.
    assert (Hlen : (Z.of_nat (List.length (history self)) <? 2) = false).
    { apply Z.ltb_ge. rewrite Hh, length_app. cbn [List.length]. lia. }
    rewrite Hlen.
    assert (Hrm : removelast (history self) = older ++ [previous]).
    { rewrite Hh.
      change (older ++ [previous; latest])
        with (older ++ [previous] ++ [latest]).
      rewrite app_assoc. apply removelast_last. }
    rewrite Hrm, rev_app_distr. cbn [rev app].
    unfold UpdateUI, fix_selected_index.
    match goal with |- context [if ?c then _ else _] => destruct c end;
      repeat split.
Qed.

Lemma OnRevertAll_restores_previous_witness :
  let base := mkSnapshot Demo.pillow ["a.png"%string] [(640, 480)] [false] in
  let cut := mkSnapshot Demo.pillow ["a_bc.png"%string] [(10, 20)] [false] in
  let self := mkMainFrame Demo.pillow Demo.host ["a_bc.png"%string] [(10, 20)]
                [base; cut] [false] 0
                (Demo.mkWidgets (Demo.box_texts "0" "0" "10" "20") []) [] in
  history (fst (OnRevertAll self)) = [] ++ [base] /\
  file_paths (fst (OnRevertAll self)) = paths base /\
  images (fst (OnRevertAll self)) = snap_images base /\
  reduced_flags (fst (OnRevertAll self)) = flags base.
Proof.
  intros base cut self.
  apply (proj2 (proj2 (OnRevertAll_restores_previous self)) [] base cut).
  reflexivity.
Defined.

(** [OnRevertAll] hands no boolean to its caller: with an empty history it
    returns [None], as it does after a successful undo, and [None] is not
    [False]. *)
Lemma OnRevertAll_returns_no_bool :
  let self := Demo.frame [] [] (Demo.box_texts "" "" "" "") in
  Z.of_nat (List.length (history self)) < 2 /\
  fst (OnRevertAll self) = self /\
  snd (OnRevertAll self) = PyNone /\
  snd (OnRevertAll self) <> PyBool false.
Proof.
  intros self. split; [cbn; lia|]. split; [reflexivity|].
  split; [reflexivity|]. discriminate.
Qed.

(** ** The session: loading files *)

Section LoadFacts.
Context {B : Builtins} {P : Pillow} {H : Host}.

Lemma str_in_In (x : string) (l : list string) :
  str_in x l = true <-> In x l.
Proof.
  unfold str_in. rewrite existsb_exists. split.
  - intros (y & Hy & E). apply String.eqb_eq in E. subst y. exact Hy.
  - intros Hin. exists x. split; [exact Hin | apply String.eqb_refl].
Qed.

Lemma add_file_paths (self : MainFrame) (p : string) :
  file_paths (add_file self p) = file_paths self ++ appended self p /\
  List.length (images (add_file self p))
  = (List.length (images self) + List.length (appended self p))%nat /\
  List.length (reduced_flags (add_file self p))
  = (List.length (reduced_flags self) + List.length (appended self p))%nat.
Proof.
  unfold add_file, appended.
  destruct (str_in (ext_lower p) IMAGE_EXTS && negb (str_in p (file_paths self))).
  - destruct (Image_open (fs self) p); cbn;
      rewrite ?app_nil_r, ?length_app; cbn; repeat split; lia.
  - cbn. rewrite app_nil_r. repeat split; lia.
Qed.

Lemma appended_spec (self : MainFrame) (p q : string) :
  In q (appended self p) ->
  q = p /\ str_in (ext_lower q) IMAGE_EXTS = true /\ ~ In q (file_paths self).
Proof.
  unfold appended.
  destruct (str_in (ext_lower p) IMAGE_EXTS) eqn:Ee; cbn [andb];
    [|intros []].
  destruct (str_in p (file_paths self)) eqn:Ep; cbn [negb]; [intros []|].
  destruct (Image_open (fs self) p); [|intros []].
  intros [<-|[]]. split; [reflexivity|]. split; [exact Ee|].
  intros Hin. apply str_in_In in Hin. congruence.
Qed.

Lemma appended_NoDup (self : MainFrame) (p : string) :
  NoDup (appended self p).
Proof.
  unfold appended.
  destruct (str_in (ext_lower p) IMAGE_EXTS
            && negb (str_in p (file_paths self)));
    [destruct (Image_open (fs self) p)|]; repeat constructor.
  intros [].
Qed.

Lemma add_files_loop (ps : list string) (self : MainFrame) :
  exists added,
    file_paths (fold_left add_file ps self) = file_paths self ++ added /\
    List.length (images (fold_left add_file ps self))
    = (List.length (images self) + List.length added)%nat /\
    List.length (reduced_flags (fold_left add_file ps self))
    = (List.length (reduced_flags self) + List.length added)%nat /\
    NoDup added /\
    forall q, In q added ->
      In q ps /\ str_in (ext_lower q) IMAGE_EXTS = true
      /\ ~ In q (file_paths self).
Proof.
  revert self. induction ps as [|p ps IH]; intros self.
  - exists []. cbn [fold_left List.length]. rewrite app_nil_r, !Nat.add_0_r.
    split; [reflexivity|]. split; [reflexivity|]. split; [reflexivity|].
    split; [constructor|]. intros q [].
  - cbn [fold_left].
    destruct (add_file_paths self p) as (Ep & Ei & Ef).
    destruct (IH (add_file self p)) as (added & Hp & Hi & Hf & Hnd & Hall).
    exists (appended self p ++ added).
    split; [rewrite Hp, Ep, <- app_assoc; reflexivity|].
    split; [rewrite Hi, Ei, length_app; lia|].
    split; [rewrite Hf, Ef, length_app; lia|].
    split.
    + apply NoDup_app; [apply appended_NoDup | exact Hnd |].
      intros q Hq Hq'.
      destruct (Hall q Hq') as (_ & _ & Hn).
      apply Hn. rewrite Ep. apply in_or_app. right. exact Hq.
    + intros q Hq. apply in_app_or in Hq. destruct Hq as [Hq|Hq].
      * apply appended_spec in Hq. destruct Hq as (-> & He & Hn).
        split; [left; reflexivity|]. split; assumption.
      * destruct (Hall q Hq) as (Hin & He & Hn).
        split; [right; exact Hin|]. split; [exact He|].
        intros Hq0. apply Hn. rewrite Ep. apply in_or_app. left. exact Hq0.
Qed.

(** The documents after [AddFiles] are the ones its loop leaves, on both
    exits. *)
Lemma AddFiles_documents (self : MainFrame) (ps : list string) :
  file_paths (AddFiles self ps) = file_paths (fold_left add_file ps self) /\
  images (AddFiles self ps) = images (fold_left add_file ps self) /\
  reduced_flags (AddFiles self ps)
  = reduced_flags (fold_left add_file ps self).
Proof.
  unfold AddFiles. cbv zeta.
  destruct (images (fold_left add_file ps self)) as [|img ims] eqn:E.
  - rewrite E. repeat split.
  - destruct (images_load (set_history (fold_left add_file ps self) []));
      cbn; rewrite ?E; repeat split.
Qed.
End LoadFacts.

(** C9 (as amended): [AddFiles] appends a document only for a path of the
    list it is given whose lower-cased extension is one of .jpg, .jpeg,
    .png, .bmp, .tiff, .tif and which the session does not hold yet; the
    appended paths are pairwise distinct, one image and one flag come with
    each, and a path list without duplicates stays without duplicates. *)
Theorem AddFiles_adds_new_images_only
    {B : Builtins} {P : Pillow} {H : Host}
    (self : MainFrame) (ps : list string) :
  exists added,
    file_paths (AddFiles self ps) = file_paths self ++ added /\
    List.length (images (AddFiles self ps))
    = (List.length (images self) + List.length added)%nat /\
    List.length (reduced_flags (AddFiles self ps))
    = (List.length (reduced_flags self) + List.length added)%nat /\
    NoDup added /\
    (forall q, In q added ->
       In q ps /\ In (ext_lower q) IMAGE_EXTS /\ ~ In q (file_paths self)) /\
    (NoDup (file_paths self) -> NoDup (file_paths (AddFiles self ps))).
Proof.
  destruct (add_files_loop ps self) as (added & Hp & Hi & Hf & Hnd & Hall).
  exists added.
  destruct (AddFiles_documents self ps) as (Ep & Ei & Ef).
  rewrite Ep, Ei, Ef.
  split; [exact Hp|]. split; [exact Hi|]. split; [exact Hf|].
  split; [exact Hnd|]. split.
  - intros q Hq. destruct (Hall q Hq) as (Hin & He & Hn).
    split; [exact Hin|]. split; [apply str_in_In; exact He | exact Hn].
  - intros Hnd0. rewrite Hp. apply NoDup_app; [exact Hnd0 | exact Hnd |].
    intros q Hq Hq'. destruct (Hall q Hq') as (_ & _ & Hn). exact (Hn Hq).
Qed.

Lemma AddFiles_adds_new_images_only_witness :
  let self := Demo.frame ["a.png"%string] [] (Demo.box_texts "" "" "" "") in
  NoDup (file_paths
           (AddFiles self ["a.png"; "B.JPG"; "notes.txt"; "B.JPG"]%string)).
Proof.
  intros self.
  destruct (AddFiles_adds_new_images_only self
              ["a.png"; "B.JPG"; "notes.txt"; "B.JPG"]%string)
    as (added & _ & _ & _ & _ & _ & Hkeep).
  apply Hkeep. repeat constructor. intros [].
Defined.

(** The path list can hold a path twice all the same: [OnTrimAll]
    replaces every path by [add_bc_suffix] of it, so that a.png and
    a_bc.png, loaded together, both become a_bc.png.  [AddFiles] adds to
    such a list as it does to any other, and leaves the duplicate. *)
Lemma AddFiles_leaves_duplicate_paths :
  let start := Demo.frame [] [] (Demo.box_texts "10" "20" "110" "220") in
  let loaded := AddFiles start ["a.png"; "a_bc.png"]%string in
  let cropped := OnTrimAll loaded in
  let again := AddFiles cropped ["a_bc.png"; "c.png"]%string in
  file_paths loaded = ["a.png"; "a_bc.png"]%string /\
  file_paths cropped = ["a_bc.png"; "a_bc.png"]%string /\
  file_paths again = ["a_bc.png"; "a_bc.png"; "c.png"]%string /\
  ~ NoDup (file_paths again).
Proof.
  cbv zeta. split; [vm_compute; reflexivity|].
  split; [vm_compute; reflexivity|].
  assert (E : file_paths
                (AddFiles
                   (OnTrimAll
                      (AddFiles
                         (Demo.frame [] []
                            (Demo.box_texts "10" "20" "110" "220"))
                         ["a.png"; "a_bc.png"]%string))
                   ["a_bc.png"; "c.png"]%string)
              = ["a_bc.png"; "a_bc.png"; "c.png"]%string)
    by (vm_compute; reflexivity).
  split; [exact E|]. rewrite E. intros Hnd.
  apply NoDup_cons_iff in Hnd. destruct Hnd as (Hin & _).
  apply Hin. left. reflexivity.
Qed.

Example AddFiles_example :
  let self := Demo.frame ["a.png"%string] [] (Demo.box_texts "" "" "" "") in
  file_paths (AddFiles self ["a.png"; "B.JPG"; "notes.txt"; "B.JPG"]%string)
  = ["a.png"; "B.JPG"]%string.
Proof. vm_compute. reflexivity. Qed.

(** ** The session: PNG colour reduction *)

(** C10: unless the session holds at least one path and every path has the
    extension .png, [OnPngReduce] shows a message and leaves paths, images,
    flags, history, selection and files as they were. *)
Theorem OnPngReduce_needs_png_only
    {B : Builtins} {P : Pillow} {H : Host} (self : MainFrame) :
  file_paths self = []
  \/ (exists p, In p (file_paths self) /\ is_png p = false) ->
  same_session (OnPngReduce self) self /\
  fs (OnPngReduce self) = fs self /\
  exists m, ui (OnPngReduce self) = notify (ui self) m
            /\ (m = nothing_to_reduce \/ m = png_only).
Proof.
  intros Hcase. unfold OnPngReduce.
  destruct (file_paths self) as [|p0 ps] eqn:Ep.
  - split; [repeat split; symmetry; exact Ep|]. split; [reflexivity|].
    exists nothing_to_reduce. split; [reflexivity | left; reflexivity].
  - destruct Hcase as [Hnil | (p & Hin & Hp)]; [discriminate Hnil|].
    assert (Hf : In p (filter (fun q => negb (is_png q)) (p0 :: ps))).
    { apply filter_In. split; [exact Hin | rewrite Hp; reflexivity]. }
    destruct (filter (fun q => negb (is_png q)) (p0 :: ps)) as [|q qs];
      [destruct Hf|].
    split; [repeat split; symmetry; exact Ep|]. split; [reflexivity|].
    exists png_only. split; [reflexivity | right; reflexivity].
Qed.

Lemma OnPngReduce_needs_png_only_witness :
  let self := Demo.frame ["a.png"; "b.JPG"]%string []
                (Demo.box_texts "" "" "" "") in
  same_session (OnPngReduce self) self /\
  fs (OnPngReduce self) = fs self /\
  exists m, ui (OnPngReduce self) = notify (ui self) m
            /\ (m = nothing_to_reduce \/ m = png_only).
Proof.
  intros self.
  apply (OnPngReduce_needs_png_only self).
  right. exists "b.JPG"%string. split; [right; left; reflexivity|].
  vm_compute. reflexivity.
Defined.

(** With PNG files only, the reduction goes through and is recorded. *)
Example OnPngReduce_all_png :
  let self := Demo.frame ["a.png"; "b.PNG"]%string []
                (Demo.box_texts "" "" "" "") in
  file_paths (OnPngReduce self) = ["a_bc.png"; "b_bc.PNG"]%string /\
  reduced_flags (OnPngReduce self) = [true; true] /\
  List.length (history (OnPngReduce self)) = 1%nat.
Proof. vm_compute. repeat split. Qed.

(** ** More on the normaliser *)

Lemma fit_extent_idempotent (len d : Z) :
  fit_extent (fit_extent len d) d = fit_extent len d.
Proof.
  unfold fit_extent, MIN_CROP_SIZE. rewrite !Z.gtb_ltb.
  destruct (Z.ltb_spec d len);
    destruct (Z.ltb_spec d (Z.max 4 d));
    destruct (Z.ltb_spec d (Z.max 4 len)); lia.
Qed.

Lemma fit_origin_idempotent (v len d : Z) :
  0 < d ->
  fit_origin (fit_origin v len d) (fit_extent len d) d = fit_origin v len d.
Proof.
  intros Hd. destruct (Z.le_gt_cases MIN_CROP_SIZE d) as [H4|H4].
  - pose proof (fit_extent_bounds len d H4).
    pose proof (fit_origin_bounds v len d H4).
    apply fit_origin_fixed; lia.
  - assert (Ee : fit_extent len d = 4).
    { unfold fit_extent, MIN_CROP_SIZE in *. rewrite Z.gtb_ltb.
      destruct (Z.ltb_spec d len); lia. }
    assert (Eo : fit_origin v len d = 0).
    { unfold fit_origin, MIN_CROP_SIZE in *. cbv zeta. lia. }
    rewrite Ee, Eo. unfold fit_origin, MIN_CROP_SIZE in *. cbv zeta.
    rewrite !Z.gtb_ltb.
    destruct (Z.ltb_spec d 4); [|lia].
    destruct (Z.ltb_spec 0 0); [lia|].
    destruct (Z.ltb_spec d (0 + d - 1)); lia.
Qed.

Section NormaliserFacts.
Context {B : Builtins} {P : Pillow}.

Lemma ensure_within_display_degenerate (self : PreviewPanel) (rect : Rect) :
  (display_w self <=? 0) || (display_h self <=? 0) = true ->
  _ensure_within_display self (Some rect) = Rect0.
Proof.
  intros Eg. cbv beta delta [_ensure_within_display]. cbv iota.
  rewrite Eg. reflexivity.
Qed.

Lemma display_cases (self : PreviewPanel) :
  (display_w self <=? 0) || (display_h self <=? 0) = true \/
  (0 < display_w self /\ 0 < display_h self).
Proof.
  destruct (Z.leb_spec (display_w self) 0); [left; reflexivity|].
  destruct (Z.leb_spec (display_h self) 0); [left; reflexivity|].
  right; split; assumption.
Qed.
End NormaliserFacts.

(** X1: [_ensure_within_display] is idempotent: applied to its own result
    for a rectangle it returns that result, on every display, also an empty
    one. *)
Theorem ensure_within_display_idempotent
    {B : Builtins} {P : Pillow} (self : PreviewPanel) (rect : Rect) :
  _ensure_within_display self
    (Some (_ensure_within_display self (Some rect)))
  = _ensure_within_display self (Some rect).
Proof.
  destruct (display_cases self) as [Eg|(Hw & Hh)].
  - rewrite !(ensure_within_display_degenerate self _ Eg). reflexivity.
  - destruct rect as [x y w h].
    rewrite (ensure_within_display_axes self x y w h Hw Hh).
    rewrite (ensure_within_display_axes self _ _ _ _ Hw Hh).
    rewrite !fit_extent_idempotent, !fit_origin_idempotent by assumption.
    reflexivity.
Qed.

(** X2: for a rectangle, [_ensure_min_size] returns what
    [_ensure_within_display] returns: the first pass already yields sides
    of at least MIN_CROP_SIZE, or the empty rectangle that the second pass
    yields again. *)
Theorem ensure_min_size_is_ensure_within_display
    {B : Builtins} {P : Pillow} (self : PreviewPanel) (rect : Rect) :
  _ensure_min_size self (Some rect) = _ensure_within_display self (Some rect).
Proof.
  unfold _ensure_min_size.
  destruct (display_cases self) as [Eg|(Hw & Hh)].
  - rewrite !(ensure_within_display_degenerate self _ Eg). reflexivity.
  - destruct rect as [x y w h].
    rewrite (ensure_within_display_axes self x y w h Hw Hh).
    cbv beta iota zeta delta [rect_width rect_height].
    assert (E1 : (fit_extent w (display_w self) <? MIN_CROP_SIZE) = false).
    { apply Z.ltb_ge. unfold fit_extent. lia. }
    assert (E2 : (fit_extent h (display_h self) <? MIN_CROP_SIZE) = false).
    { apply Z.ltb_ge. unfold fit_extent. lia. }
    rewrite E1, E2.
    rewrite (ensure_within_display_axes self _ _ _ _ Hw Hh).
    rewrite !fit_extent_idempotent, !fit_origin_idempotent by assumption.
    reflexivity.
Qed.

(** X3: on a display with non-negative sides, [_clamp_display_point]
    returns a point that [_point_in_display] accepts, and it returns a
    point that [_point_in_display] accepts unchanged. *)
Theorem clamp_display_point_in_display
    {B : Builtins} {P : Pillow} (self : PreviewPanel) (point : Point) :
  0 <= display_w self -> 0 <= display_h self ->
  _point_in_display self (_clamp_display_point self point) = true /\
  (_point_in_display self point = true ->
   _clamp_display_point self point = point).
Proof.
  intros Hw Hh. unfold _point_in_display, _clamp_display_point.
  cbn [pt_x pt_y]. split.
  - repeat (apply andb_true_iff; split); apply Z.leb_le; lia.
  - intros Hin. destruct point as [px py]. cbn [pt_x pt_y] in *.
    apply andb_true_iff in Hin. destruct Hin as (Hx & Hy).
    apply andb_true_iff in Hx. apply andb_true_iff in Hy.
    destruct Hx as (Hx1 & Hx2). destruct Hy as (Hy1 & Hy2).
    apply Z.leb_le in Hx1, Hx2, Hy1, Hy2.
    f_equal; lia.
Qed.

Lemma clamp_display_point_in_display_witness :
  _point_in_display (Demo.panel 800 600 false "" None None None)
    (_clamp_display_point (Demo.panel 800 600 false "" None None None)
       (mkPoint 900 (-3))) = true.
Proof.
  apply (clamp_display_point_in_display
           (Demo.panel 800 600 false "" None None None) (mkPoint 900 (-3)));
    cbn; lia.
Defined.

(** ** Resizing without the aspect lock *)

Section ResizeFreeFacts.
Context {B : Builtins} {P : Pillow}.

(** What [_resize_free] returns for a rectangle that satisfies the
    invariant, axis by axis. *)
Lemma resize_free_valid (self : PreviewPanel) (point : Point)
    (handle : Handle.t) (x y w h : Z) :
  original_rect self = Some (mkRect x y w h) ->
  rect_ok self (x, y, w, h) ->
  exists r,
    _resize_free self point handle = Ok r /\
    rect_ok self (tuple_of_rect r) /\
    (Handle.has_left handle = false -> Handle.has_right handle = false ->
     rect_x r = x /\ rect_width r = Z.max MIN_CROP_SIZE (w - 1)) /\
    (Handle.has_top handle = false -> Handle.has_bottom handle = false ->
     rect_y r = y /\ rect_height r = Z.max MIN_CROP_SIZE (h - 1)) /\
    (Handle.has_right handle = true ->
     rect_x r = x /\
     rect_x r + rect_width r
     = Z.min (display_w self) (Z.max (pt_x point) (x + MIN_CROP_SIZE))) /\
    (Handle.has_bottom handle = true ->
     rect_y r = y /\
     rect_y r + rect_height r
     = Z.min (display_h self) (Z.max (pt_y point) (y + MIN_CROP_SIZE))) /\
    (Handle.has_left handle = true ->
     rect_x r = Z.max 0 (Z.min (pt_x point) (x + w - 1 - MIN_CROP_SIZE)) /\
     rect_x r + rect_width r = Z.max (rect_x r + MIN_CROP_SIZE) (x + w - 1)) /\
    (Handle.has_top handle = true ->
     rect_y r = Z.max 0 (Z.min (pt_y point) (y + h - 1 - MIN_CROP_SIZE)) /\
     rect_y r + rect_height r = Z.max (rect_y r + MIN_CROP_SIZE) (y + h - 1)).
Proof.
  intros Ho (Hw & Hh & Hx & Hy & Hr & Hb).
  unfold _resize_free. rewrite Ho. eexists. split; [reflexivity|].
  unfold rect_ok, tuple_of_rect, Right, Bottom, MIN_CROP_SIZE in *.
  destruct point as [px py].
  cbn [rect_x rect_y rect_width rect_height pt_x pt_y].
  destruct handle; cbn [Handle.has_left Handle.has_right Handle.has_top
                        Handle.has_bottom];
    repeat split; intros; try discriminate; lia.
Qed.

Lemma resize_free_stored (self : PreviewPanel) (point : Point)
    (handle : Handle.t) (x y w h : Z) :
  _get_aspect_ratio self = None ->
  drag_handle self = Some handle ->
  original_rect self = Some (mkRect x y w h) ->
  rect_ok self (x, y, w, h) ->
  exists r,
    _resize_free self point handle = Ok r /\
    _update_selection_resize self point
    = Ok (set_crop_rect self (Some (tuple_of_rect r))).
Proof.
  intros Hratio Hd Ho Hok.
  destruct (resize_free_valid self point handle x y w h Ho Hok)
    as (r & Hr & Hrok & _).
  exists r. split; [exact Hr|].
  unfold _update_selection_resize. rewrite Hd, Ho, Hratio.
  assert (Eb : opt_Rect_bool (Some (mkRect x y w h)) = true).
  { unfold rect_ok, MIN_CROP_SIZE in Hok. unfold opt_Rect_bool, Rect_bool.
    cbn [rect_x rect_y rect_width rect_height].
    destruct (Z.eqb_spec w 0); [lia|].
    rewrite andb_false_r. reflexivity. }
  rewrite Eb. cbn [negb]. rewrite Hr. cbn [bind].
  rewrite (ensure_min_size_fixed self r Hrok). reflexivity.
Qed.
End ResizeFreeFacts.

(** X4: without the aspect lock, a drag on a handle of a rectangle that
    satisfies the invariant stores a rectangle whose dragged edge is at the
    pointer: the right (bottom) edge at the pointer's x (y), no nearer than
    MIN_CROP_SIZE to the left (top) edge and no further than the display;
    the left (top) edge at the pointer's x (y), no further than
    MIN_CROP_SIZE + 1 before the old right (bottom) edge and not below 0. *)
Theorem resize_free_edge_follows_pointer
    {B : Builtins} {P : Pillow} (self self' : PreviewPanel) (point : Point)
    (handle : Handle.t) (x y w h : Z) :
  _get_aspect_ratio self = None ->
  drag_handle self = Some handle ->
  original_rect self = Some (mkRect x y w h) ->
  rect_ok self (x, y, w, h) ->
  _update_selection_resize self point = Ok self' ->
  exists x' y' w' h',
    crop_rect self' = Some (x', y', w', h') /\
    (Handle.has_right handle = true ->
     x' = x /\
     x' + w' = Z.min (display_w self)
                 (Z.max (pt_x point) (x + MIN_CROP_SIZE))) /\
    (Handle.has_bottom handle = true ->
     y' = y /\
     y' + h' = Z.min (display_h self)
                 (Z.max (pt_y point) (y + MIN_CROP_SIZE))) /\
    (Handle.has_left handle = true ->
     x' = Z.max 0 (Z.min (pt_x point) (x + w - 1 - MIN_CROP_SIZE))) /\
    (Handle.has_top handle = true ->
     y' = Z.max 0 (Z.min (pt_y point) (y + h - 1 - MIN_CROP_SIZE))).
Proof.
  intros Hratio Hd Ho Hok Hs.
  destruct (resize_free_stored self point handle x y w h Hratio Hd Ho Hok)
    as (r & Hr & Hu).
  destruct (resize_free_valid self point handle x y w h Ho Hok)
    as (r0 & Hr0 & _ & _ & _ & Hright & Hbottom & Hleft & Htop).
  assert (r0 = r) by congruence. subst r0.
  rewrite Hu in Hs. injection Hs as <-.
  exists (rect_x r), (rect_y r), (rect_width r), (rect_height r).
  split; [reflexivity|].
  split; [exact Hright|]. split; [exact Hbottom|].
  split; intros Hh; [exact (proj1 (Hleft Hh)) | exact (proj1 (Htop Hh))].
Qed.

Lemma resize_free_edge_follows_pointer_witness :
  exists x' y' w' h',
    crop_rect (set_crop_rect
                 (Demo.panel 800 600 false "" (Some (100, 100, 200, 150))
                    (Some (mkRect 100 100 200 150))
                    (Some Handle.bottom_right))
                 (Some (100, 100, 250, 50)))
    = Some (x', y', w', h') /\
    (Handle.has_right Handle.bottom_right = true ->
     x' = 100 /\ x' + w' = Z.min 800 (Z.max 350 (100 + MIN_CROP_SIZE))) /\
    (Handle.has_bottom Handle.bottom_right = true ->
     y' = 100 /\ y' + h' = Z.min 600 (Z.max 150 (100 + MIN_CROP_SIZE))) /\
    (Handle.has_left Handle.bottom_right = true ->
     x' = Z.max 0 (Z.min 350 (100 + 200 - 1 - MIN_CROP_SIZE))) /\
    (Handle.has_top Handle.bottom_right = true ->
     y' = Z.max 0 (Z.min 150 (100 + 150 - 1 - MIN_CROP_SIZE))).
Proof.
  apply (resize_free_edge_follows_pointer
           (Demo.panel 800 600 false "" (Some (100, 100, 200, 150))
              (Some (mkRect 100 100 200 150)) (Some Handle.bottom_right))
           _ (mkPoint 350 150) Handle.bottom_right 100 100 200 150).
  - reflexivity.
  - reflexivity.
  - reflexivity.
  - unfold rect_ok, MIN_CROP_SIZE; cbn; lia.
  - vm_compute; reflexivity.
Defined.

(** X5: without the aspect lock, a drag on a handle that has no horizontal
    part (top, bottom) keeps the left edge and stores the width
    [max(MIN_CROP_SIZE, w - 1)], one pixel less than before: the right edge
    is read from [rect.Right], the last column [x + w - 1].  In the same
    way a drag on the left or the right handle stores the height
    [max(MIN_CROP_SIZE, h - 1)]. *)
Theorem resize_free_loses_a_pixel
    {B : Builtins} {P : Pillow} (self self' : PreviewPanel) (point : Point)
    (handle : Handle.t) (x y w h : Z) :
  _get_aspect_ratio self = None ->
  drag_handle self = Some handle ->
  original_rect self = Some (mkRect x y w h) ->
  rect_ok self (x, y, w, h) ->
  _update_selection_resize self point = Ok self' ->
  exists x' y' w' h',
    crop_rect self' = Some (x', y', w', h') /\
    (Handle.has_left handle = false -> Handle.has_right handle = false ->
     x' = x /\ w' = Z.max MIN_CROP_SIZE (w - 1)) /\
    (Handle.has_top handle = false -> Handle.has_bottom handle = false ->
     y' = y /\ h' = Z.max MIN_CROP_SIZE (h - 1)).
Proof.
  intros Hratio Hd Ho Hok Hs.
  destruct (resize_free_stored self point handle x y w h Hratio Hd Ho Hok)
    as (r & Hr & Hu).
  destruct (resize_free_valid self point handle x y w h Ho Hok)
    as (r0 & Hr0 & _ & Hhor & Hver & _).
  assert (r0 = r) by congruence. subst r0.
  rewrite Hu in Hs. injection Hs as <-.
  exists (rect_x r), (rect_y r), (rect_width r), (rect_height r).
  split; [reflexivity|]. split; assumption.
Qed.

Lemma resize_free_loses_a_pixel_witness :
  exists x' y' w' h',
    crop_rect (set_crop_rect
                 (Demo.panel 800 600 false "" (Some (100, 100, 200, 150))
                    (Some (mkRect 100 100 200 150)) (Some Handle.bottom))
                 (Some (100, 100, 199, 200)))
    = Some (x', y', w', h') /\
    (Handle.has_left Handle.bottom = false ->
     Handle.has_right Handle.bottom = false ->
     x' = 100 /\ w' = Z.max MIN_CROP_SIZE (200 - 1)) /\
    (Handle.has_top Handle.bottom = false ->
     Handle.has_bottom Handle.bottom = false ->
     y' = 100 /\ h' = Z.max MIN_CROP_SIZE (150 - 1)).
Proof.
  apply (resize_free_loses_a_pixel
           (Demo.panel 800 600 false "" (Some (100, 100, 200, 150))
              (Some (mkRect 100 100 200 150)) (Some Handle.bottom))
           _ (mkPoint 180 300) Handle.bottom 100 100 200 150).
  - reflexivity.
  - reflexivity.
  - reflexivity.
  - unfold rect_ok, MIN_CROP_SIZE; cbn; lia.
  - vm_compute; reflexivity.
Defined.

(** ** The output path keeps the extension *)

Lemma add_bc_suffix_chars_splitext (os : OsPath.flavour) (p : list ascii) :
  exists b,
    OsPath.splitext_chars os (add_bc_suffix_chars os p)
    = (b, snd (OsPath.splitext_chars os p)) /\
    endswith_chars b bc = true.
Proof.
  destruct (endswith_chars (fst (OsPath.splitext_chars os p)) bc) eqn:He.
  - rewrite (SuffixFacts.add_bc_suffix_chars_fixed os p He).
    exists (fst (OsPath.splitext_chars os p)).
    split; [apply surjective_pairing | exact He].
  - exists (fst (OsPath.splitext_chars os p) ++ bc). split.
    + unfold add_bc_suffix_chars.
      rewrite (surjective_pairing (OsPath.splitext_chars os p)) at 1.
      rewrite He. apply SuffixFacts.splitext_insert_bc.
    + apply SuffixFacts.endswith_app.
Qed.

(** X6: the path [add_bc_suffix] returns splits, by [os.path.splitext],
    into a base that ends with ["_bc"] and the extension of the path it was
    given.  So the output of a batch operation has the file type of its
    input, and [OnRevertAll] takes it for a generated file. *)
Theorem add_bc_suffix_keeps_extension (os : OsPath.flavour) (path : string) :
  snd (OsPath.splitext os (add_bc_suffix os path))
  = snd (OsPath.splitext os path) /\
  endswith (fst (OsPath.splitext os (add_bc_suffix os path))) "_bc" = true.
Proof.
  unfold OsPath.splitext, add_bc_suffix, endswith. cbn [fst snd].
  rewrite !list_ascii_of_string_of_list_ascii.
  destruct (add_bc_suffix_chars_splitext os (list_ascii_of_string path))
    as (b & Es & Hb).
  rewrite Es. cbn [fst snd]. split; [reflexivity | exact Hb].
Qed.

(** ** What the handlers keep true of the session *)

Section SessionFacts.
Context {B : Builtins} {P : Pillow} {H : Host} {I : Imports}.

Lemma snapshot_eta (s : Snapshot) :
  mkSnapshot P (paths s) (snap_images s) (flags s) = s.
Proof. destruct s; reflexivity. Qed.

(** The invariant reads the documents and the history only. *)
Lemma session_inv_ext (a b : MainFrame) :
  snapshot_of b = snapshot_of a -> history b = history a ->
  session_inv a -> session_inv b.
Proof.
  unfold session_inv. intros Es Eh.
  assert (Ep : file_paths b = file_paths a).
  { change (paths (snapshot_of b) = paths (snapshot_of a)). congruence. }
  assert (Ei : images_load b = images_load a).
  { unfold images_load.
    change (forallb Image_load (snap_images (snapshot_of b))
            = forallb Image_load (snap_images (snapshot_of a))).
    congruence. }
  rewrite Es, Eh, Ep, Ei. tauto.
Qed.

(** The history after [PushHistory]: the new snapshot comes last; the
    snapshots of before stay when there were fewer than MAX_HISTORY, and
    lose the oldest one otherwise. *)
Lemma PushHistory_exact (self : MainFrame) :
  history (PushHistory self)
  = (if Z.of_nat (List.length (history self)) <? MAX_HISTORY
     then history self else tl (history self)) ++ [snapshot_of self].
Proof.
  unfold PushHistory. cbv zeta. cbn [history set_history].
  fold (snapshot_of self). rewrite length_app. cbn [List.length].
  destruct (Z.gtb_spec (Z.of_nat (List.length (history self) + 1))
              MAX_HISTORY) as [Hgt|Hle];
    destruct (Z.ltb_spec (Z.of_nat (List.length (history self)))
                MAX_HISTORY) as [Hlt|Hge]; try lia.
  - destruct (history self) as [|s h]; [|reflexivity].
    cbn in Hge. unfold MAX_HISTORY in Hge. lia.
  - reflexivity.
Qed.

Lemma PushHistory_history (self : MainFrame) :
  exists h,
    history (PushHistory self) = h ++ [snapshot_of self] /\
    (h = history self \/
     exists s, history self = s :: h /\
               MAX_HISTORY <= Z.of_nat (List.length (history self))) /\
    (Z.of_nat (List.length (history self)) <= MAX_HISTORY ->
     Z.of_nat (List.length (history (PushHistory self))) <= MAX_HISTORY).
Proof.
  rewrite PushHistory_exact.
  destruct (Z.ltb_spec (Z.of_nat (List.length (history self)))
              MAX_HISTORY) as [Hlt|Hge].
  - exists (history self). split; [reflexivity|].
    split; [left; reflexivity|]. intros _.
    rewrite length_app. cbn [List.length]. lia.
  - destruct (history self) as [|s h] eqn:Eh.
    + cbn in Hge. unfold MAX_HISTORY in Hge. lia.
    + exists h. cbn [tl]. split; [reflexivity|].
      split; [right; exists s; split; [reflexivity | exact Hge]|].
      intros Hl. cbn [List.length] in Hl.
      rewrite length_app. cbn [List.length]. lia.
Qed.

Lemma PushHistory_documents (self : MainFrame) :
  snapshot_of (PushHistory self) = snapshot_of self.
Proof. reflexivity. Qed.

(** A snapshot of aligned, non-empty documents extends the invariant. *)
Lemma PushHistory_inv (self : MainFrame) :
  aligned (snapshot_of self) -> file_paths self <> [] ->
  Forall (fun s => aligned s /\ paths s <> []) (history self) ->
  Z.of_nat (List.length (history self)) <= MAX_HISTORY ->
  session_inv (PushHistory self).
Proof.
  intros Ha Hne Hall Hlen.
  destruct (PushHistory_history self) as (h & Eh & Hh & Hl).
  unfold session_inv. rewrite PushHistory_documents.
  split; [exact Ha|]. split; [|split; [exact (Hl Hlen)|]].
  - rewrite Eh. apply Forall_app. split.
    + destruct Hh as [->|(s & Es & _)]; [exact Hall|].
      rewrite Es in Hall. inversion Hall; assumption.
    + constructor; [|constructor]. split; assumption.
  - right. exists h. exact Eh.
Qed.

Lemma aligned_nonempty (self : MainFrame) :
  aligned (snapshot_of self) -> images self <> [] -> file_paths self <> [].
Proof.
  unfold aligned. cbn [paths snap_images flags snapshot_of].
  intros (E1 & _) Hi Hp. rewrite Hp in E1.
  destruct (images self); [congruence | discriminate].
Qed.

Lemma add_file_aligned (self : MainFrame) (p : string) :
  aligned (snapshot_of self) -> aligned (snapshot_of (add_file self p)) /\
  history (add_file self p) = history self /\
  (images (add_file self p) = [] -> snapshot_of (add_file self p) = snapshot_of self).
Proof.
  unfold aligned, snapshot_of, add_file. cbn [paths snap_images flags].
  intros (E1 & E2).
  destruct (str_in (ext_lower p) IMAGE_EXTS && negb (str_in p (file_paths self)));
    [destruct (Image_open (fs self) p)|]; cbn;
    rewrite ?length_app; cbn; repeat split; try lia; try reflexivity.
  intros E. apply app_eq_nil in E. destruct E as (_ & E). discriminate.
Qed.

Lemma add_files_aligned (ps : list string) (self : MainFrame) :
  aligned (snapshot_of self) ->
  aligned (snapshot_of (fold_left add_file ps self)) /\
  history (fold_left add_file ps self) = history self /\
  (images (fold_left add_file ps self) = [] ->
   snapshot_of (fold_left add_file ps self) = snapshot_of self).
Proof.
  revert self. induction ps as [|p ps IH]; intros self Ha; cbn [fold_left].
  - split; [exact Ha|]. split; [reflexivity|]. intros _. reflexivity.
  - destruct (add_file_aligned self p Ha) as (Ha1 & Eh1 & Es1).
    destruct (IH (add_file self p) Ha1) as (Ha2 & Eh2 & Es2).
    split; [exact Ha2|]. split; [congruence|].
    intros E. rewrite (Es2 E). apply Es1.
    specialize (Es2 E).
    assert (Ei : images (fold_left add_file ps (add_file self p))
                 = images (add_file self p)).
    { change (snap_images (snapshot_of (fold_left add_file ps (add_file self p)))
              = snap_images (snapshot_of (add_file self p))).
      rewrite Es2. reflexivity. }
    congruence.
Qed.

Lemma AddFiles_inv (self : MainFrame) (ps : list string) :
  session_inv self -> session_inv (AddFiles self ps).
Proof.
  intros (Ha & Hall & Hlen & Htr).
  destruct (add_files_aligned ps self Ha) as (Ha' & Eh & Es).
  unfold AddFiles. cbv zeta.
  destruct (images (fold_left add_file ps self)) as [|img ims] eqn:Ei.
  - apply (session_inv_ext self); [apply Es; reflexivity | exact Eh|].
    exact (conj Ha (conj Hall (conj Hlen Htr))).
  - destruct (images_load (set_history (fold_left add_file ps self) []))
      eqn:El.
    + eapply session_inv_ext;
        [| | apply (PushHistory_inv
                      (set_history (fold_left add_file ps self) []))].
      * reflexivity.
      * reflexivity.
      * exact Ha'.
      * apply (aligned_nonempty _ Ha'). rewrite Ei. discriminate.
      * constructor.
      * cbn. unfold MAX_HISTORY. lia.
    + unfold session_inv. cbn [history set_history].
      split; [exact Ha'|]. split; [constructor|].
      split; [cbn; unfold MAX_HISTORY; lia|].
      left. split; [reflexivity|]. right. exact El.
Qed.

Lemma index_of_In (x : string) (l : list string) :
  In x l -> exists i, index_of x l = Some i /\ (i < List.length l)%nat.
Proof.
  induction l as [|y l IH]; cbn [In index_of List.length]; [tauto|].
  intros Hin. destruct (String.eqb_spec y x) as [E|E].
  - exists O. split; [reflexivity | lia].
  - destruct Hin as [E'|Hin]; [contradiction|].
    destruct (IH Hin) as (i & Ei & Hi). rewrite Ei.
    exists (S i). split; [reflexivity | lia].
Qed.

Lemma trim_one_aligned (self : MainFrame) (box : tuple4) (acc : batch)
    (doc : string * Image) :
  aligned (snapshot_of self) -> In (fst doc) (file_paths self) ->
  batch_aligned acc -> batch_aligned (trim_one self box acc doc).
Proof.
  unfold aligned, batch_aligned, trim_one.
  cbn [paths snap_images flags snapshot_of].
  intros (E1 & E2) Hin (A1 & A2). destruct doc as [path img].
  cbn [fst] in Hin.
  destruct (trim_save_reload (b_fs acc) box path
              (add_bc_suffix os_name path) img) as [f' [reopened|]].
  - destruct (index_of_In path (file_paths self) Hin) as (i & Ei & Hi).
    rewrite Ei.
    destruct (nth_error (reduced_flags self) i) as [fl|] eqn:En.
    + cbn. rewrite !length_app. cbn. lia.
    + apply nth_error_None in En. lia.
  - cbn. lia.
Qed.

Lemma trim_loop_aligned (self : MainFrame) (box : tuple4)
    (docs : list (string * Image)) (acc : batch) :
  aligned (snapshot_of self) ->
  (forall d, In d docs -> In (fst d) (file_paths self)) ->
  batch_aligned acc -> batch_aligned (trim_loop self box docs acc).
Proof.
  intros Ha. unfold trim_loop. revert acc.
  induction docs as [|d docs IH]; intros acc Hin Hacc; cbn [fold_left].
  - exact Hacc.
  - apply IH.
    + intros d' Hd'. apply Hin. right. exact Hd'.
    + apply trim_one_aligned; [exact Ha | apply Hin; left; reflexivity | exact Hacc].
Qed.

Lemma reduce_loop_aligned (docs : list (string * Image)) (acc : batch) :
  batch_aligned acc -> batch_aligned (fold_left reduce_one docs acc).
Proof.
  revert acc. induction docs as [|d docs IH]; intros acc Hacc; cbn [fold_left].
  - exact Hacc.
  - apply IH. unfold batch_aligned, reduce_one in *. destruct d as [path img].
    destruct (reduce_save_reload (b_fs acc) path
                (add_bc_suffix os_name path) img) as [f' [reopened|]];
      cbn; rewrite ?length_app; cbn; lia.
Qed.

Lemma commit_documents (self : MainFrame) (b : batch) :
  snapshot_of (commit self b)
  = mkSnapshot P (new_paths b) (new_images b) (new_flags b).
Proof.
  unfold commit, fix_selected_index. cbv zeta.
  match goal with |- context [if ?c then _ else _] => destruct c end;
    reflexivity.
Qed.

Lemma commit_history (self : MainFrame) (b : batch) :
  history (commit self b)
  = history (PushHistory
               (set_documents self (new_paths b) (new_images b) (new_flags b))).
Proof.
  unfold commit, fix_selected_index. cbv zeta.
  match goal with |- context [if ?c then _ else _] => destruct c end;
    reflexivity.
Qed.

Lemma commit_inv (self : MainFrame) (b : batch) :
  session_inv self -> batch_aligned b -> new_paths b <> [] ->
  session_inv (commit self b).
Proof.
  intros (Ha & Hall & Hlen & Htr) Hb Hne.
  apply (session_inv_ext
           (PushHistory
              (set_documents self (new_paths b) (new_images b) (new_flags b)))).
  - rewrite commit_documents. reflexivity.
  - apply commit_history.
  - apply PushHistory_inv; [exact Hb | exact Hne | exact Hall | exact Hlen].
Qed.

Lemma batch_nonempty (b : batch) :
  batch_aligned b -> new_images b <> [] -> new_paths b <> [].
Proof.
  unfold batch_aligned. intros (E1 & _) Hi Hp. rewrite Hp in E1.
  destruct (new_images b); [congruence | discriminate].
Qed.

(** [OnTrimAll] and [OnPngReduce] end in [commit], or leave documents and
    history as they are. *)
Lemma OnTrimAll_cases (self : MainFrame) :
  (snapshot_of (OnTrimAll self) = snapshot_of self /\
   history (OnTrimAll self) = history self) \/
  exists u box b,
    GetValidatedBox (ui self) = (u, Some box) /\
    b = trim_loop self box (combine (file_paths self) (images self))
          (mkBatch (fs self) u [] [] []) /\
    new_images b <> [] /\
    OnTrimAll self = commit self b.
Proof.
  unfold OnTrimAll.
  destruct (GetValidatedBox (ui self)) as [u [box|]];
    [|left; split; reflexivity].
  set (b := trim_loop self box (combine (file_paths self) (images self))
              (mkBatch (fs self) u [] [] [])).
  destruct (new_images b) as [|i ims] eqn:Ei; [left; split; reflexivity|].
  right. exists u, box, b. split; [reflexivity|]. split; [reflexivity|].
  split; [rewrite Ei; discriminate | reflexivity].
Qed.

Lemma OnTrimAll_batch_aligned (self : MainFrame) (u : UI) (box : tuple4) :
  aligned (snapshot_of self) ->
  batch_aligned (trim_loop self box (combine (file_paths self) (images self))
                   (mkBatch (fs self) u [] [] [])).
Proof.
  intros Ha. apply trim_loop_aligned; [exact Ha | | split; reflexivity].
  intros [p i] Hd. apply in_combine_l in Hd. exact Hd.
Qed.

Lemma OnPngReduce_cases (self : MainFrame) :
  (snapshot_of (OnPngReduce self) = snapshot_of self /\
   history (OnPngReduce self) = history self) \/
  exists b, OnPngReduce self = commit self b /\ batch_aligned b /\
            new_paths b <> [] /\
            b = fold_left reduce_one (combine (file_paths self) (images self))
                  (mkBatch (fs self) (ui self) [] [] []) /\
            filter (fun p => negb (is_png p)) (file_paths self) = [].
Proof.
  unfold OnPngReduce.
  destruct (file_paths self) as [|p ps] eqn:Ep; [left; split; reflexivity|].
  destruct (filter (fun p => negb (is_png p)) (p :: ps)) eqn:Ef;
    [|left; split; reflexivity].
  set (b := fold_left reduce_one (combine (p :: ps) (images self))
              (mkBatch (fs self) (ui self) [] [] [])).
  assert (Hb : batch_aligned b).
  { apply reduce_loop_aligned. split; reflexivity. }
  destruct (new_paths b) as [|q qs] eqn:En; [left; split; reflexivity|].
  right. exists b. split; [reflexivity|]. split; [exact Hb|].
  split; [rewrite En; discriminate|]. split; reflexivity.
Qed.

Lemma Forall_removelast {A : Type} (Q : A -> Prop) (l : list A) :
  Forall Q l -> Forall Q (removelast l).
Proof.
  induction l as [|a l IH]; cbn [removelast]; intros Hl; [constructor|].
  inversion Hl as [|? ? Ha Hl']; subst.
  destruct l; [constructor|]. constructor; [exact Ha | apply IH; exact Hl'].
Qed.

Lemma length_removelast_le {A : Type} (l : list A) :
  (List.length (removelast l) <= List.length l)%nat.
Proof.
  induction l as [|a l IH]; cbn [removelast List.length]; [lia|].
  destruct l; cbn [List.length] in *; lia.
Qed.

(** [OnRevertAll] with two snapshots or more: the documents of the last
    snapshot but one come back, and that snapshot is the last one left. *)
Lemma OnRevertAll_previous (self : MainFrame) (h : list Snapshot)
    (previous last : Snapshot) :
  history self = h ++ [previous; last] ->
  snapshot_of (fst (OnRevertAll self)) = previous /\
  history (fst (OnRevertAll self)) = h ++ [previous].
Proof.
  intros Eh. unfold OnRevertAll.
  assert (El : (Z.of_nat (List.length (history self)) <? 2) = false).
  { apply Z.ltb_ge. rewrite Eh, length_app. cbn [List.length]. lia. }
  rewrite El. cbv zeta.
  assert (Er : removelast (history self) = h ++ [previous]).
  { rewrite Eh. change [previous; last] with ([previous] ++ [last]).
    rewrite app_assoc. apply removelast_last. }
  rewrite Er, rev_app_distr. cbn [rev app fst].
  unfold fix_selected_index.
  match goal with |- context [if ?c then _ else _] => destruct c end;
    cbn [fst]; split; try reflexivity; apply snapshot_eta.
Qed.

Lemma OnRevertAll_short (self : MainFrame) :
  Z.of_nat (List.length (history self)) < 2 ->
  OnRevertAll self = (self, PyNone).
Proof.
  intros Hl. unfold OnRevertAll.
  apply Z.ltb_lt in Hl. rewrite Hl. reflexivity.
Qed.

Lemma two_last {A : Type} (l : list A) :
  (2 <= List.length l)%nat -> exists h a b, l = h ++ [a; b].
Proof.
  intros Hl.
  destruct (exists_last (l := l)) as (l1 & b & ->);
    [intros ->; cbn in Hl; lia|].
  rewrite length_app in Hl. cbn [List.length] in Hl.
  destruct (exists_last (l := l1)) as (h & a & ->);
    [intros ->; cbn in Hl; lia|].
  exists h, a, b. rewrite <- app_assoc. reflexivity.
Qed.

Lemma OnRevertAll_inv (self : MainFrame) :
  session_inv self -> session_inv (fst (OnRevertAll self)).
Proof.
  intros Hinv.
  destruct (Z.lt_ge_cases (Z.of_nat (List.length (history self))) 2)
    as [Hlt|Hge].
  - rewrite (OnRevertAll_short self Hlt). exact Hinv.
  - destruct (two_last (history self)) as (h & previous & last & Eh); [lia|].
    destruct (OnRevertAll_previous self h previous last Eh) as (Es & Eh').
    destruct Hinv as (Ha & Hall & Hlen & Htr).
    rewrite Eh in Hall. apply Forall_app in Hall.
    destruct Hall as (Hh & Hpl).
    apply Forall_inv in Hpl. destruct Hpl as (Hpa & Hpn).
    unfold session_inv. rewrite Es, Eh'.
    split; [exact Hpa|]. split; [|split].
    + apply Forall_app. split; [exact Hh|].
      constructor; [split; assumption | constructor].
    + rewrite Eh in Hlen. rewrite !length_app in *. cbn [List.length] in *.
      lia.
    + right. exists h. reflexivity.
Qed.

(** After an import the history is the one snapshot of the new
    documents, or empty when [PushHistory] raised. *)
Lemma append_import_history (self : MainFrame) (file_path : string)
    (img : Image) :
  history (append_import self file_path img)
  = (if images_load (append_import self file_path img)
     then [snapshot_of (append_import self file_path img)] else []) /\
  file_paths (append_import self file_path img)
  = file_paths self ++ [file_path] /\
  images (append_import self file_path img) = images self ++ [img] /\
  reduced_flags (append_import self file_path img)
  = reduced_flags self ++ [false].
Proof.
  unfold append_import, PushHistory, images_load. cbv zeta.
  cbn [images set_documents set_history].
  destruct (forallb Image_load (images self ++ [img])) eqn:El;
    cbn; rewrite ?El; repeat split; reflexivity.
Qed.

Lemma append_import_inv (self : MainFrame) (file_path : string)
    (img : Image) :
  aligned (snapshot_of self) ->
  session_inv (append_import self file_path img).
Proof.
  intros (E1 & E2).
  destruct (append_import_history self file_path img) as (Eh & Ep & Ei & Ef).
  unfold session_inv. rewrite Eh.
  assert (Ha : aligned (snapshot_of (append_import self file_path img))).
  { unfold aligned. cbn [paths snap_images flags snapshot_of] in *.
    rewrite Ep, Ei, Ef, !length_app. cbn [List.length]. lia. }
  split; [exact Ha|].
  destruct (images_load (append_import self file_path img)) eqn:El.
  - split; [|split].
    + constructor; [|constructor]. split; [exact Ha|].
      cbn [paths snapshot_of]. rewrite Ep.
      intros E. apply app_eq_nil in E. destruct E as (_ & E). discriminate.
    + cbn. unfold MAX_HISTORY. lia.
    + right. exists []. reflexivity.
  - split; [constructor|]. split; [cbn; unfold MAX_HISTORY; lia|].
    left. split; [reflexivity|]. right. reflexivity.
Qed.

Lemma OnPasteFromClipboard_cases (self : MainFrame) :
  (snapshot_of (OnPasteFromClipboard self) = snapshot_of self /\
   history (OnPasteFromClipboard self) = history self) \/
  exists f u file_path img,
    OnPasteFromClipboard self
    = append_import (set_ui (set_fs self f) u) file_path img.
Proof.
  unfold OnPasteFromClipboard.
  destruct (_get_clipboard_image (fs self) (ui self)) as [u [img|]];
    [|left; split; reflexivity].
  destruct (_save_import_image (fs self) u img "clipboard" ".png")
    as [[f u'] [file_path|]]; [|left; split; reflexivity].
  right. exists f, u', file_path, img. reflexivity.
Qed.

Lemma OnSnapshot_cases (self : MainFrame) :
  (snapshot_of (OnSnapshot self) = snapshot_of self /\
   history (OnSnapshot self) = history self) \/
  exists f u file_path img,
    OnSnapshot self
    = append_import (set_ui (set_fs self f) u) file_path img.
Proof.
  unfold OnSnapshot.
  destruct (ImageGrab_grab (ui self)) as [u [img|]];
    [|left; split; reflexivity].
  destruct (_save_import_image (fs self) u img "snapshot" ".png")
    as [[f u'] [file_path|]]; [|left; split; reflexivity].
  right. exists f, u', file_path, img. reflexivity.
Qed.

Lemma run_inv (self : MainFrame) (c : command) :
  session_inv self -> session_inv (run self c).
Proof.
  intros Hinv. assert (Ha : aligned (snapshot_of self)) by apply Hinv.
  destruct c as [ps| | | | | | |idx]; cbn [run].
  8: { apply (session_inv_ext self); [| |exact Hinv];
       unfold OnSelectThumbnail; cbv zeta;
       destruct (py_nth (images (set_selected_index self idx)) idx);
       reflexivity. }
  - apply AddFiles_inv. exact Hinv.
  - destruct (OnTrimAll_cases self) as [(Es & Eh)|(u & box & b & _ & Eb & Hne & ->)].
    + exact (session_inv_ext self _ Es Eh Hinv).
    + assert (Hb : batch_aligned b).
      { rewrite Eb. apply OnTrimAll_batch_aligned. exact Ha. }
      apply commit_inv; [exact Hinv | exact Hb|].
      apply batch_nonempty; assumption.
  - destruct (OnPngReduce_cases self) as [(Es & Eh)|(b & -> & Hb & Hne & _)].
    + exact (session_inv_ext self _ Es Eh Hinv).
    + apply commit_inv; assumption.
  - apply OnRevertAll_inv. exact Hinv.
  - destruct (OnPasteFromClipboard_cases self)
      as [(Es & Eh)|(f & u & p & img & ->)].
    + exact (session_inv_ext self _ Es Eh Hinv).
    + apply append_import_inv. exact Ha.
  - destruct (OnSnapshot_cases self) as [(Es & Eh)|(f & u & p & img & ->)].
    + exact (session_inv_ext self _ Es Eh Hinv).
    + apply append_import_inv. exact Ha.
  - unfold OnClearAll, session_inv, aligned. cbn.
    split; [split; reflexivity|]. split; [constructor|].
    split; [unfold MAX_HISTORY; lia|].
    left. split; [reflexivity|]. left. reflexivity.
Qed.

Lemma run_all_inv (cs : list command) (self : MainFrame) :
  session_inv self -> session_inv (run_all self cs).
Proof.
  unfold run_all. revert self.
  induction cs as [|c cs IH]; intros self Hinv; cbn [fold_left].
  - exact Hinv.
  - apply IH. apply run_inv. exact Hinv.
Qed.

Lemma init_inv (u : UI) (f : FS) : session_inv (MainFrame_init u f).
Proof.
  unfold session_inv, MainFrame_init, aligned. cbn.
  split; [split; reflexivity|]. split; [constructor|].
  split; [unfold MAX_HISTORY; lia|].
  left. split; [reflexivity|]. left. reflexivity.
Qed.
End SessionFacts.

(** ** Undo, imports and the outputs of a batch operation *)

Section UndoFacts.
Context {B : Builtins} {P : Pillow} {H : Host} {I : Imports}.

(** The snapshots [PushHistory] keeps of a history that ends with the
    current documents still end with them. *)
Lemma kept_history_last (self : MainFrame) (h : list Snapshot) :
  history self = h ++ [snapshot_of self] ->
  exists h0,
    (if Z.of_nat (List.length (history self)) <? MAX_HISTORY
     then history self else tl (history self))
    = h0 ++ [snapshot_of self].
Proof.
  intros Eh.
  destruct (Z.ltb_spec (Z.of_nat (List.length (history self)))
              MAX_HISTORY) as [Hlt|Hge].
  - exists h. exact Eh.
  - rewrite Eh in *. destruct h as [|a h2].
    + cbn in Hge. unfold MAX_HISTORY in Hge. lia.
    + exists h2. reflexivity.
Qed.

Lemma commit_then_revert (self : MainFrame) (h : list Snapshot) (b : batch) :
  history self = h ++ [snapshot_of self] ->
  snapshot_of (fst (OnRevertAll (commit self b))) = snapshot_of self /\
  history (fst (OnRevertAll (commit self b)))
  = (if Z.of_nat (List.length (history self)) <? MAX_HISTORY
     then history self else tl (history self)).
Proof.
  intros Eh.
  pose proof (commit_history self b) as Ec.
  rewrite PushHistory_exact in Ec. cbn [history set_documents] in Ec.
  destruct (kept_history_last self h Eh) as (h0 & Ek).
  rewrite Ek in Ec |- *.
  rewrite <- app_assoc in Ec. cbn [app] in Ec.
  destruct (OnRevertAll_previous (commit self b) h0 (snapshot_of self) _ Ec)
    as (Es & Eh').
  split; [exact Es | exact Eh'].
Qed.

Lemma reduce_loop_outputs (docs : list (string * Image)) (acc : batch)
    (Q : string -> Prop) :
  (forall d, In d docs -> Q (add_bc_suffix os_name (fst d))) ->
  Forall Q (new_paths acc) -> Forall (fun f => f = true) (new_flags acc) ->
  Forall Q (new_paths (fold_left reduce_one docs acc)) /\
  Forall (fun f => f = true) (new_flags (fold_left reduce_one docs acc)).
Proof.
  revert acc. induction docs as [|d docs IH]; intros acc Hd Hp Hf;
    cbn [fold_left]; [split; assumption|].
  apply IH.
  - intros d' Hd'. apply Hd. right. exact Hd'.
  - unfold reduce_one. destruct d as [path img].
    destruct (reduce_save_reload (b_fs acc) path
                (add_bc_suffix os_name path) img) as [f' [reopened|]];
      cbn [new_paths]; [|exact Hp].
    apply Forall_app. split; [exact Hp|].
    constructor; [|constructor]. apply (Hd (path, img)). left. reflexivity.
  - unfold reduce_one. destruct d as [path img].
    destruct (reduce_save_reload (b_fs acc) path
                (add_bc_suffix os_name path) img) as [f' [reopened|]];
      cbn [new_flags]; [|exact Hf].
    apply Forall_app. split; [exact Hf|]. repeat constructor.
Qed.

Lemma trim_one_paths (self : MainFrame) (box : tuple4) (acc : batch)
    (doc : string * Image) :
  new_paths (trim_one self box acc doc) = new_paths acc \/
  new_paths (trim_one self box acc doc)
  = new_paths acc ++ [add_bc_suffix os_name (fst doc)].
Proof.
  unfold trim_one. destruct doc as [path img]. cbn [fst].
  destruct (trim_save_reload (b_fs acc) box path
              (add_bc_suffix os_name path) img) as [f' [reopened|]];
    [|left; reflexivity].
  right.
  destruct (index_of path (file_paths self)) as [i|]; [|reflexivity].
  destruct (nth_error (reduced_flags self) i); reflexivity.
Qed.

Lemma trim_loop_outputs (self : MainFrame) (box : tuple4)
    (docs : list (string * Image)) (acc : batch) (Q : string -> Prop) :
  (forall d, In d docs -> Q (add_bc_suffix os_name (fst d))) ->
  Forall Q (new_paths acc) ->
  Forall Q (new_paths (trim_loop self box docs acc)).
Proof.
  unfold trim_loop. revert acc.
  induction docs as [|d docs IH]; intros acc Hd Hp; cbn [fold_left];
    [exact Hp|].
  apply IH.
  - intros d' Hd'. apply Hd. right. exact Hd'.
  - destruct (trim_one_paths self box acc d) as [->| ->]; [exact Hp|].
    apply Forall_app. split; [exact Hp|].
    constructor; [|constructor]. apply Hd. left. reflexivity.
Qed.

Lemma commit_file_paths (self : MainFrame) (b : batch) :
  file_paths (commit self b) = new_paths b /\
  reduced_flags (commit self b) = new_flags b.
Proof.
  pose proof (commit_documents self b) as E.
  split.
  - change (paths (snapshot_of (commit self b)) = new_paths b).
    rewrite E. reflexivity.
  - change (flags (snapshot_of (commit self b)) = new_flags b).
    rewrite E. reflexivity.
Qed.

Lemma add_bc_suffix_fixed_point (os : OsPath.flavour) (q : string) :
  add_bc_suffix os (add_bc_suffix os q) = add_bc_suffix os q.
Proof.
  unfold add_bc_suffix. rewrite list_ascii_of_string_of_list_ascii.
  rewrite SuffixFacts.add_bc_suffix_chars_idempotent. reflexivity.
Qed.
End UndoFacts.

(** X7: in every session the handlers can reach from start-up, the lists
    of paths, images and flags have the same length, and so have the three
    lists of every snapshot of the history. *)
Theorem session_lists_stay_aligned
    {B : Builtins} {P : Pillow} {H : Host} {I : Imports}
    (cs : list command) (u : UI) (f : FS) :
  let self := run_all (MainFrame_init u f) cs in
  List.length (file_paths self) = List.length (images self) /\
  List.length (images self) = List.length (reduced_flags self) /\
  Forall aligned (history self).
Proof.
  intros self.
  destruct (run_all_inv cs _ (init_inv u f)) as ((E1 & E2) & Hall & _).
  split; [exact E1|]. split; [exact E2|].
  apply (Forall_impl _ (P := fun s => aligned s /\ paths s <> []));
    [intros s Hs; apply Hs | exact Hall].
Qed.

(** X8: in every session the handlers can reach from start-up, the history
    holds at most MAX_HISTORY snapshots, it is empty when no document is
    loaded, and its last snapshot is the current documents.  With documents
    loaded the history is empty only when an image of the session cannot
    be copied: [PushHistory] raised in [AddFiles], [OnPasteFromClipboard]
    or [OnSnapshot], after [history.clear()]. *)
Theorem history_tracks_documents
    {B : Builtins} {P : Pillow} {H : Host} {I : Imports}
    (cs : list command) (u : UI) (f : FS) :
  let self := run_all (MainFrame_init u f) cs in
  Z.of_nat (List.length (history self)) <= MAX_HISTORY /\
  (file_paths self = [] -> history self = []) /\
  (history self = [] -> file_paths self = [] \/ images_load self = false) /\
  (forall h s, history self = h ++ [s] -> s = snapshot_of self).
Proof.
  intros self.
  destruct (run_all_inv cs _ (init_inv u f)) as (_ & Hall & Hlen & Htr).
  fold self in Hall, Hlen, Htr.
  split; [exact Hlen|]. split; [|split].
  - intros Ep. destruct Htr as [(Eh & _)|(h & Eh)]; [exact Eh|].
    rewrite Eh in Hall. apply Forall_app in Hall. destruct Hall as (_ & Hl).
    apply Forall_inv in Hl. destruct Hl as (_ & Hne).
    cbn [paths snapshot_of] in Hne. contradiction.
  - intros Eh. destruct Htr as [(_ & Hor)|(h & Eh')]; [exact Hor|].
    rewrite Eh in Eh'. destruct h; discriminate.
  - intros h s Eh. destruct Htr as [(Eh' & _)|(h' & Eh')].
    + rewrite Eh' in Eh. destruct h; discriminate.
    + rewrite Eh' in Eh. apply app_inj_tail in Eh. symmetry. apply Eh.
Qed.

(** The empty history with documents loaded is met: of two files dropped
    at start-up the second one, b.png, cannot be read to the end.  Both
    are documents, the history is empty and no thumbnail is selected; an
    image pasted afterwards becomes a document and the history stays
    empty, since [PushHistory] copies the image of b.png again.  Without
    b.png the same steps leave one snapshot. *)
Example history_empty_after_truncated_file :
  let dropped := DemoTruncated.session ["b.png"%string]
                   [DropFiles ["a.png"; "b.png"]%string] in
  let pasted := DemoTruncated.session ["b.png"%string]
                  [DropFiles ["a.png"; "b.png"]%string; PasteFromClipboard] in
  let sound := DemoTruncated.session []
                 [DropFiles ["a.png"; "b.png"]%string; PasteFromClipboard] in
  (file_paths dropped = ["a.png"; "b.png"]%string /\
   images dropped = [(640, 480); (0, 0)] /\
   history dropped = [] /\ selected_index dropped = -1) /\
  (file_paths pasted
   = ["a.png"; "b.png"; "clipboard_20250101_120000.png"]%string /\
   history pasted = [] /\ selected_index pasted = -1) /\
  (List.length (history sound) = 1%nat /\ selected_index sound = 2).
Proof. vm_compute. repeat split; reflexivity. Qed.

(** X9: undo after a batch operation.  When the last snapshot of the
    history is the current documents and [OnTrimAll] or [OnPngReduce]
    records a step, that is, ends by installing the lists of its batch
    [b], [OnRevertAll] brings back the paths, images and flags of before
    the operation; the history is the one of before when that held fewer
    than MAX_HISTORY snapshots, and the one of before less its oldest
    snapshot when it was full. *)
Theorem undo_restores_documents
    {B : Builtins} {P : Pillow} {H : Host} {I : Imports}
    (self : MainFrame) (h : list Snapshot) (c : command) (b : batch) :
  c = TrimAll \/ c = PngReduce ->
  history self = h ++ [snapshot_of self] ->
  run self c = commit self b ->
  snapshot_of (run (run self c) RevertAll) = snapshot_of self /\
  history (run (run self c) RevertAll)
  = (if Z.of_nat (List.length (history self)) <? MAX_HISTORY
     then history self else tl (history self)).
Proof.
  intros _ Eh Ec. cbn [run]. rewrite Ec.
  apply (commit_then_revert self h b Eh).
Qed.

Lemma undo_restores_documents_witness :
  snapshot_of (run (run DemoUndo.loaded TrimAll) RevertAll)
  = snapshot_of DemoUndo.loaded /\
  history (run (run DemoUndo.loaded TrimAll) RevertAll)
  = (if Z.of_nat (List.length (history DemoUndo.loaded)) <? MAX_HISTORY
     then history DemoUndo.loaded else tl (history DemoUndo.loaded)).
Proof.
  apply (undo_restores_documents DemoUndo.loaded [] TrimAll DemoUndo.trimmed).
  - left; reflexivity.
  - vm_compute; reflexivity.
  - vm_compute; reflexivity.
Defined.

(** The two cases of the history after an undo.  Two files are loaded and
    cropped: the undo leaves the one snapshot of the loaded files.  After
    nine more crops the history is full; the tenth drops its oldest
    snapshot, and the undo leaves the nine snapshots that followed it. *)
Example undo_with_full_history :
  let once := run_all DemoUndo.loaded [TrimAll; RevertAll] in
  let full := run_all DemoUndo.loaded (repeat TrimAll 9) in
  let back := run_all full [TrimAll; RevertAll] in
  history once = history DemoUndo.loaded /\
  List.length (history full) = 10%nat /\
  history back = tl (history full) /\
  snapshot_of back = snapshot_of full.
Proof. vm_compute. repeat split; reflexivity. Qed.

(** X10: an import restarts the history.  When [AddFiles] ends with an
    image in the session, or [OnPasteFromClipboard] or [OnSnapshot] adds
    its document, the history is the one snapshot of the new documents,
    whatever it held before; it is empty when an image of the session
    cannot be copied, [PushHistory] having raised after
    [history.clear()].  Either way [OnRevertAll] has nothing to go back
    to. *)
Theorem import_restarts_history
    {B : Builtins} {P : Pillow} {H : Host} {I : Imports}
    (self : MainFrame) (c : command) :
  match c with
  | DropFiles _ => images (run self c) <> []
  | PasteFromClipboard | TakeSnapshot =>
      file_paths (run self c) <> file_paths self
  | _ => False
  end ->
  history (run self c)
  = (if images_load (run self c) then [snapshot_of (run self c)] else []) /\
  OnRevertAll (run self c) = (run self c, PyNone).
Proof.
  intros Hc.
  assert (Hh : history (run self c)
               = if images_load (run self c)
                 then [snapshot_of (run self c)] else []).
  { destruct c as [ps| | | | | | |idx]; try contradiction; cbn [run] in *.
    - unfold AddFiles in *. cbv zeta in *.
      destruct (images (fold_left add_file ps self)) as [|img ims] eqn:Ei;
        [rewrite Ei in Hc; contradiction|].
      unfold images_load at 1 2.
      destruct (images_load (set_history (fold_left add_file ps self) []))
        eqn:El; unfold images_load in El;
        cbn [images set_history] in El |- *.
      + unfold PushHistory, snapshot_of. cbn. rewrite El. reflexivity.
      + rewrite El. reflexivity.
    - destruct (OnPasteFromClipboard_cases self)
        as [(Es & _)|(f & u & p & img & ->)].
      + exfalso. apply Hc.
        change (paths (snapshot_of (OnPasteFromClipboard self))
                = paths (snapshot_of self)).
        rewrite Es. reflexivity.
      + apply append_import_history.
    - destruct (OnSnapshot_cases self)
        as [(Es & _)|(f & u & p & img & ->)].
      + exfalso. apply Hc.
        change (paths (snapshot_of (OnSnapshot self))
                = paths (snapshot_of self)).
        rewrite Es. reflexivity.
      + apply append_import_history. }
  split; [exact Hh|].
  apply OnRevertAll_short. rewrite Hh.
  destruct (images_load (run self c)); cbn; lia.
Qed.

Lemma import_restarts_history_witness :
  history (run (run DemoUndo.loaded TrimAll) PasteFromClipboard)
  = (if images_load (run (run DemoUndo.loaded TrimAll) PasteFromClipboard)
     then [snapshot_of (run (run DemoUndo.loaded TrimAll) PasteFromClipboard)]
     else []) /\
  OnRevertAll (run (run DemoUndo.loaded TrimAll) PasteFromClipboard)
  = (run (run DemoUndo.loaded TrimAll) PasteFromClipboard, PyNone).
Proof.
  apply (import_restarts_history (run DemoUndo.loaded TrimAll)
           PasteFromClipboard).
  vm_compute; discriminate.
Defined.

(** After the paste the two snapshots of before are gone, and with them
    the way back to the files as they were loaded. *)
Example import_forgets_earlier_steps :
  List.length (history (run DemoUndo.loaded TrimAll)) = 2%nat /\
  List.length
    (history (run (run DemoUndo.loaded TrimAll) PasteFromClipboard)) = 1%nat /\
  file_paths
    (run (run (run DemoUndo.loaded TrimAll) PasteFromClipboard) RevertAll)
  = ["a_bc.png"; "b_bc.jpg"; "clipboard_20250101_120000.png"]%string.
Proof. vm_compute. repeat split; reflexivity. Qed.

(** X11: the documents after a batch operation.  When [OnTrimAll] or
    [OnPngReduce] records a step, every path of the session is
    [add_bc_suffix] of a path of before, so a path that [add_bc_suffix]
    returns unchanged; and after [OnPngReduce] every document is flagged as
    reduced. *)
Theorem batch_outputs_are_bc_paths
    {B : Builtins} {P : Pillow} {H : Host} {I : Imports}
    (self : MainFrame) (c : command) :
  c = TrimAll \/ c = PngReduce ->
  history (run self c) <> history self ->
  Forall (fun p => (exists q, In q (file_paths self) /\
                              p = add_bc_suffix os_name q) /\
                   add_bc_suffix os_name p = p)
    (file_paths (run self c)) /\
  (c = PngReduce ->
   Forall (fun fl => fl = true) (reduced_flags (run self c))).
Proof.
  intros Hc Hne.
  set (Q := fun p => (exists q, In q (file_paths self) /\
                                p = add_bc_suffix os_name q) /\
                     add_bc_suffix os_name p = p).
  assert (HQ : forall d, In d (combine (file_paths self) (images self)) ->
                         Q (add_bc_suffix os_name (fst d))).
  { intros [q img] Hd. apply in_combine_l in Hd. cbn [fst]. split.
    - exists q. split; [exact Hd | reflexivity].
    - apply add_bc_suffix_fixed_point. }
  destruct Hc as [-> | ->]; cbn [run] in *.
  - destruct (OnTrimAll_cases self)
      as [(_ & E)|(u & box & b & _ & Eb & _ & ->)]; [contradiction|].
    destruct (commit_file_paths self b) as (Ep & _). rewrite Ep, Eb.
    split; [|discriminate].
    apply trim_loop_outputs; [exact HQ | constructor].
  - destruct (OnPngReduce_cases self) as [(_ & E)|(b & -> & _ & _ & Eb & _)];
      [contradiction|].
    destruct (commit_file_paths self b) as (Ep & Ef). rewrite Ep, Ef, Eb.
    destruct (reduce_loop_outputs
                (combine (file_paths self) (images self))
                (mkBatch (fs self) (ui self) [] [] []) Q HQ)
      as (Hp & Hf); [constructor | constructor|].
    split; [exact Hp | intros _; exact Hf].
Qed.

Lemma batch_outputs_are_bc_paths_witness :
  Forall (fun fl => fl = true)
    (reduced_flags
       (run (AddFiles (Demo.frame [] [] (Demo.box_texts "" "" "" ""))
               ["a.png"; "b.PNG"]%string) PngReduce)).
Proof.
  apply (batch_outputs_are_bc_paths
           (AddFiles (Demo.frame [] [] (Demo.box_texts "" "" "" ""))
              ["a.png"; "b.PNG"]%string) PngReduce).
  - right; reflexivity.
  - vm_compute; discriminate.
  - reflexivity.
Defined.

(** ** Hit testing and the pointer handlers *)

Section PointerFacts.
Context {B : Builtins} {P : Pillow}.

Lemma first_hit_In (items : list (Handle.t * (number * number)))
    (point : Point) (h : Handle.t) :
  first_hit items point = Ok (Some h) ->
  exists pt rect,
    In (h, pt) items /\ handle_rect pt = Ok rect /\
    Rect_Contains rect point = true.
Proof.
  induction items as [|[name pt] rest IH]; cbn [first_hit]; [discriminate|].
  intros Hf. apply bind_Ok in Hf. destruct Hf as (rect & Hr & Hf).
  destruct (Rect_Contains rect point) eqn:Hc.
  - injection Hf as <-. exists pt, rect.
    split; [left; reflexivity|]. split; assumption.
  - destruct (IH Hf) as (pt' & rect' & Hin & Hr' & Hc').
    exists pt', rect'. split; [right; exact Hin|]. split; assumption.
Qed.

Lemma handle_rect_spec (pt : number * number) (rect : Rect) :
  handle_rect pt = Ok rect ->
  rect_width rect = HANDLE_SIZE /\ rect_height rect = HANDLE_SIZE /\
  (forall a, fst pt = Int a -> rect_x rect = a - 5) /\
  (forall b, snd pt = Int b -> rect_y rect = b - 5).
Proof.
  unfold handle_rect. intros Hr.
  apply bind_Ok in Hr. destruct Hr as (px & Hx & Hr).
  apply bind_Ok in Hr. destruct Hr as (py & Hy & Hr).
  injection Hr as <-. cbn [rect_x rect_y rect_width rect_height].
  split; [reflexivity|]. split; [reflexivity|]. split.
  - intros a Ea. rewrite Ea in Hx. cbn in Hx. injection Hx as <-. reflexivity.
  - intros b Eb. rewrite Eb in Hy. cbn in Hy. injection Hy as <-. reflexivity.
Qed.

Lemma Rect_Contains_spec (r : Rect) (p : Point) :
  Rect_Contains r p = true ->
  rect_x r <= pt_x p < rect_x r + rect_width r /\
  rect_y r <= pt_y p < rect_y r + rect_height r.
Proof.
  unfold Rect_Contains. intros Hc.
  apply andb_true_iff in Hc. destruct Hc as (Hc & H4).
  apply andb_true_iff in Hc. destruct Hc as (Hc & H3).
  apply andb_true_iff in Hc. destruct Hc as (H1 & H2).
  rewrite Z.geb_leb in H1, H2.
  apply Z.leb_le in H1, H2. apply Z.ltb_lt in H3, H4. lia.
Qed.

(** The handles of a hit, with the rectangle they belong to. *)
Lemma hit_test_handle_In (self : PreviewPanel) (point : Point) (h : Handle.t) :
  _hit_test_handle self point = Ok (Some h) ->
  exists x y w h0 items pt rect,
    crop_rect self = Some (x, y, w, h0) /\
    handle_points self = Ok items /\
    In (h, pt) items /\ handle_rect pt = Ok rect /\
    Rect_Contains rect point = true.
Proof.
  unfold _hit_test_handle. intros Hh.
  apply bind_Ok in Hh. destruct Hh as (items & Hi & Hf).
  destruct (first_hit_In items point h Hf) as (pt & rect & Hin & Hr & Hc).
  destruct (crop_rect self) as [[[[x y] w] h0]|] eqn:Ec.
  - exists x, y, w, h0, items, pt, rect. repeat split; assumption.
  - unfold handle_points in Hi. rewrite Ec in Hi. injection Hi as <-.
    destruct Hin.
Qed.

Lemma handle_points_In (self : PreviewPanel) (x y w h0 : Z)
    (items : list (Handle.t * (number * number)))
    (h : Handle.t) (pt : number * number) :
  crop_rect self = Some (x, y, w, h0) ->
  handle_points self = Ok items -> In (h, pt) items ->
  h <> Handle.inside /\
  (Handle.has_left h = true -> fst pt = Int x) /\
  (Handle.has_right h = true -> fst pt = Int (x + w)) /\
  (Handle.has_top h = true -> snd pt = Int y) /\
  (Handle.has_bottom h = true -> snd pt = Int (y + h0)).
Proof.
  intros Ec Hi Hin. unfold handle_points in Hi. rewrite Ec in Hi.
  cbv zeta in Hi.
  apply bind_Ok in Hi. destruct Hi as (half_w & _ & Hi).
  apply bind_Ok in Hi. destruct Hi as (center_x & _ & Hi).
  apply bind_Ok in Hi. destruct Hi as (half_h & _ & Hi).
  apply bind_Ok in Hi. destruct Hi as (center_y & _ & Hi).
  injection Hi as <-.
  cbn [In] in Hin.
  repeat (destruct Hin as [Hin|Hin];
          [injection Hin as <- <-; cbn;
           repeat split; intros; try discriminate; reflexivity|]).
  destruct Hin.
Qed.

Lemma update_cursor_keeps (self self' : PointerPanel) (point : Point) :
  _update_cursor self point = Ok self' ->
  panel self' = panel self /\ mode self' = mode self.
Proof.
  unfold _update_cursor. intros Hu.
  apply bind_Ok in Hu. destruct Hu as (c & _ & Hu).
  injection Hu as <-. split; reflexivity.
Qed.

Lemma stores_drag (a b : PreviewPanel) :
  stores_normalised a b ->
  drag_handle b = drag_handle a /\ original_rect b = original_rect a /\
  current_image b = current_image a.
Proof.
  intros Hs. destruct Hs; repeat split; reflexivity.
Qed.

(** A motion event leaves the mode, and stores a normalised rectangle or
    nothing. *)
Lemma OnMouseMove_stores (self : PointerPanel) (evt : MouseEvent) :
  mode (OnMouseMove self evt) = mode self /\
  stores_normalised (panel self) (panel (OnMouseMove self evt)).
Proof.
  unfold OnMouseMove.
  destruct (current_image (panel self)); [|split; [reflexivity|constructor]].
  cbv zeta.
  destruct (Dragging evt && LeftIsDown evt
            && negb (Mode.eqb (mode self) Mode.idle)).
  - match goal with |- context [attempt self ?r] =>
      remember r as res eqn:E
    end.
    destruct res as [s'|e]; cbn [attempt]; [|split; [reflexivity|constructor]].
    symmetry in E. apply bind_Ok in E. destruct E as (p' & Hp & E).
    injection E as E. rewrite <- E. cbn [mode panel set_panel].
    split; [reflexivity|].
    destruct (mode self).
    + injection Hp as <-. constructor.
    + eapply creation_stores; eassumption.
    + destruct (opt_Rect_bool (original_rect (panel self)));
        [eapply move_stores; eassumption | injection Hp as <-; constructor].
    + destruct (opt_Rect_bool (original_rect (panel self)));
        [eapply resize_stores; eassumption | injection Hp as <-; constructor].
  - match goal with |- context [attempt self ?r] =>
      remember r as res eqn:E
    end.
    destruct res as [s'|e]; cbn [attempt]; [|split; [reflexivity|constructor]].
    symmetry in E. apply update_cursor_keeps in E. destruct E as (-> & ->).
    split; [reflexivity|constructor].
Qed.

Lemma crop_ok_ext (a b : PreviewPanel) :
  crop_rect b = crop_rect a -> display_w b = display_w a ->
  display_h b = display_h a -> crop_ok a -> crop_ok b.
Proof.
  unfold crop_ok, rect_ok. intros -> -> ->. tauto.
Qed.

Lemma OnLeftDown_in_gesture (self : PointerPanel) (evt : MouseEvent) :
  crop_ok (panel self) ->
  in_gesture (display_w (panel self)) (display_h (panel self))
    (OnLeftDown self evt).
Proof.
  intros Hok. unfold OnLeftDown, in_gesture.
  destruct (current_image (panel self));
    [|split; [reflexivity|split; [reflexivity|right; exact Hok]]].
  cbv zeta.
  destruct (_hit_test_handle (panel self) (_event_to_display_point self evt))
    as [handle|e];
    [|split; [reflexivity|split; [reflexivity|right; exact Hok]]].
  assert (Hkeep : forall a b,
             crop_ok (set_drag (panel self) a b)).
  { intros a b. apply (crop_ok_ext (panel self)); [reflexivity..|exact Hok]. }
  destruct handle as [h|]; destruct (crop_rect (panel self)) as [c|] eqn:Ec;
    cbn [panel mode set_capture set_drag_start set_panel set_mode
         display_w display_h set_drag];
    try (split; [reflexivity|split; [reflexivity|right; apply Hkeep]]).
  all: repeat match goal with
         | |- context [if ?c then _ else _] => destruct c
         end;
       cbn [panel mode set_capture set_drag_start set_panel set_mode
            display_w display_h set_drag set_crop_rect];
       (split; [reflexivity|split; [reflexivity|]]);
       first [left; reflexivity | right; apply Hkeep].
Qed.

Lemma OnMouseMove_in_gesture (dw dh : Z) (self : PointerPanel)
    (evt : MouseEvent) :
  MIN_CROP_SIZE <= dw -> MIN_CROP_SIZE <= dh ->
  in_gesture dw dh self -> in_gesture dw dh (OnMouseMove self evt).
Proof.
  intros Hw Hh (Ew & Eh & Hj).
  destruct (OnMouseMove_stores self evt) as (Em & Hs).
  destruct (stores_display _ _ Hs) as (Ew' & Eh').
  unfold in_gesture. rewrite Em, Ew', Eh'.
  split; [exact Ew|]. split; [exact Eh|].
  destruct Hj as [Hc|Hok]; [left; exact Hc|]. right.
  apply (stores_crop_ok (panel self)); [lia | lia | exact Hs | exact Hok].
Qed.

Lemma moves_in_gesture (dw dh : Z) (moves : list MouseEvent)
    (self : PointerPanel) :
  MIN_CROP_SIZE <= dw -> MIN_CROP_SIZE <= dh ->
  in_gesture dw dh self ->
  in_gesture dw dh (fold_left OnMouseMove moves self).
Proof.
  intros Hw Hh. revert self.
  induction moves as [|evt moves IH]; intros self Hj; cbn [fold_left].
  - exact Hj.
  - apply IH. apply OnMouseMove_in_gesture; assumption.
Qed.

Lemma OnLeftUp_at_rest (dw dh : Z) (self : PointerPanel) (evt : MouseEvent) :
  MIN_CROP_SIZE <= dw -> MIN_CROP_SIZE <= dh ->
  in_gesture dw dh self ->
  at_rest (OnLeftUp self evt) /\ crop_ok (panel (OnLeftUp self evt)) /\
  display_w (panel (OnLeftUp self evt)) = dw /\
  display_h (panel (OnLeftUp self evt)) = dh.
Proof.
  intros Hw Hh (Ew & Eh & Hj). unfold OnLeftUp. cbv zeta.
  match goal with |- context [attempt ?s ?r] =>
    set (mid := s);
    assert (Hmid : at_rest mid /\ crop_ok (panel mid) /\
                   display_w (panel mid) = dw /\ display_h (panel mid) = dh)
  end.
  { subst mid.
    cbn [panel mode set_capture set_drag_start set_panel set_mode crop_rect
         set_drag].
    destruct (crop_rect (panel self)) as [c|] eqn:Ec.
    - destruct (Mode.eqb (mode self) Mode.creating) eqn:Em.
      + cbn [panel mode set_panel set_crop_rect set_drag].
        split; [repeat split; reflexivity|]. split.
        * unfold crop_ok. cbn [crop_rect set_crop_rect].
          apply (ensure_min_size_ok
                   (set_drag (panel self) None None)
                   (_rect_from_crop (set_drag (panel self) None None)));
            cbn [display_w display_h set_drag]; lia.
        * split; assumption.
      + cbn [panel mode set_capture set_drag_start set_panel set_mode].
        split; [repeat split; reflexivity|]. split; [|split; assumption].
        apply (crop_ok_ext (panel self)); [reflexivity..|].
        destruct Hj as [Hc|Hok]; [|exact Hok].
        rewrite Hc in Em. discriminate.
    - cbn [panel mode set_capture set_drag_start set_panel set_mode].
      split; [repeat split; reflexivity|]. split; [|split; assumption].
      unfold crop_ok. cbn [crop_rect set_drag]. rewrite Ec. exact I. }
  match goal with |- context [attempt mid ?r] =>
    remember r as res eqn:E
  end.
  destruct res as [s'|e]; cbn [attempt]; [|exact Hmid].
  symmetry in E. apply bind_Ok in E. destruct E as (t & _ & E).
  apply update_cursor_keeps in E. destruct E as (Ep & Em).
  unfold at_rest in *. rewrite Ep, Em. exact Hmid.
Qed.

Lemma interact_at_rest (dw dh : Z) (self : PointerPanel) (i : interaction) :
  MIN_CROP_SIZE <= dw -> MIN_CROP_SIZE <= dh ->
  display_w (panel self) = dw -> display_h (panel self) = dh ->
  at_rest self -> crop_ok (panel self) ->
  at_rest (interact self i) /\ crop_ok (panel (interact self i)) /\
  display_w (panel (interact self i)) = dw /\
  display_h (panel (interact self i)) = dh.
Proof.
  intros Hw Hh Ew Eh Hrest Hok.
  destruct i as [evt| |down moves up]; cbn [interact].
  - destruct (OnMouseMove_stores self evt) as (Em & Hs).
    destruct (stores_display _ _ Hs) as (Ew' & Eh').
    destruct (stores_drag _ _ Hs) as (Ed & Eo & _).
    unfold at_rest in *. rewrite Em, Ed, Eo, Ew', Eh'.
    split; [exact Hrest|]. split; [|split; assumption].
    apply (stores_crop_ok (panel self)); [lia | lia | exact Hs | exact Hok].
  - unfold OnMouseLeave.
    destruct (Mode.eqb (mode self) Mode.idle);
      (split; [exact Hrest|]; split; [exact Hok|]; split; assumption).
  - apply OnLeftUp_at_rest; [exact Hw | exact Hh|].
    apply moves_in_gesture; [exact Hw | exact Hh|].
    subst dw dh. apply OnLeftDown_in_gesture. exact Hok.
Qed.
End PointerFacts.

(** X12: a handle is reported only for a point next to the edges it moves.
    When [_hit_test_handle] returns a handle, there is a rectangle
    [(x, y, w, h)], the handle is one of the eight (never ["inside"]), and
    the point is less than HANDLE_SIZE / 2 before, or at most
    HANDLE_SIZE / 2 - 1 after, each edge the handle names: [x] for left,
    [x + w] for right, [y] for top, [y + h] for bottom. *)
Theorem hit_test_handle_near_edges
    {B : Builtins} {P : Pillow} (self : PreviewPanel) (point : Point)
    (handle : Handle.t) :
  _hit_test_handle self point = Ok (Some handle) ->
  exists x y w h,
    crop_rect self = Some (x, y, w, h) /\
    handle <> Handle.inside /\
    (Handle.has_left handle = true -> x - 5 <= pt_x point < x + 5) /\
    (Handle.has_right handle = true ->
     x + w - 5 <= pt_x point < x + w + 5) /\
    (Handle.has_top handle = true -> y - 5 <= pt_y point < y + 5) /\
    (Handle.has_bottom handle = true ->
     y + h - 5 <= pt_y point < y + h + 5).
Proof.
  intros Hh.
  destruct (hit_test_handle_In self point handle Hh)
    as (x & y & w & h0 & items & pt & rect & Ec & Hi & Hin & Hr & Hc).
  destruct (handle_points_In self x y w h0 items handle pt Ec Hi Hin)
    as (Hne & Hl & Hrt & Ht & Hb).
  destruct (handle_rect_spec pt rect Hr) as (Ew & Eh & Hx & Hy).
  apply Rect_Contains_spec in Hc. unfold HANDLE_SIZE in *.
  exists x, y, w, h0. split; [exact Ec|]. split; [exact Hne|].
  split; [|split; [|split]]; intros Hhas.
  - rewrite (Hx _ (Hl Hhas)) in Hc. lia.
  - rewrite (Hx _ (Hrt Hhas)) in Hc. lia.
  - rewrite (Hy _ (Ht Hhas)) in Hc. lia.
  - rewrite (Hy _ (Hb Hhas)) in Hc. lia.
Qed.

Lemma hit_test_handle_near_edges_witness :
  exists x y w h,
    crop_rect (Demo.panel 800 600 false "" (Some (100, 100, 200, 150))
                 None None) = Some (x, y, w, h) /\
    Handle.bottom_right <> Handle.inside /\
    (Handle.has_left Handle.bottom_right = true -> x - 5 <= 303 < x + 5) /\
    (Handle.has_right Handle.bottom_right = true ->
     x + w - 5 <= 303 < x + w + 5) /\
    (Handle.has_top Handle.bottom_right = true -> y - 5 <= 246 < y + 5) /\
    (Handle.has_bottom Handle.bottom_right = true ->
     y + h - 5 <= 246 < y + h + 5).
Proof.
  apply (hit_test_handle_near_edges
           (Demo.panel 800 600 false "" (Some (100, 100, 200, 150)) None None)
           (mkPoint 303 246) Handle.bottom_right).
  vm_compute; reflexivity.
Defined.

(** X13: the pointer keeps the selection invariant.  On a display of at
    least MIN_CROP_SIZE pixels each way, start between two gestures (mode
    idle, no handle, no original rectangle) with no selection or one that
    satisfies the invariant; then after any sequence of hovering, leaving
    the panel and complete press-drag-release gestures the panel is again
    between two gestures, the display is the same, and the selection
    satisfies the invariant: the zero-size rectangle a press stores is
    never left behind. *)
Theorem pointer_gestures_keep_invariant
    {B : Builtins} {P : Pillow} (acts : list interaction) (self : PointerPanel) :
  MIN_CROP_SIZE <= display_w (panel self) ->
  MIN_CROP_SIZE <= display_h (panel self) ->
  at_rest self -> crop_ok (panel self) ->
  at_rest (fold_left interact acts self) /\
  crop_ok (panel (fold_left interact acts self)) /\
  display_w (panel (fold_left interact acts self)) = display_w (panel self) /\
  display_h (panel (fold_left interact acts self)) = display_h (panel self).
Proof.
  revert self. induction acts as [|i acts IH]; intros self Hw Hh Hrest Hok;
    cbn [fold_left].
  - repeat split; try assumption; apply Hrest.
  - destruct (interact_at_rest _ _ self i Hw Hh eq_refl eq_refl Hrest Hok)
      as (Hrest' & Hok' & Ew & Eh).
    destruct (IH (interact self i)) as (H1 & H2 & H3 & H4);
      [rewrite Ew; exact Hw | rewrite Eh; exact Hh | exact Hrest' | exact Hok'|].
    split; [exact H1|]. split; [exact H2|]. split; congruence.
Qed.

Lemma pointer_gestures_keep_invariant_witness :
  at_rest (fold_left interact DemoPointer.acts DemoPointer.start) /\
  crop_ok (panel (fold_left interact DemoPointer.acts DemoPointer.start)) /\
  display_w (panel (fold_left interact DemoPointer.acts DemoPointer.start))
  = display_w (panel DemoPointer.start) /\
  display_h (panel (fold_left interact DemoPointer.acts DemoPointer.start))
  = display_h (panel DemoPointer.start).
Proof.
  apply (pointer_gestures_keep_invariant DemoPointer.acts DemoPointer.start).
  - unfold MIN_CROP_SIZE; cbn; lia.
  - unfold MIN_CROP_SIZE; cbn; lia.
  - repeat split; reflexivity.
  - exact I.
Defined.

(** ** The cursor and the press *)

Section CursorFacts.
Context {B : Builtins} {P : Pillow}.

Lemma contains_in_display (self : PreviewPanel) (c : tuple4) (point : Point) :
  rect_ok self c -> _rect_contains_point c point = true ->
  _point_in_display self point = true.
Proof.
  destruct c as [[[x y] w] h]. unfold rect_ok, _rect_contains_point,
    _point_in_display, MIN_CROP_SIZE.
  intros (Hw & Hh & Hx & Hy & Hr & Hb) Hc.
  apply andb_true_iff in Hc. destruct Hc as (Hc1 & Hc2).
  apply andb_true_iff in Hc1. apply andb_true_iff in Hc2.
  destruct Hc1 as (H1 & H2). destruct Hc2 as (H3 & H4).
  apply Z.leb_le in H1, H2, H3, H4.
  repeat (apply andb_true_iff; split); apply Z.leb_le; lia.
Qed.

Lemma hit_not_inside (self : PreviewPanel) (point : Point) (h : Handle.t) :
  _hit_test_handle self point = Ok (Some h) ->
  h <> Handle.inside /\ crop_rect self <> None.
Proof.
  intros Hh.
  destruct (hit_test_handle_In self point h Hh)
    as (x & y & w & h0 & items & pt & rect & Ec & Hi & Hin & _).
  destruct (handle_points_In self x y w h0 items h pt Ec Hi Hin) as (Hne & _).
  split; [exact Hne | rewrite Ec; discriminate].
Qed.
End CursorFacts.

(** X14: the cursor announces the gesture.  With an image shown and a
    selection that satisfies the invariant (or none), the cursor
    [_update_cursor] sets at a point tells the mode [OnLeftDown] enters at
    that point: a resize cursor for resizing, SIZING for moving, CROSS for
    creating, ARROW for idle. *)
Theorem cursor_announces_gesture
    {B : Builtins} {P : Pillow} (self self1 : PointerPanel) (evt : MouseEvent) :
  current_image (panel self) <> None ->
  crop_ok (panel self) ->
  _update_cursor self (_event_to_display_point self evt) = Ok self1 ->
  mode (OnLeftDown self evt) = mode_of_cursor (_current_cursor self1).
Proof.
  intros Himg Hok Hu. unfold _update_cursor in Hu.
  apply bind_Ok in Hu. destruct Hu as (c & Hc & Hu). injection Hu as <-.
  cbn [_current_cursor set_cursor].
  unfold cursor_at in Hc. apply bind_Ok in Hc.
  destruct Hc as (handle & Hh & Hc). injection Hc as <-.
  unfold OnLeftDown.
  destruct (current_image (panel self)); [|contradiction].
  cbv zeta. rewrite Hh.
  destruct handle as [h|].
  - destruct (hit_not_inside _ _ _ Hh) as (Hne & Hcr).
    destruct (crop_rect (panel self)) as [c|]; [|contradiction].
    destruct h; try contradiction; reflexivity.
  - unfold crop_ok in Hok.
    destruct (crop_rect (panel self)) as [c|].
    + destruct (_rect_contains_point c (_event_to_display_point self evt))
        eqn:Ec.
      * rewrite (contains_in_display _ c _ Hok Ec). reflexivity.
      * destruct (_point_in_display (panel self)
                    (_event_to_display_point self evt)); reflexivity.
    + destruct (_point_in_display (panel self)
                  (_event_to_display_point self evt)); reflexivity.
Qed.

Lemma cursor_announces_gesture_witness :
  mode (OnLeftDown
          (mkPointerPanel Demo.pillow
             (Demo.panel 800 600 false "" (Some (100, 100, 200, 150))
                None None)
             Mode.idle (mkPoint 0 0) 10 20 CURSOR_ARROW false)
          (mkMouseEvent (mkPoint 212 268) false true))
  = mode_of_cursor
      (_current_cursor
         (mkPointerPanel Demo.pillow
            (Demo.panel 800 600 false "" (Some (100, 100, 200, 150))
               None None)
            Mode.idle (mkPoint 0 0) 10 20 CURSOR_SIZENS false)).
Proof.
  apply (cursor_announces_gesture
           (mkPointerPanel Demo.pillow
              (Demo.panel 800 600 false "" (Some (100, 100, 200, 150))
                 None None)
              Mode.idle (mkPoint 0 0) 10 20 CURSOR_ARROW false)).
  - discriminate.
  - unfold crop_ok, rect_ok, MIN_CROP_SIZE; cbn; lia.
  - vm_compute; reflexivity.
Defined.

(** ** The coordinate fields after UpdateControls *)

Section PublishFacts.
Context {B : Builtins} {P : Pillow}.

Lemma GetCropBox_ordered (self : PreviewPanel) (x1 y1 x2 y2 : Z) :
  GetCropBox self = Ok (Some (x1, y1, x2, y2)) -> x1 < x2 /\ y1 < y2.
Proof.
  unfold GetCropBox.
  destruct (crop_rect self) as [[[[x y] w] h]|]; [|discriminate].
  destruct (current_image self) as [img|]; [|discriminate].
  destruct (Image_size img) as [iw ih].
  intros Hb.
  repeat (apply bind_Ok in Hb; destruct Hb as (? & _ & Hb)).
  injection Hb as <- <- <- <-. lia.
Qed.
End PublishFacts.

Lemma decimal_builtins_read_back (z : Z) :
  @int_of_str decimal_builtins (py_str z) = Some z.
Proof.
  unfold py_str. cbn [int_of_str decimal_builtins].
  rewrite NilZero.isi.
  - cbn [option_map]. rewrite DecimalZ.of_to. reflexivity.
  - destruct z; cbn; try discriminate.
    intros E. injection E as E.
    exact (DecimalPos.Unsigned.to_uint_nonnil _ E).
  - destruct z; cbn; try discriminate.
    intros E. injection E as E.
    exact (DecimalPos.Unsigned.to_uint_nonnil _ E).
Qed.

(** X15: what [UpdateControls] writes passes [GetValidatedBox].  When
    [int] reads back what [str] prints, and the four fields hold the texts
    [UpdateControls] wrote, [GetValidatedBox] returns the box of
    [GetCropBox] and shows no message: the box the panel publishes always
    has [xe > xs] and [ye > ys]. *)
Theorem published_box_validates
    {B : Builtins} {P : Pillow} {H : Host} (self : PreviewPanel)
    (texts : coord -> string) (u : UI) :
  (forall z, int_of_str (py_str z) = Some z) ->
  UpdateControls self = Ok (Some texts) ->
  (forall k, GetValue u k = texts k) ->
  exists box,
    GetCropBox self = Ok (Some box) /\ GetValidatedBox u = (u, Some box).
Proof.
  intros Hread Hu Hget. unfold UpdateControls in Hu.
  apply bind_Ok in Hu. destruct Hu as (box & Hbox & Hu).
  destruct box as [[[[x1 y1] x2] y2]|]; [|discriminate].
  injection Hu as <-.
  exists (x1, y1, x2, y2). split; [exact Hbox|].
  destruct (GetCropBox_ordered self x1 y1 x2 y2 Hbox) as (Hx & Hy).
  unfold GetValidatedBox. rewrite !Hget, !Hread.
  destruct (Z.leb_spec x2 x1); [lia|].
  destruct (Z.leb_spec y2 y1); [lia|].
  reflexivity.
Qed.

Lemma published_box_validates_witness :
  exists box,
    GetCropBox (Demo.panel 800 600 false "" (Some (100, 100, 200, 150))
                  None None) = Ok (Some box) /\
    @GetValidatedBox decimal_builtins Demo.pillow Demo.host
      (Demo.mkWidgets (Demo.box_texts "200" "200" "600" "500") [])
    = (Demo.mkWidgets (Demo.box_texts "200" "200" "600" "500") [],
       Some box).
Proof.
  apply (@published_box_validates decimal_builtins Demo.pillow Demo.host
           (Demo.panel 800 600 false "" (Some (100, 100, 200, 150))
              None None)
           (Demo.box_texts "200" "200" "600" "500")).
  - exact decimal_builtins_read_back.
  - vm_compute; reflexivity.
  - intros k; destruct k; reflexivity.
Defined.

(** ** Image, display geometry and aspect lock *)

Section ViewFacts.
Context {B : Builtins} {P : Pillow}.

Ltac binds H :=
  repeat (apply bind_Ok in H; destruct H as (? & _ & H)).

Lemma apply_aspect_stores (self self' : PreviewPanel) :
  ApplyAspectRatioToSelection self = Ok self' ->
  stores_normalised self self'.
Proof.
  unfold ApplyAspectRatioToSelection.
  destruct (crop_rect self) as [[[[x y] w] h]|];
    [|intros E; injection E as <-; constructor].
  destruct (fixed_aspect self); cbn [negb];
    [|intros E; injection E as <-; constructor].
  destruct (_get_aspect_ratio self) as [ratio|];
    [|intros E; injection E as <-; constructor].
  destruct (Py.float_bool ratio); cbn [negb];
    [|intros E; injection E as <-; constructor].
  intros E. binds E. injection E as <-. constructor.
Qed.

Lemma init_rect_stores (self self' : PreviewPanel) :
  init_rect self = Ok self' ->
  exists rect,
    self' = set_crop_rect self
              (Some (tuple_of_rect (_ensure_min_size self (Some rect)))).
Proof.
  unfold init_rect. destruct (init_size self) as [rect_w rect_h].
  intros E. binds E. injection E as <-. eexists. reflexivity.
Qed.

Lemma rescale_stores (self self' : PreviewPanel) :
  RescaleCropRect self = Ok self' -> stores_normalised self self'.
Proof.
  unfold RescaleCropRect.
  destruct (crop_rect self) as [[[[x y] w] h]|];
    [|intros E; injection E as <-; constructor].
  destruct ((old_display_w self =? 0) || (old_display_h self =? 0));
    [intros E; injection E as <-; constructor|].
  intros E. binds E. injection E as <-. constructor.
Qed.

Lemma rescale_sets (self self' : PreviewPanel) :
  RescaleCropRect self = Ok self' -> crop_rect self <> None ->
  old_display_w self <> 0 -> old_display_h self <> 0 ->
  exists rect,
    self' = set_crop_rect self
              (Some (tuple_of_rect (_ensure_min_size self (Some rect)))).
Proof.
  unfold RescaleCropRect.
  destruct (crop_rect self) as [[[[x y] w] h]|]; [|contradiction].
  intros E _ Hw Hh.
  assert (Ez : (old_display_w self =? 0) || (old_display_h self =? 0) = false).
  { apply orb_false_iff. split; apply Z.eqb_neq; assumption. }
  rewrite Ez in E. binds E. injection E as <-. eexists. reflexivity.
Qed.

Lemma rescale_from_empty (self : PreviewPanel) :
  old_display_w self = 0 \/ old_display_h self = 0 ->
  RescaleCropRect self = Ok self.
Proof.
  intros Hz. unfold RescaleCropRect.
  destruct (crop_rect self) as [[[[x y] w] h]|]; [|reflexivity].
  assert (E : (old_display_w self =? 0) || (old_display_h self =? 0) = true).
  { apply orb_true_iff.
    destruct Hz as [-> | ->]; [left | right]; reflexivity. }
  rewrite E. reflexivity.
Qed.

(** What an action leaves of the selection on a display that it keeps. *)
Lemma on_panel_keeps (m : PreviewPanel -> result PreviewPanel)
    (s : PointerPanel) :
  (forall p p', m p = Ok p' -> stores_normalised p p') ->
  keeps_selection (on_panel m) s.
Proof.
  intros Hm Hw Hh Hok. unfold on_panel.
  destruct (m (panel s)) as [p'|e] eqn:E; cbn [fst panel set_panel].
  - specialize (Hm _ _ E). destruct (stores_display _ _ Hm) as (Ew & Eh).
    split; [exact Ew|]. split; [exact Eh|].
    apply (stores_crop_ok (panel s)); assumption.
  - repeat split; try reflexivity. exact Hok.
Qed.

Lemma andthen_keeps (a b : action) (s : PointerPanel) :
  keeps_selection a s ->
  (forall s', keeps_selection b s') ->
  keeps_selection (andthen a b) s.
Proof.
  intros Ha Hb Hw Hh Hok. unfold andthen.
  destruct (Ha Hw Hh Hok) as (Ew & Eh & Hok').
  destruct (a s) as [s' [e|]]; cbn [fst] in *.
  - split; [exact Ew|]. split; [exact Eh | exact Hok'].
  - destruct (Hb s') as (Ew' & Eh' & Hok'');
      [rewrite Ew; exact Hw | rewrite Eh; exact Hh | exact Hok'|].
    split; [congruence|]. split; [congruence | exact Hok''].
Qed.

Lemma assign_keeps (f : PointerPanel -> PointerPanel) (s : PointerPanel) :
  crop_rect (panel (f s)) = crop_rect (panel s) ->
  display_w (panel (f s)) = display_w (panel s) ->
  display_h (panel (f s)) = display_h (panel s) ->
  keeps_selection (assign f) s.
Proof.
  intros Ec Ew Eh _ _ Hok. unfold assign. cbn [fst].
  split; [exact Ew|]. split; [exact Eh|].
  apply (crop_ok_ext (panel s)); assumption.
Qed.

Lemma check_keeps {A : Type} (m : PreviewPanel -> result A) (s : PointerPanel) :
  keeps_selection (check m) s.
Proof.
  intros _ _ Hok. unfold check.
  destruct (m (panel s)); cbn [fst]; repeat split; try reflexivity; exact Hok.
Qed.

Lemma init_rect_keeps (s : PointerPanel) :
  keeps_selection (on_panel init_rect) s.
Proof.
  apply on_panel_keeps. intros p p' E.
  destruct (init_rect_stores p p' E) as (rect & ->). constructor.
Qed.

Lemma InitCropRect_keeps (s : PointerPanel) : keeps_selection InitCropRect s.
Proof.
  unfold InitCropRect.
  apply andthen_keeps; [apply init_rect_keeps|]. intros s1.
  apply andthen_keeps;
    [apply on_panel_keeps; exact apply_aspect_stores|]. intros s2.
  apply andthen_keeps; [apply assign_keeps; reflexivity|]. intros s3.
  apply check_keeps.
Qed.

Lemma OnAspectToggle_keeps (lock : bool) (text : string) (s : PointerPanel) :
  keeps_selection (OnAspectToggle lock text) s.
Proof.
  unfold OnAspectToggle.
  apply andthen_keeps; [apply assign_keeps; reflexivity|]. intros s1.
  apply andthen_keeps; [|intros s2; apply check_keeps].
  destruct lock.
  - apply andthen_keeps; [apply assign_keeps; reflexivity|]. intros s2.
    intros Hw Hh Hok.
    destruct (crop_rect (panel s2));
      [apply on_panel_keeps; [exact apply_aspect_stores|..]
      |apply InitCropRect_keeps]; assumption.
  - apply assign_keeps; reflexivity.
Qed.

Lemma andthen_returns (a b : action) (s : PointerPanel) :
  snd (andthen a b s) = None ->
  snd (a s) = None /\ snd (b (fst (a s))) = None /\
  fst (andthen a b s) = fst (b (fst (a s))).
Proof.
  unfold andthen. destruct (a s) as [s' [e|]]; cbn [fst snd];
    [discriminate|].
  intros E. split; [reflexivity|]. split; [exact E | reflexivity].
Qed.

Lemma on_panel_returns (m : PreviewPanel -> result PreviewPanel)
    (s : PointerPanel) :
  snd (on_panel m s) = None ->
  exists p', m (panel s) = Ok p' /\ fst (on_panel m s) = set_panel s p'.
Proof.
  unfold on_panel. destruct (m (panel s)) as [p'|e]; cbn [fst snd];
    [|discriminate].
  intros _. exists p'. split; reflexivity.
Qed.

Lemma check_state {A : Type} (m : PreviewPanel -> result A)
    (s : PointerPanel) :
  fst (check m s) = s.
Proof. unfold check. destruct (m (panel s)); reflexivity. Qed.

Lemma rect_ok_ext (a b : PreviewPanel) (c : tuple4) :
  display_w b = display_w a -> display_h b = display_h a ->
  rect_ok a c -> rect_ok b c.
Proof. unfold rect_ok. intros -> ->. tauto. Qed.

Lemma stores_some (a b : PreviewPanel) (c : tuple4) :
  stores_normalised a b -> crop_rect a = Some c ->
  (MIN_CROP_SIZE <= display_w a -> MIN_CROP_SIZE <= display_h a ->
   rect_ok a c) ->
  exists c', crop_rect b = Some c' /\
             (MIN_CROP_SIZE <= display_w a -> MIN_CROP_SIZE <= display_h a ->
              rect_ok a c').
Proof.
  intros Hs Ec Hok. destruct Hs as [|rect].
  - exists c. split; assumption.
  - eexists. split; [reflexivity|]. intros Hw Hh.
    apply ensure_min_size_ok; assumption.
Qed.

(** [InitCropRect] that returns has stored a rectangle. *)
Lemma InitCropRect_returns (s : PointerPanel) :
  snd (InitCropRect s) = None ->
  at_rest (fst (InitCropRect s)) /\
  current_image (panel (fst (InitCropRect s))) = current_image (panel s) /\
  display_w (panel (fst (InitCropRect s))) = display_w (panel s) /\
  display_h (panel (fst (InitCropRect s))) = display_h (panel s) /\
  exists c,
    crop_rect (panel (fst (InitCropRect s))) = Some c /\
    (MIN_CROP_SIZE <= display_w (panel s) ->
     MIN_CROP_SIZE <= display_h (panel s) -> rect_ok (panel s) c).
Proof.
  unfold InitCropRect. intros Hr.
  apply andthen_returns in Hr. destruct Hr as (H1 & Hr & ->).
  apply andthen_returns in Hr. destruct Hr as (H2 & Hr & ->).
  apply andthen_returns in Hr. destruct Hr as (_ & _ & ->).
  rewrite check_state.
  apply on_panel_returns in H2. destruct H2 as (p2 & E2 & ->).
  apply on_panel_returns in H1. destruct H1 as (p1 & E1 & Es1).
  rewrite Es1 in E2 |- *.
  change (panel (set_panel s p1)) with p1 in E2.
  destruct (init_rect_stores _ _ E1) as (rect & Ep1).
  apply apply_aspect_stores in E2.
  assert (H1 : exists c, crop_rect p1 = Some c /\
                 (MIN_CROP_SIZE <= display_w p1 ->
                  MIN_CROP_SIZE <= display_h p1 -> rect_ok p1 c)).
  { rewrite Ep1. eexists. split; [reflexivity|]. intros Hw Hh.
    apply (rect_ok_ext (panel s)); [reflexivity..|].
    apply ensure_min_size_ok; assumption. }
  assert (Ed1 : display_w p1 = display_w (panel s) /\
                display_h p1 = display_h (panel s) /\
                current_image p1 = current_image (panel s)).
  { rewrite Ep1. repeat split; reflexivity. }
  clear Ep1 E1.
  destruct H1 as (c1 & Ec1 & Hok1).
  destruct (stores_some p1 p2 c1 E2 Ec1 Hok1) as (c2 & Ec2 & Hok2).
  destruct (stores_display _ _ E2) as (Ew2 & Eh2).
  destruct (stores_drag _ _ E2) as (_ & _ & Ei2).
  destruct Ed1 as (Ew1 & Eh1 & Ei1).
  unfold assign, reset_drag. cbv zeta.
  cbn [fst panel mode set_panel set_mode set_drag_start].
  split; [repeat split; reflexivity|].
  change (current_image (set_drag p2 None None)) with (current_image p2).
  change (display_w (set_drag p2 None None)) with (display_w p2).
  change (display_h (set_drag p2 None None)) with (display_h p2).
  change (crop_rect (set_drag p2 None None)) with (crop_rect p2).
  split; [congruence|]. split; [congruence|]. split; [congruence|].
  exists c2. split; [exact Ec2|]. intros Hw Hh.
  apply (rect_ok_ext p1); [congruence | congruence|].
  apply Hok2; congruence.
Qed.

(** [UpdateDisplayGeometry] assigns the display and the offsets only. *)
Lemma UpdateDisplayGeometry_keeps (client : Z * Z) (s : PointerPanel) :
  crop_rect (panel (fst (UpdateDisplayGeometry client s)))
  = crop_rect (panel s) /\
  current_image (panel (fst (UpdateDisplayGeometry client s)))
  = current_image (panel s) /\
  old_display_w (panel (fst (UpdateDisplayGeometry client s)))
  = old_display_w (panel s) /\
  old_display_h (panel (fst (UpdateDisplayGeometry client s)))
  = old_display_h (panel s).
Proof.
  unfold UpdateDisplayGeometry.
  destruct (current_image (panel s)) as [img|] eqn:Ei;
    [|cbn [fst]; repeat split; try reflexivity; exact Ei].
  destruct client as [pw ph]. destruct (Image_size img) as [iw ih].
  repeat match goal with
         | |- context [match ?m with Ok _ => _ | Raise _ => _ end] =>
             destruct m
         end;
    cbn [fst panel set_panel set_offsets set_display_w set_display_h
         crop_rect current_image old_display_w old_display_h];
    repeat split; try reflexivity; exact Ei.
Qed.
Lemma assign_state (f : PointerPanel -> PointerPanel) (s : PointerPanel) :
  fst (assign f s) = f s.
Proof. reflexivity. Qed.

Lemma reset_drag_spec (s : PointerPanel) :
  at_rest (reset_drag s) /\
  current_image (panel (reset_drag s)) = current_image (panel s) /\
  display_w (panel (reset_drag s)) = display_w (panel s) /\
  display_h (panel (reset_drag s)) = display_h (panel s) /\
  crop_rect (panel (reset_drag s)) = crop_rect (panel s).
Proof.
  unfold reset_drag, at_rest. repeat split; reflexivity.
Qed.
End ViewFacts.

(** X16: the aspect lock keeps the selection invariant.  On a display of
    at least MIN_CROP_SIZE pixels each way, with no selection or one that
    satisfies the invariant, [ApplyAspectRatioToSelection], [InitCropRect]
    and [OnAspectToggle] leave the display as it is and a selection that
    satisfies the invariant, also when an exception ends them. *)
Theorem aspect_methods_keep_invariant
    {B : Builtins} {P : Pillow} (c : aspect_call) (s : PointerPanel) :
  MIN_CROP_SIZE <= display_w (panel s) ->
  MIN_CROP_SIZE <= display_h (panel s) ->
  crop_ok (panel s) ->
  display_w (panel (fst (call_aspect c s))) = display_w (panel s) /\
  display_h (panel (fst (call_aspect c s))) = display_h (panel s) /\
  crop_ok (panel (fst (call_aspect c s))).
Proof.
  intros Hw Hh Hok. destruct c as [| |lock tc_aspect]; cbn [call_aspect].
  - apply (on_panel_keeps _ s apply_aspect_stores); assumption.
  - apply InitCropRect_keeps; assumption.
  - apply OnAspectToggle_keeps; assumption.
Qed.

Lemma aspect_methods_keep_invariant_witness :
  display_w (panel (fst (call_aspect (AspectToggle true "4:3")
                           DemoPointer.start)))
  = display_w (panel DemoPointer.start) /\
  display_h (panel (fst (call_aspect (AspectToggle true "4:3")
                           DemoPointer.start)))
  = display_h (panel DemoPointer.start) /\
  crop_ok (panel (fst (call_aspect (AspectToggle true "4:3")
                         DemoPointer.start))).
Proof.
  apply (aspect_methods_keep_invariant (AspectToggle true "4:3")
           DemoPointer.start).
  - unfold MIN_CROP_SIZE; cbn; lia.
  - unfold MIN_CROP_SIZE; cbn; lia.
  - exact I.
Defined.

(** X17: [SetImage] that returns leaves the panel between two gestures
    with the new image and with a selection; on a display of at least
    MIN_CROP_SIZE pixels each way that selection satisfies the invariant,
    whatever rectangle and display there were before. *)
Theorem SetImage_leaves_selection
    {B : Builtins} {P : Pillow} (s : PointerPanel) (img : Image)
    (client : Z * Z) :
  snd (SetImage img client s) = None ->
  let s' := fst (SetImage img client s) in
  at_rest s' /\ current_image (panel s') = Some img /\
  exists c, crop_rect (panel s') = Some c /\
            (MIN_CROP_SIZE <= display_w (panel s') ->
             MIN_CROP_SIZE <= display_h (panel s') ->
             rect_ok (panel s') c).
Proof.
  intros Hr s'. subst s'. unfold SetImage in *. cbv zeta in *.
  set (s1 := set_panel s (set_current_image (panel s) (Some img))).
  destruct (UpdateDisplayGeometry_keeps client s1) as (_ & Ei & _).
  change (current_image (panel s1)) with (Some img) in Ei.
  destruct (crop_rect (panel s)) as [[[[x y] w] h]|].
  - apply andthen_returns in Hr. destruct Hr as (_ & Hr & ->).
    apply andthen_returns in Hr. destruct Hr as (_ & Hr & ->).
    apply andthen_returns in Hr. destruct Hr as (_ & _ & ->).
    rewrite !assign_state. fold s1.
    set (s2 := fst (UpdateDisplayGeometry client s1)) in *.
    match goal with |- context [reset_drag ?t] =>
      destruct (reset_drag_spec t) as (Hrest & Hi & Hw & Hh & Hc)
    end.
    split; [exact Hrest|]. rewrite Hi, Hw, Hh, Hc.
    split; [exact Ei|].
    eexists. split; [reflexivity|].
    cbn [panel set_panel display_w display_h set_crop_rect].
    intros Hw' Hh'. unfold ClipRect.
    apply (rect_ok_ext (panel s2)); [reflexivity | reflexivity|].
    apply ensure_min_size_ok; assumption.
  - apply andthen_returns in Hr. destruct Hr as (_ & Hr & ->).
    apply andthen_returns in Hr. destruct Hr as (_ & Hr & ->).
    apply andthen_returns in Hr. destruct Hr as (Hinit & _ & ->).
    rewrite !assign_state in *. fold s1 in Hinit |- *.
    set (s2 := fst (UpdateDisplayGeometry client s1)) in *.
    destruct (InitCropRect_returns s2 Hinit)
      as (_ & Hi3 & Hw3 & Hh3 & c & Ec & Hok).
    match goal with |- context [reset_drag ?t] =>
      destruct (reset_drag_spec t) as (Hrest & Hi & Hw & Hh & Hc)
    end.
    split; [exact Hrest|]. rewrite Hi, Hw, Hh, Hc.
    split; [rewrite Hi3; exact Ei|].
    exists c. split; [exact Ec|]. rewrite Hw3, Hh3. intros Hw' Hh'.
    apply (rect_ok_ext (panel s2)); [exact Hw3 | exact Hh3|].
    apply Hok; assumption.
Qed.

Lemma SetImage_leaves_selection_witness :
  let s' := fst (SetImage (1600, 1200) (820, 640) DemoPointer.start) in
  at_rest s' /\ current_image (panel s') = Some (1600, 1200) /\
  exists c, crop_rect (panel s') = Some c /\
            (MIN_CROP_SIZE <= display_w (panel s') ->
             MIN_CROP_SIZE <= display_h (panel s') ->
             rect_ok (panel s') c).
Proof.
  apply (SetImage_leaves_selection DemoPointer.start (1600, 1200) (820, 640)).
  vm_compute; reflexivity.
Defined.

(** X18: a resize of the panel rescales the selection.  When [OnSize]
    returns, the display before it had no empty side, and the display after
    it has at least MIN_CROP_SIZE pixels each way, the selection satisfies
    the invariant for the new display. *)
Theorem OnSize_keeps_invariant
    {B : Builtins} {P : Pillow} (s : PointerPanel) (client : Z * Z) :
  snd (OnSize client s) = None ->
  display_w (panel s) <> 0 -> display_h (panel s) <> 0 ->
  MIN_CROP_SIZE <= display_w (panel (fst (OnSize client s))) ->
  MIN_CROP_SIZE <= display_h (panel (fst (OnSize client s))) ->
  crop_ok (panel (fst (OnSize client s))).
Proof.
  intros Hr Hw0 Hh0. unfold OnSize in *.
  apply andthen_returns in Hr. destruct Hr as (_ & Hr & ->).
  apply andthen_returns in Hr. destruct Hr as (_ & Hr & ->).
  rewrite !assign_state in *.
  set (s1 := set_panel s
               (set_old_display (panel s) (display_w (panel s))
                  (display_h (panel s)))) in *.
  destruct (UpdateDisplayGeometry_keeps client s1) as (_ & _ & Eow & Eoh).
  change (old_display_w (panel s1)) with (display_w (panel s)) in Eow.
  change (old_display_h (panel s1)) with (display_h (panel s)) in Eoh.
  set (s2 := fst (UpdateDisplayGeometry client s1)) in *.
  destruct (crop_rect (panel s2)) as [c|] eqn:Ec2.
  - apply on_panel_returns in Hr. destruct Hr as (p' & Er & ->).
    change (panel (set_panel s2 p')) with p'.
    destruct (rescale_sets _ _ Er) as (rect & ->);
      [rewrite Ec2; discriminate | rewrite Eow; exact Hw0
      | rewrite Eoh; exact Hh0|].
    change (display_w (set_crop_rect (panel s2) ?c))
      with (display_w (panel s2)).
    intros Hw Hh. unfold crop_ok. cbn [crop_rect set_crop_rect].
    apply (rect_ok_ext (panel s2)); [reflexivity | reflexivity|].
    apply ensure_min_size_ok; assumption.
  - cbn [fst]. intros _ _. unfold crop_ok. rewrite Ec2. exact I.
Qed.

Lemma OnSize_keeps_invariant_witness :
  crop_ok (panel (fst (OnSize (400, 300) DemoPointer.shown))).
Proof.
  apply (OnSize_keeps_invariant DemoPointer.shown (400, 300)).
  - vm_compute; reflexivity.
  - cbn; lia.
  - cbn; lia.
  - vm_compute; discriminate.
  - vm_compute; discriminate.
Defined.

(** X19: [OnSize] does not rescale from an empty display.  When the
    display had a side of 0 pixels before the event, the selection
    rectangle stays as it is, whatever the new display: a rectangle stored
    on an empty display, [(0, 0, 0, 0)], is not made to fit the display the
    panel gets later. *)
Theorem OnSize_from_empty_display
    {B : Builtins} {P : Pillow} (s : PointerPanel) (client : Z * Z) :
  display_w (panel s) = 0 \/ display_h (panel s) = 0 ->
  crop_rect (panel (fst (OnSize client s))) = crop_rect (panel s).
Proof.
  intros Hz. unfold OnSize, andthen, assign. cbv beta iota.
  set (s1 := set_panel s
               (set_old_display (panel s) (display_w (panel s))
                  (display_h (panel s)))).
  destruct (UpdateDisplayGeometry_keeps client s1) as (Ec & _ & Eow & Eoh).
  change (old_display_w (panel s1)) with (display_w (panel s)) in Eow.
  change (old_display_h (panel s1)) with (display_h (panel s)) in Eoh.
  change (crop_rect (panel s1)) with (crop_rect (panel s)) in Ec.
  destruct (UpdateDisplayGeometry client s1) as [s2 [e|]]; cbn [fst] in *;
    [exact Ec|].
  destruct (crop_rect (panel s2)) as [c|] eqn:Ec2; [|cbn [fst]; congruence].
  unfold on_panel. rewrite rescale_from_empty.
  - cbn [fst panel set_panel]. congruence.
  - rewrite Eow, Eoh. exact Hz.
Qed.

Lemma OnSize_from_empty_display_witness :
  crop_rect (panel (fst (OnSize (820, 640) DemoPointer.hidden)))
  = crop_rect (panel DemoPointer.hidden).
Proof.
  apply (OnSize_from_empty_display DemoPointer.hidden (820, 640)).
  left; reflexivity.
Defined.

(** ** A coordinate typed into a field *)

Section CoordEnterFacts.
Context {B : Builtins} {P : Pillow} {H : Host}.

Lemma OnCoordEnter_stores (u : UI) (cb_aspect : bool) (tc_aspect : string)
    (key : coord) (disp : PreviewPanel) :
  stores_normalised disp
    (entered_preview (OnCoordEnter u cb_aspect tc_aspect key disp)) /\
  (cb_aspect = false ->
   entered_cb_aspect (OnCoordEnter u cb_aspect tc_aspect key disp) = false) /\
  (snd (GetValidatedBox u) = None ->
   entered_preview (OnCoordEnter u cb_aspect tc_aspect key disp) = disp /\
   entered_cb_aspect (OnCoordEnter u cb_aspect tc_aspect key disp)
   = cb_aspect /\
   entered_written (OnCoordEnter u cb_aspect tc_aspect key disp) = None).
Proof.
  unfold OnCoordEnter.
  destruct (GetValidatedBox u) as [u' [[[[vxs vys] vxe] vye]|]];
    cbn [snd entered_preview entered_cb_aspect entered_written];
    [|split; [constructor|]; split; [tauto|]; intros _;
      repeat split; reflexivity].
  destruct (GetCropBox disp) as [old_box|e];
    cbn [entered_preview entered_cb_aspect];
    [|split; [constructor|]; split; [tauto | discriminate]].
  cbv zeta.
  match goal with
  | |- context [match ?m with Ok _ => _ | Raise _ => _ end] =>
      destruct m as [[[nxe nye] cb]|e] eqn:El
  end; cbn [entered_preview entered_cb_aspect];
    [|split; [constructor|]; split; [tauto | discriminate]].
  assert (Hcb : cb_aspect = false -> cb = false).
  { intros ->. injection El as _ _ <-. reflexivity. }
  destruct (current_image disp) as [img|];
    cbn [entered_preview entered_cb_aspect];
    [|split; [constructor|]; split; [exact Hcb | discriminate]].
  destruct (entered_rect disp img vxs vys nxe nye) as [rect|e];
    cbn [entered_preview entered_cb_aspect];
    [|split; [constructor|]; split; [exact Hcb | discriminate]].
  match goal with
  | |- context [match ?m with Ok _ => _ | Raise _ => _ end] => destruct m
  end; cbn [entered_preview entered_cb_aspect];
    (split; [constructor|]; split; [exact Hcb | discriminate]).
Qed.
End CoordEnterFacts.

(** X20: a coordinate typed into a field.  [OnCoordEnter] changes of the
    preview panel at most the selection rectangle: the display, the lock
    [fixed_aspect] and its ratio stay, also when the handler clears the
    check box; on a display of at least MIN_CROP_SIZE pixels each way a
    selection that satisfies the invariant is replaced by one that does.
    A check box that is off stays off, and input that [GetValidatedBox]
    rejects changes nothing and writes nothing back. *)
Theorem OnCoordEnter_keeps_lock_and_invariant
    {B : Builtins} {P : Pillow} {H : Host} (u : UI) (cb_aspect : bool)
    (tc_aspect : string) (key : coord) (disp : PreviewPanel) :
  let after := OnCoordEnter u cb_aspect tc_aspect key disp in
  fixed_aspect (entered_preview after) = fixed_aspect disp /\
  crop_aspect (entered_preview after) = crop_aspect disp /\
  display_w (entered_preview after) = display_w disp /\
  display_h (entered_preview after) = display_h disp /\
  (MIN_CROP_SIZE <= display_w disp -> MIN_CROP_SIZE <= display_h disp ->
   crop_ok disp -> crop_ok (entered_preview after)) /\
  (cb_aspect = false -> entered_cb_aspect after = false) /\
  (snd (GetValidatedBox u) = None ->
   entered_preview after = disp /\ entered_cb_aspect after = cb_aspect /\
   entered_written after = None).
Proof.
  intros after. subst after.
  destruct (OnCoordEnter_stores u cb_aspect tc_aspect key disp)
    as (Hs & Hcb & Hrej).
  destruct (stores_display _ _ Hs) as (Ew & Eh).
  split; [destruct Hs; reflexivity|]. split; [destruct Hs; reflexivity|].
  split; [exact Ew|]. split; [exact Eh|].
  split; [|split; assumption].
  intros Hw Hh Hok. apply (stores_crop_ok disp); assumption.
Qed.

(** The check box can be cleared while the panel stays locked: with the
    lock 1:1, XS entered, and a YE in the fields that makes the box no
    square. *)
Lemma OnCoordEnter_clears_check_box_only :
  let after :=
    @OnCoordEnter decimal_builtins Demo.pillow Demo.host
      (Demo.mkWidgets (Demo.box_texts "200" "200" "700" "400") [])
      true "1:1" xs
      (Demo.panel 800 600 true "1:1" (Some (100, 100, 150, 150)) None None) in
  entered_cb_aspect after = false /\
  fixed_aspect (entered_preview after) = true /\
  entered_ending after = returned.
Proof. vm_compute. repeat split; reflexivity. Qed.

(** ** build_unique_path finds a free name *)

Section UniquePathFacts.
Variable path_exists : string -> bool.

Lemma append_inv_head (s a b : string) :
  (s ++ a = s ++ b)%string -> a = b.
Proof.
  induction s as [|c s IH]; cbn [append]; intros E; [exact E|].
  injection E as E. apply IH. exact E.
Qed.

Lemma length_append (a b : string) :
  String.length (a ++ b) = (String.length a + String.length b)%nat.
Proof.
  induction a as [|c a IH]; cbn [append String.length]; [reflexivity|].
  rewrite IH. reflexivity.
Qed.

Lemma append_inv_tail (a b e : string) :
  (a ++ e = b ++ e)%string -> a = b.
Proof.
  revert b. induction a as [|c a IH]; intros b E.
  - destruct b as [|d b]; [reflexivity|].
    apply (f_equal String.length) in E. cbn [append String.length] in E.
    rewrite length_append in E. lia.
  - destruct b as [|d b].
    + apply (f_equal String.length) in E. cbn [append String.length] in E.
      rewrite length_append in E. lia.
    + cbn [append] in E. injection E as -> E. f_equal. apply IH. exact E.
Qed.

Lemma py_str_inj (a b : Z) : py_str a = py_str b -> a = b.
Proof.
  intros E. pose proof (decimal_builtins_read_back a) as Ha.
  rewrite E, decimal_builtins_read_back in Ha. congruence.
Qed.

Lemma candidate_inj (stem ext : string) (i j : nat) :
  candidate stem ext i = candidate stem ext j -> i = j.
Proof.
  unfold candidate, numbered. destruct i as [|i]; destruct j as [|j];
    intros E; [reflexivity| | |].
  - apply append_inv_head in E. apply (f_equal String.length) in E.
    cbn [append String.length] in E. rewrite length_append in E. lia.
  - apply append_inv_head in E. apply (f_equal String.length) in E.
    cbn [append String.length] in E. rewrite length_append in E. lia.
  - apply append_inv_head in E. cbn [append] in E. injection E as E.
    apply append_inv_tail in E. apply py_str_inj in E. lia.
Qed.

(** The loop returns the first candidate that does not exist, when there
    is one within the fuel. *)
Lemma unique_from_first (stem ext : string) (fuel j m : nat) :
  (j <= m < j + fuel)%nat ->
  path_exists (candidate stem ext m) = false ->
  (forall i, (j <= i < m)%nat -> path_exists (candidate stem ext i) = true) ->
  unique_from path_exists stem ext (candidate stem ext j)
    (Z.of_nat j + 1) fuel
  = Some (candidate stem ext m).
Proof.
  revert j. induction fuel as [|fuel IH]; intros j Hm Hfree Hbusy; [lia|].
  cbn [unique_from].
  destruct (Nat.eq_dec j m) as [->|Hne].
  - rewrite Hfree. reflexivity.
  - rewrite (Hbusy j) by lia.
    replace (numbered stem ext (Z.of_nat j + 1))
      with (candidate stem ext (S j))
      by (cbn [candidate]; f_equal; lia).
    replace (Z.of_nat j + 1 + 1) with (Z.of_nat (S j) + 1) by lia.
    apply IH; [lia | exact Hfree|].
    intros i Hi. apply Hbusy. lia.
Qed.

Lemma NoDup_map_injective {A C : Type} (f : A -> C) (l : list A) :
  (forall x y, f x = f y -> x = y) -> NoDup l -> NoDup (map f l).
Proof.
  intros Hinj Hnd. induction Hnd as [|a l Hn Hnd IH]; cbn [map];
    constructor; [|exact IH].
  intros Hin. apply in_map_iff in Hin. destruct Hin as (b & E & Hb).
  apply Hinj in E. subst b. contradiction.
Qed.

(** Among more candidates than there are files, one does not exist; the
    first of them is found. *)
Lemma first_free (stem ext : string) (files : list string) (n : nat) :
  (forall name, path_exists name = true -> In name files) ->
  (List.length files < n)%nat ->
  exists m, (m < n)%nat /\ (m <= List.length files)%nat /\
            path_exists (candidate stem ext m) = false /\
            forall i, (i < m)%nat -> path_exists (candidate stem ext i) = true.
Proof.
  intros Hfin Hlen.
  assert (Hsome : exists m, (m <= List.length files)%nat /\
                            path_exists (candidate stem ext m) = false).
  { destruct (forallb (fun i => path_exists (candidate stem ext i))
                (seq 0 (S (List.length files)))) eqn:Hall.
    - exfalso. rewrite forallb_forall in Hall.
      assert (Hincl : incl (map (candidate stem ext)
                              (seq 0 (S (List.length files)))) files).
      { intros name Hin. apply in_map_iff in Hin.
        destruct Hin as (i & <- & Hi). apply Hfin. apply Hall. exact Hi. }
      assert (Hnd : NoDup (map (candidate stem ext)
                             (seq 0 (S (List.length files))))).
      { apply NoDup_map_injective; [|apply seq_NoDup].
        intros i j. apply candidate_inj. }
      pose proof (NoDup_incl_length Hnd Hincl) as Hle.
      rewrite length_map, length_seq in Hle. lia.
    - apply Bool.not_true_iff_false in Hall.
      rewrite forallb_forall in Hall.
      destruct (existsb (fun i => negb (path_exists (candidate stem ext i)))
                  (seq 0 (S (List.length files)))) eqn:Hex.
      + apply existsb_exists in Hex. destruct Hex as (m & Hm & Hf).
        apply in_seq in Hm. exists m. split; [lia|].
        apply negb_true_iff. exact Hf.
      + exfalso. apply Hall. intros i Hi.
        rewrite <- Bool.not_true_iff_false in Hex.
        destruct (path_exists (candidate stem ext i)) eqn:Ei; [reflexivity|].
        exfalso. apply Hex. apply existsb_exists. exists i.
        split; [exact Hi | rewrite Ei; reflexivity]. }
  destruct Hsome as (m0 & Hm0 & Hf0).
  (* the least such index *)
  revert Hm0 Hf0. induction m0 as [m0 IH] using lt_wf_ind. intros Hm0 Hf0.
  destruct (forallb (fun i => path_exists (candidate stem ext i)) (seq 0 m0))
    eqn:Hall.
  - exists m0. split; [lia|]. split; [exact Hm0|]. split; [exact Hf0|].
    rewrite forallb_forall in Hall. intros i Hi. apply Hall.
    apply in_seq. lia.
  - assert (Hex : exists i, (i < m0)%nat /\
                            path_exists (candidate stem ext i) = false).
    { destruct (existsb (fun i => negb (path_exists (candidate stem ext i)))
                  (seq 0 m0)) eqn:Hex.
      - apply existsb_exists in Hex. destruct Hex as (i & Hi & Hf).
        apply in_seq in Hi. exists i. split; [lia|].
        apply negb_true_iff. exact Hf.
      - exfalso. apply Bool.not_true_iff_false in Hall. apply Hall.
        apply forallb_forall. intros i Hi.
        rewrite <- Bool.not_true_iff_false in Hex.
        destruct (path_exists (candidate stem ext i)) eqn:Ei; [reflexivity|].
        exfalso. apply Hex. apply existsb_exists. exists i.
        split; [exact Hi | rewrite Ei; reflexivity]. }
    destruct Hex as (i & Hi & Hf). apply (IH i); [exact Hi | lia | exact Hf].
Qed.
End UniquePathFacts.

(** X21: [build_unique_path] returns a free name.  When the directory
    holds finitely many files and does not change meanwhile, the loop ends
    after at most one test more than there are files, and the name returned
    does not exist: it is [prefix_timestamp.ext], or
    [prefix_timestamp_k.ext] for the least [k >= 1] that is free, all
    names tried before it being taken. *)
Theorem build_unique_path_free
    (path_exists : string -> bool) (files : list string)
    (prefix timestamp ext : string) (fuel : nat) :
  (forall name, path_exists name = true -> In name files) ->
  (List.length files < fuel)%nat ->
  exists m,
    (m <= List.length files)%nat /\
    build_unique_path path_exists prefix timestamp ext fuel
    = Some (candidate (prefix ++ "_" ++ timestamp)
              ("." ++ lstrip_dot ext) m) /\
    path_exists (candidate (prefix ++ "_" ++ timestamp)
                   ("." ++ lstrip_dot ext) m) = false /\
    forall i, (i < m)%nat ->
      path_exists (candidate (prefix ++ "_" ++ timestamp)
                     ("." ++ lstrip_dot ext) i) = true.
Proof.
  intros Hfin Hlen.
  destruct (first_free path_exists (prefix ++ "_" ++ timestamp)
              ("." ++ lstrip_dot ext) files fuel Hfin Hlen)
    as (m & Hm & Hml & Hfree & Hbusy).
  exists m. split; [exact Hml|]. split; [|split; assumption].
  unfold build_unique_path. cbv zeta.
  apply (unique_from_first path_exists _ _ fuel 0 m);
    [lia | exact Hfree|].
  intros i Hi. apply Hbusy. lia.
Qed.

Lemma build_unique_path_free_witness :
  exists m,
    (m <= 2)%nat /\
    build_unique_path
      (fun name => str_in name ["clipboard_20250101_120000.png";
                                "clipboard_20250101_120000_1.png"]%string)
      "clipboard" "20250101_120000" ".png" 3
    = Some (candidate ("clipboard" ++ "_" ++ "20250101_120000")
              ("." ++ lstrip_dot ".png") m) /\
    str_in (candidate ("clipboard" ++ "_" ++ "20250101_120000")
              ("." ++ lstrip_dot ".png") m)
      ["clipboard_20250101_120000.png";
       "clipboard_20250101_120000_1.png"]%string = false /\
    forall i, (i < m)%nat ->
      str_in (candidate ("clipboard" ++ "_" ++ "20250101_120000")
                ("." ++ lstrip_dot ".png") i)
        ["clipboard_20250101_120000.png";
         "clipboard_20250101_120000_1.png"]%string = true.
Proof.
  apply (build_unique_path_free
           (fun name => str_in name ["clipboard_20250101_120000.png";
                                     "clipboard_20250101_120000_1.png"]%string)
           ["clipboard_20250101_120000.png";
            "clipboard_20250101_120000_1.png"]%string
           "clipboard" "20250101_120000" ".png" 3).
  - intros name Hn. apply str_in_In. exact Hn.
  - cbn; lia.
Defined.

(** ** Copying the original to the clipboard *)

Section CopyFacts.
Context {B : Builtins} {P : Pillow} {H : Host} {I : Imports}.

Lemma py_nth_in_range {A : Type} (l : list A) (i : Z) :
  0 <= i < Z.of_nat (List.length l) ->
  exists a, py_nth l i = Some a /\ nth_error l (Z.to_nat i) = Some a.
Proof.
  intros Hi. unfold py_nth.
  destruct (Z.leb_spec 0 i); [|lia].
  destruct (nth_error l (Z.to_nat i)) as [a|] eqn:En.
  - exists a. split; reflexivity.
  - apply nth_error_None in En. lia.
Qed.

Lemma ext_lower_add_bc_suffix (p : string) :
  ext_lower (add_bc_suffix os_name p) = ext_lower p.
Proof.
  unfold ext_lower, OsPath.splitext, add_bc_suffix. cbn [snd].
  rewrite list_ascii_of_string_of_list_ascii.
  destruct (add_bc_suffix_chars_splitext os_name (list_ascii_of_string p))
    as (b & Es & _).
  rewrite Es. reflexivity.
Qed.

Lemma png_is_no_jpeg (p : string) :
  is_png p = true -> str_in (ext_lower p) [".jpg"; ".jpeg"]%string = false.
Proof.
  unfold is_png. intros E. apply String.eqb_eq in E. rewrite E. reflexivity.
Qed.

Lemma commit_selected (self : MainFrame) (b : batch) :
  new_images b <> [] ->
  0 <= selected_index (commit self b)
  < Z.of_nat (List.length (new_images b)).
Proof.
  intros Hne. unfold commit. cbv zeta.
  set (x := PushHistory
              (set_documents (set_ui (set_fs self (b_fs b)) (b_ui b))
                 (new_paths b) (new_images b) (new_flags b))).
  change (selected_index (UpdateUI (fix_selected_index x)))
    with (selected_index (fix_selected_index x)).
  assert (Ei : images x = new_images b) by reflexivity.
  unfold fix_selected_index. rewrite Ei.
  destruct ((0 <=? selected_index x)
            && (selected_index x <? Z.of_nat (List.length (new_images b))))
    eqn:Ec.
  - apply andb_true_iff in Ec. destruct Ec as (E1 & E2).
    apply Z.leb_le in E1. apply Z.ltb_lt in E2. lia.
  - cbn [selected_index set_selected_index].
    destruct (new_images b); [contradiction|]. cbn [List.length]. lia.
Qed.
End CopyFacts.

(** X22: in every session the handlers can reach from start-up,
    [OnCopyPreviewOriginal] does not end with an [IndexError]: a selected
    index that is a position of the list of paths is a position of the list
    of flags too. *)
Theorem OnCopyPreviewOriginal_no_index_error
    {B : Builtins} {P : Pillow} {H : Host} {I : Imports}
    (cs : list command) (u : UI) (f : FS) :
  OnCopyPreviewOriginal (run_all (MainFrame_init u f) cs) <> copy_index_error.
Proof.
  destruct (run_all_inv cs _ (init_inv u f)) as ((E1 & E2) & _).
  set (self := run_all (MainFrame_init u f) cs) in *.
  cbn [paths snap_images flags snapshot_of] in E1, E2.
  unfold OnCopyPreviewOriginal.
  destruct ((0 <=? selected_index self)
            && (selected_index self
                <? Z.of_nat (List.length (file_paths self)))) eqn:Eg;
    cbn [negb]; [|discriminate].
  apply andb_true_iff in Eg. destruct Eg as (G1 & G2).
  apply Z.leb_le in G1. apply Z.ltb_lt in G2.
  destruct (py_nth_in_range (file_paths self) (selected_index self))
    as (p & -> & _); [lia|].
  destruct (str_in (ext_lower p) [".jpg"; ".jpeg"]%string); [discriminate|].
  destruct (reduced_flags self) as [|fl fls] eqn:Ef; [discriminate|].
  destruct (py_nth_in_range (fl :: fls) (selected_index self))
    as (b & -> & _); [lia|].
  destruct b; discriminate.
Qed.

(** X23: after a PNG reduction nothing is copied.  When [OnPngReduce]
    records a step, [OnCopyPreviewOriginal] ends with the refusal for a
    reduced image, whichever document was selected. *)
Theorem OnCopyPreviewOriginal_after_reduce
    {B : Builtins} {P : Pillow} {H : Host} {I : Imports}
    (self : MainFrame) :
  history (OnPngReduce self) <> history self ->
  OnCopyPreviewOriginal (OnPngReduce self) = reduced_refused.
Proof.
  intros Hne.
  destruct (OnPngReduce_cases self)
    as [(_ & E)|(b & Ec & (A1 & A2) & Hp & Eb & Hpng)]; [contradiction|].
  rewrite Ec.
  destruct (commit_file_paths self b) as (Ep & Ef).
  assert (Hi : new_images b <> []).
  { intros Ei. rewrite Ei in A1. destruct (new_paths b);
      [contradiction | discriminate]. }
  pose proof (commit_selected self b Hi) as Hsel.
  assert (Hall : Forall (fun p => is_png p = true) (new_paths b) /\
                 Forall (fun fl => fl = true) (new_flags b)).
  { rewrite Eb. apply reduce_loop_outputs; [|constructor|constructor].
    intros [q img] Hd. apply in_combine_l in Hd. cbn [fst].
    unfold is_png. rewrite ext_lower_add_bc_suffix.
    assert (Hq : negb (is_png q) = false).
    { destruct (negb (is_png q)) eqn:En; [|reflexivity].
      assert (Hin : In q (filter (fun p => negb (is_png p))
                            (file_paths self))).
      { apply filter_In. split; assumption. }
      rewrite Hpng in Hin. destruct Hin. }
    apply negb_false_iff in Hq. exact Hq. }
  destruct Hall as (Hpngs & Hflags).
  unfold OnCopyPreviewOriginal. rewrite Ep, Ef.
  assert (Eg : (0 <=? selected_index (commit self b))
               && (selected_index (commit self b)
                   <? Z.of_nat (List.length (new_paths b))) = true).
  { apply andb_true_iff. split; [apply Z.leb_le | apply Z.ltb_lt]; lia. }
  rewrite Eg. cbn [negb].
  destruct (py_nth_in_range (new_paths b) (selected_index (commit self b)))
    as (p & -> & Hnth); [lia|].
  apply nth_error_In in Hnth.
  rewrite Forall_forall in Hpngs.
  rewrite (png_is_no_jpeg p (Hpngs p Hnth)).
  destruct (new_flags b) as [|fl fls] eqn:Efl.
  - exfalso. cbn [List.length] in A2. lia.
  - destruct (py_nth_in_range (fl :: fls) (selected_index (commit self b)))
      as (v & -> & Hv); [rewrite <- A2; lia|].
    apply nth_error_In in Hv. rewrite Forall_forall in Hflags.
    rewrite (Hflags v Hv). reflexivity.
Qed.

Lemma OnCopyPreviewOriginal_after_reduce_witness :
  OnCopyPreviewOriginal
    (OnPngReduce (AddFiles (Demo.frame [] [] (Demo.box_texts "" "" "" ""))
                    ["a.png"; "b.PNG"]%string))
  = reduced_refused.
Proof.
  apply (OnCopyPreviewOriginal_after_reduce
           (AddFiles (Demo.frame [] [] (Demo.box_texts "" "" "" ""))
              ["a.png"; "b.PNG"]%string)).
  vm_compute; discriminate.
Defined.
